(** * httpmon: the measurement engine of src/httpmon.cc

    A shallow embedding of the statistics helpers ([median], [quartiles],
    [percentiles], [average]), of the drain performed by [report], of the
    worker loop [httpClientMain], of the reconfiguration parser
    [processInput] and of the pool reconciliation done by [main], followed
    by the properties established about them.

    Conventions.
    - [int] is a 32-bit two's complement integer, [uint32_t] and [size_t]
      are unsigned 32- and 64-bit integers; all are carried by [Z] with
      their wrap-around written out.
    - [double] is the kernel's binary64 type ([PrimFloat.float]), so the
      arithmetic of the reports is IEEE 754 arithmetic, NaN included.
    - A read through an iterator or an index yields [None] when it falls
      outside the vector it points into. *)

From Stdlib Require Import ZArith List Lia Bool Ascii String.
From Stdlib Require Import Floats Uint63 QArith Lqa Sorted.
Import ListNotations.

Local Open Scope Z_scope.

(** ** Machine integers *)

Module MachineInt.

Definition INT_MAX : Z := 2147483647.
Definition INT_MIN : Z := -2147483648.

(** Conversion to [int]: reduction modulo 2^32 into [INT_MIN, INT_MAX]. *)
Definition to_int (z : Z) : Z := (z + 2^31) mod 2^32 - 2^31.

(** Conversion to [uint32_t]. *)
Definition to_uint32 (z : Z) : Z := z mod 2^32.

(** Conversion to [size_t] (64 bits). *)
Definition to_size_t (z : Z) : Z := z mod 2^64.

End MachineInt.
Import MachineInt.

(** ** The value type of the statistics templates

    [median], [quartiles] and [percentiles] are templates: they use of
    their [value_type] only the addition, the division by the [int]
    literal 2, the comparison [<] (through [std::sort]) and the constant
    [NAN]. *)

Class ValueType (T : Type) : Type := {
  v_add : T -> T -> T;
  v_div : T -> T -> T;
  v_lt : T -> T -> bool;
  v_of_int : Z -> T;
  v_nan : T
}.

(** The instance the program uses: [std::vector<double>]. *)
Definition double : Type := float.

(** Conversion of an unsigned integer below 2^63 to [double], rounded to
    nearest. *)
Definition double_of_Z (z : Z) : double := PrimFloat.of_uint63 (Uint63.of_Z z).

(** Conversion of an [int] to [double]. *)
Definition double_of_int (z : Z) : double :=
  if z <? 0 then PrimFloat.opp (double_of_Z (- z)) else double_of_Z z.

#[export] Instance double_ValueType : ValueType double := {
  v_add := PrimFloat.add;
  v_div := PrimFloat.div;
  v_lt := PrimFloat.ltb;
  v_of_int := double_of_int;
  v_nan := PrimFloat.nan
}.

(** Exact arithmetic: the rationals extended with one undefined value.
    It is the arithmetic of [double] without rounding and without
    overflow, and serves as a model of the order laws below. *)
Definition exact : Type := option Q.

Definition exact_lift2 (f : Q -> Q -> Q) (x y : exact) : exact :=
  match x, y with
  | Some p, Some q => Some (f p q)
  | _, _ => None
  end.

Definition exact_div (x y : exact) : exact :=
  match x, y with
  | Some p, Some q => if Qeq_bool q 0 then None else Some (Qdiv p q)
  | _, _ => None
  end.

Definition exact_lt (x y : exact) : bool :=
  match x, y with
  | Some p, Some q => negb (Qle_bool q p)
  | _, _ => false
  end.

#[export] Instance exact_ValueType : ValueType exact := {
  v_add := exact_lift2 Qplus;
  v_div := exact_div;
  v_lt := exact_lt;
  v_of_int := fun z => Some (inject_Z z);
  v_nan := None
}.

(** ** Statistics helpers (src/httpmon.cc, lines 50-105) *)

Section Statistics.

Context {T : Type} {V : ValueType T}.

(** [std::vector<value_type>]. *)
Definition vector : Type := list T.

(** [a.size()]. *)
Definition size (a : vector) : Z := Z.of_nat (List.length a).

(** [*(a.begin() + k)]: defined for the positions of [a] only. *)
Definition deref (a : vector) (k : Z) : option T :=
  if (0 <=? k) && (k <? size a) then nth_error a (Z.to_nat k) else None.

(** Evaluation of [x op y] when either operand may be an
    out-of-range read. *)
Definition lift2 (f : T -> T -> T) (x y : option T) : option T :=
  match x, y with
  | Some u, Some v => Some (f u v)
  | _, _ => None
  end.

(** [median(begin, end)], the iterators being [a.begin() + b] and
    [a.begin() + e].  [%] and [/] on [int] truncate towards zero. *)
Definition median (a : vector) (b e : Z) : option T :=
  let n := to_int (e - b) in
  if Z.rem (n - 1) 2 =? 0
  then deref a (b + Z.quot (n - 1) 2)
  else lift2 v_div
         (lift2 v_add (deref a (b + Z.quot (n - 1) 2))
                      (deref a (b + Z.quot (n - 1) 2 + 1)))
         (Some (v_of_int 2)).

(** [std::sort(a.begin(), a.end())] with the default comparison [<]:
    written as an insertion sort, which returns the ascending
    arrangement of [a]. *)
Fixpoint insert (x : T) (l : vector) : vector :=
  match l with
  | [] => [x]
  | y :: l' => if v_lt y x then y :: insert x l' else x :: l
  end.

Fixpoint sort (a : vector) : vector :=
  match a with
  | [] => []
  | x :: a' => insert x (sort a')
  end.

(** [quartiles(a)]: [a] is taken by reference and sorted in place, so
    the sorted vector is returned with the result array
    (minimum, first quartile, median, third quartile, maximum). *)
Definition quartiles (a : vector) : vector * list (option T) :=
  let n := to_size_t (size a) in
  if n <? 1 then (a, [Some v_nan; Some v_nan; Some v_nan; Some v_nan; Some v_nan])
  else
    let a := sort a in
    let ret0 := deref a 0 in
    let ret4 := deref a (n - 1) in
    let ret2 := median a 0 (size a) in
    let ret1 := median a 0 (0 + n / 2) in
    let ret3 := median a (0 + n / 2) (size a) in
    (a, [ret0; ret1; ret2; ret3; ret4]).

(** [percentiles(a)]: the products [90 * n] and [98 * n] are [size_t]
    products. *)
Definition percentiles (a : vector) : vector * list (option T) :=
  let n := to_size_t (size a) in
  if n <? 1 then (a, [Some v_nan; Some v_nan])
  else
    let a := sort a in
    let ret0 := median a (0 + to_size_t (90 * n) / 100) (size a) in
    let ret1 := median a (0 + to_size_t (98 * n) / 100) (size a) in
    (a, [ret0; ret1]).

(** The median of a slice in the words of the specification: "the
    median of an even-length slice is the mean of its two middle
    elements; of odd length, the single middle element".  It is compared
    with [median] below. *)
Definition slice_median (s : vector) : option T :=
  let n := List.length s in
  if Nat.even n then
    lift2 v_div
      (lift2 v_add (nth_error s (n / 2 - 1)) (nth_error s (n / 2)))
      (Some (v_of_int 2))
  else nth_error s (n / 2).

(** The slice of [a] between the positions [b] and [e]. *)
Definition slice (a : vector) (b e : nat) : vector := firstn (e - b) (skipn b a).

(** [x <= y] as [std::sort] sees it: not [y < x]. *)
Definition v_le (x y : T) : Prop := v_lt y x = false.

(** [(x + y) / 2], the value [median] returns on an even length. *)
Definition mean (x y : T) : T := v_div (v_add x y) (v_of_int 2).

End Statistics.

Arguments vector T : clear implicits.

(** The laws of an ordered field that the order of the quartiles rests
    on, for the values called [ordinary]: [<] is asymmetric, its negation
    is transitive, and the mean of two values lies between them.  Exact
    arithmetic has them; [double] has them on finite values whose sum
    does not overflow, and not on NaN. *)
Class OrderLaws {T : Type} (V : ValueType T) (ordinary : T -> Prop) : Prop := {
  lt_asym : forall x y, ordinary x -> ordinary y ->
    v_lt x y = true -> v_lt y x = false;
  le_trans : forall x y z, ordinary x -> ordinary y -> ordinary z ->
    v_le x y -> v_le y z -> v_le x z;
  mean_ordinary : forall x y, ordinary x -> ordinary y -> ordinary (mean x y);
  mean_between : forall x y, ordinary x -> ordinary y ->
    v_le x y -> v_le x (mean x y) /\ v_le (mean x y) y
}.

(** The ordinary values of exact arithmetic: the rationals. *)
Definition is_rational (x : exact) : Prop := x <> None.

(** [average(a)]: [std::accumulate] from [0.0], then a division by the
    size converted to [double]. *)
Definition average (a : vector double) : double :=
  let sum := fold_left PrimFloat.add a 0%float in
  PrimFloat.div sum (double_of_Z (to_size_t (size a))).


(** ** The shared control structure (lines 27-41) *)

Record HttpClientControl : Type := mkControl {
  url : string;
  timeout : Z;                    (* int *)
  thinkTime : double;
  running : bool;
  numErrors : Z;                  (* uint32_t, under the mutex *)
  numOptionalStuff1 : Z;          (* uint32_t, under the mutex *)
  numOptionalStuff2 : Z;          (* uint32_t, under the mutex *)
  latencies : vector double;      (* under the mutex *)
  concurrency : Z;                (* int *)
  open : bool;
  numOpenQueuing : Z;             (* std::atomic<uint32_t> *)
  numRequestsLeft : Z             (* std::atomic<int> *)
}.

Definition set_thinkTime (x : double) (c : HttpClientControl) : HttpClientControl :=
  mkControl (url c) (timeout c) x (running c) (numErrors c)
    (numOptionalStuff1 c) (numOptionalStuff2 c) (latencies c) (concurrency c)
    (open c) (numOpenQueuing c) (numRequestsLeft c).

Definition set_concurrency (x : Z) (c : HttpClientControl) : HttpClientControl :=
  mkControl (url c) (timeout c) (thinkTime c) (running c) (numErrors c)
    (numOptionalStuff1 c) (numOptionalStuff2 c) (latencies c) x
    (open c) (numOpenQueuing c) (numRequestsLeft c).

Definition set_open (x : bool) (c : HttpClientControl) : HttpClientControl :=
  mkControl (url c) (timeout c) (thinkTime c) (running c) (numErrors c)
    (numOptionalStuff1 c) (numOptionalStuff2 c) (latencies c) (concurrency c)
    x (numOpenQueuing c) (numRequestsLeft c).

Definition set_numOpenQueuing (x : Z) (c : HttpClientControl) : HttpClientControl :=
  mkControl (url c) (timeout c) (thinkTime c) (running c) (numErrors c)
    (numOptionalStuff1 c) (numOptionalStuff2 c) (latencies c) (concurrency c)
    (open c) x (numRequestsLeft c).

Definition set_numRequestsLeft (x : Z) (c : HttpClientControl) : HttpClientControl :=
  mkControl (url c) (timeout c) (thinkTime c) (running c) (numErrors c)
    (numOptionalStuff1 c) (numOptionalStuff2 c) (latencies c) (concurrency c)
    (open c) (numOpenQueuing c) x.

(** The four fields the mutex protects, written together. *)
Definition set_statistics (e s1 s2 : Z) (l : vector double)
  (c : HttpClientControl) : HttpClientControl :=
  mkControl (url c) (timeout c) (thinkTime c) (running c) e s1 s2 l
    (concurrency c) (open c) (numOpenQueuing c) (numRequestsLeft c).

(** The control structure as [main] fills it in (lines 363-374). *)
Definition initialControl (url_ : string) (concurrency_ timeout_ : Z)
  (thinkTime_ : double) (open_ : bool) (numRequestsLeft_ : Z) : HttpClientControl :=
  mkControl url_ timeout_ thinkTime_ true 0 0 0 [] concurrency_ open_ 0
    numRequestsLeft_.

Definition OPTIONAL_STUFF1 : Z := 1.
Definition OPTIONAL_STUFF2 : Z := 2.

(** ** The report (lines 205-252) *)

(** An argument handed to [fprintf]; a [double] argument may come from an
    out-of-range read. *)
Inductive PrintfArg : Type :=
| ArgDouble (x : option double)
| ArgInt (z : Z).

(** The report line: the labels of the format string, in order, each
    with the arguments printed under it.  The format is
    [[%f] latency=%.0f:%.0f:%.0f:%.0f:%.0f:(%.0f)ms latency95=%.0fms
    latency99=%.0fms throughput=%.0frps rr=%.2f%% cr=%.2f%% errors=%d
    total=%d openqueuing=%d]. *)
Definition ReportLine : Type := list (string * list PrintfArg).

Definition times (k : double) (x : option double) : option double :=
  option_map (fun v => PrimFloat.mul v k) x.

(** [ret[i]] on a [std::array]. *)
Definition at_ (ret : list (option double)) (i : nat) : option double :=
  match nth_error ret i with
  | Some x => x
  | None => None
  end.

(** The block under the lock (lines 213-226): the statistics are copied
    out and reset. *)
Definition drain (control : HttpClientControl)
  : (Z * Z * Z * vector double) * HttpClientControl :=
  let numErrors_ := to_int (numErrors control) in
  let numOptionalStuff1_ := to_int (numOptionalStuff1 control) in
  let numOptionalStuff2_ := to_int (numOptionalStuff2 control) in
  let latencies_ := latencies control in
  ((numErrors_, numOptionalStuff1_, numOptionalStuff2_, latencies_),
   set_statistics 0 0 0 [] control).

(** [report(control, lastReportTime, totalRequests)]; [t_now] is the value
    [now()] returns under the lock.  The result carries the control
    structure, the two variables passed by reference and the line
    printed. *)
Definition report (control : HttpClientControl) (lastReportTime : double)
  (totalRequests : Z) (t_now : double)
  : HttpClientControl * double * Z * ReportLine :=
  let '((numErrors_, numOptionalStuff1_, numOptionalStuff2_, latencies_), control) :=
    drain control in
  let reportTime := t_now in
  let n := to_size_t (size latencies_) in
  let throughput :=
    PrimFloat.div (double_of_Z n) (PrimFloat.sub reportTime lastReportTime) in
  let recommendationRate :=
    PrimFloat.div (double_of_int numOptionalStuff1_) (double_of_Z n) in
  let commentRate :=
    PrimFloat.div (double_of_int numOptionalStuff2_) (double_of_Z n) in
  let '(latencies_, latencyQuartiles) := quartiles latencies_ in
  let '(latencies_, latencyPercentiles) := percentiles latencies_ in
  let lastReportTime := reportTime in
  let totalRequests := to_int (to_size_t (to_size_t totalRequests + n)) in
  let numOpenQueuing_ := numOpenQueuing control in
  (control, lastReportTime, totalRequests,
   [ (""%string, [ArgDouble (Some reportTime)]);
     ("latency"%string,
       [ArgDouble (times 1000%float (at_ latencyQuartiles 0));
        ArgDouble (times 1000%float (at_ latencyQuartiles 1));
        ArgDouble (times 1000%float (at_ latencyQuartiles 2));
        ArgDouble (times 1000%float (at_ latencyQuartiles 3));
        ArgDouble (times 1000%float (at_ latencyQuartiles 4));
        ArgDouble (Some (PrimFloat.mul (average latencies_) 1000%float))]);
     ("latency95"%string, [ArgDouble (times 1000%float (at_ latencyPercentiles 0))]);
     ("latency99"%string, [ArgDouble (times 1000%float (at_ latencyPercentiles 1))]);
     ("throughput"%string, [ArgDouble (Some throughput)]);
     ("rr"%string, [ArgDouble (Some (PrimFloat.mul recommendationRate 100%float))]);
     ("cr"%string, [ArgDouble (Some (PrimFloat.mul commentRate 100%float))]);
     ("errors"%string, [ArgInt numErrors_]);
     ("total"%string, [ArgInt totalRequests]);
     ("openqueuing"%string, [ArgInt (to_int numOpenQueuing_)]) ]).

(** [%.0f] prints the integer nearest to its argument: it prints [k]
    when the argument lies within one half of [k], bounds excluded. *)
Definition prints_as (k : Z) (arg : PrintfArg) : bool :=
  match arg with
  | ArgDouble (Some x) =>
      PrimFloat.ltb (PrimFloat.sub (double_of_int k) 0.5%float) x
      && PrimFloat.ltb x (PrimFloat.add (double_of_int k) 0.5%float)
  | _ => false
  end.

(** The arguments printed under a label. *)
Fixpoint printed (label : string) (line : ReportLine) : option (list PrintfArg) :=
  match line with
  | [] => None
  | (l, args) :: rest => if String.eqb l label then Some args else printed label rest
  end.


(** ** The worker thread (lines 118-203)

    [httpClientMain] is cut at the points where it touches the shared
    control structure or the outside world, so that the threads of the
    pool can be interleaved.  The atomic pre-decrement of
    [numRequestsLeft] and the block under the mutex are one step each. *)

Inductive Location : Type :=
| AtLoopTest                       (* line 144: [--control.numRequestsLeft >= 0] *)
| AtThink                          (* line 154: the think-time block *)
| AtSend                           (* line 177: [curl_easy_perform] *)
| AtRecord (error : bool) (optionalStuff : Z) (lastLatency : double)
                                   (* line 184: the block under the mutex *)
| Exited.                          (* line 200: after the loop *)

Record Worker : Type := mkWorker {
  id : Z;
  lastThinkTime : double;
  lastArrivalTime : double;
  location : Location
}.

(** What a step of a worker reads from outside the program. *)
Record Environment : Type := mkEnvironment {
  waitSample : double;             (* [waitDistribution(rng)] *)
  clock : double;                  (* [now()] *)
  signo : Z;                       (* result of [sigtimedwait] *)
  curlError : bool;                (* [curl_easy_perform(curl) != 0] *)
  markers : Z;                     (* [optionalStuff] as [nullWriter] left it *)
  elapsed : double                 (* [now() - start] *)
}.

(** The actions of a worker that are observed: its decrements of the
    budget, its timed waits and its requests. *)
Inductive Event : Type :=
| Decrement (worker : Z) (result : Z)   (* the value [--numRequestsLeft] gave *)
| Wait (worker : Z) (interval : double) (* the timeout of [sigtimedwait] *)
| Send (worker : Z).                    (* one [curl_easy_perform] *)

Definition goto (l : Location) (w : Worker) : Worker :=
  mkWorker (id w) (lastThinkTime w) (lastArrivalTime w) l.

(** [--control.numRequestsLeft]: the new value is stored and returned. *)
Definition decrementRequestsLeft (control : HttpClientControl)
  : HttpClientControl * Z :=
  let v := to_int (numRequestsLeft control - 1) in
  (set_numRequestsLeft v control, v).

(** [std::max(a, b)] is [(a < b) ? b : a]. *)
Definition std_max (a b : double) : double :=
  if PrimFloat.ltb a b then b else a.

(** Lines 155-166: the interval to sleep for, from the sample [interval]
    of the wait distribution. *)
Definition thinkInterval (control : HttpClientControl) (w : Worker)
  (env : Environment) : HttpClientControl * Worker * double :=
  let interval := waitSample env in
  if open control then
    let nextArrivalTime := PrimFloat.add (lastArrivalTime w) interval in
    let interval := std_max (PrimFloat.sub nextArrivalTime (clock env)) 0%float in
    let control :=
      if PrimFloat.eqb interval 0%float
      then set_numOpenQueuing (to_uint32 (numOpenQueuing control + 1)) control
      else control in
    (control, mkWorker (id w) (lastThinkTime w) nextArrivalTime (location w), interval)
  else (control, w, interval).

(** Lines 184-193: the block under the mutex. *)
Definition recordResult (error : bool) (optionalStuff : Z) (lastLatency : double)
  (control : HttpClientControl) : HttpClientControl :=
  set_statistics
    (if error then to_uint32 (numErrors control + 1) else numErrors control)
    (if Z.land optionalStuff OPTIONAL_STUFF1 =? 0
     then numOptionalStuff1 control
     else to_uint32 (numOptionalStuff1 control + 1))
    (if Z.land optionalStuff OPTIONAL_STUFF2 =? 0
     then numOptionalStuff2 control
     else to_uint32 (numOptionalStuff2 control + 1))
    (latencies control ++ [lastLatency])
    control.

(** One step of [httpClientMain] from the worker's current location.
    The comparison of [lastThinkTime] with [control.thinkTime] (lines
    146-149) is taken with the loop test, and the timed wait with the
    computation of its interval. *)
Definition httpClientMain (env : Environment) (control : HttpClientControl)
  (w : Worker) : HttpClientControl * Worker * list Event :=
  match location w with
  | AtLoopTest =>
      let '(control, v) := decrementRequestsLeft control in
      if 0 <=? v then
        let w :=
          if PrimFloat.eqb (lastThinkTime w) (thinkTime control) then w
          else mkWorker (id w) (thinkTime control) (lastArrivalTime w) (location w) in
        (control, goto AtThink w, [Decrement (id w) v])
      else (control, goto Exited w, [Decrement (id w) v])
  | AtThink =>
      if PrimFloat.ltb 0%float (thinkTime control) then
        let '(control, w, interval) := thinkInterval control w env in
        if 0 <? signo env
        then (control, goto Exited w, [Wait (id w) interval])
        else (control, goto AtSend w, [Wait (id w) interval])
      else (control, goto AtSend w, [])
  | AtSend =>
      (control, goto (AtRecord (curlError env) (markers env) (elapsed env)) w,
       [Send (id w)])
  | AtRecord error optionalStuff lastLatency =>
      (recordResult error optionalStuff lastLatency control, goto AtLoopTest w, [])
  | Exited => (control, w, [])
  end.

(** The pool: the control structure, the threads by position in
    [httpClientThreads], and the events so far, newest first. *)
Record System : Type := mkSystem {
  shared : HttpClientControl;
  pool : list Worker;
  trace : list Event
}.

Fixpoint replace (i : nat) (w : Worker) (l : list Worker) : list Worker :=
  match l, i with
  | [], _ => []
  | _ :: l', O => w :: l'
  | x :: l', S j => x :: replace j w l'
  end.

(** The thread at position [i] takes one step. *)
Definition step (s : System) (move : nat * Environment) : System :=
  match nth_error (pool s) (fst move) with
  | None => s
  | Some w =>
      let '(control, w', events) := httpClientMain (snd move) (shared s) w in
      mkSystem control (replace (fst move) w' (pool s)) (events ++ trace s)
  end.

(** An interleaving of the threads. *)
Definition run (schedule : list (nat * Environment)) (s : System) : System :=
  fold_left step schedule s.

(** Lines 137-143 and 376-380: the threads as [main] starts them, thread
    [i] reading [started i] from the clock. *)
Definition startWorker (control : HttpClientControl) (started : nat -> double)
  (i : nat) : Worker :=
  mkWorker (Z.of_nat i) (thinkTime control) (started i) AtLoopTest.

Definition start (control : HttpClientControl) (started : nat -> double) : System :=
  mkSystem control
    (map (startWorker control started) (seq 0 (Z.to_nat (concurrency control))))
    [].

Definition is_Send (e : Event) : bool :=
  match e with Send _ => true | _ => false end.

(** The number of requests sent so far. *)
Definition requestsSent (s : System) : Z :=
  Z.of_nat (List.length (filter is_Send (trace s))).

Definition has_exited (w : Worker) : bool :=
  match location w with Exited => true | _ => false end.

(** Every thread has left its loop. *)
Definition allExited (s : System) : bool := forallb has_exited (pool s).

(** No [SIGUSR2] is delivered during the schedule. *)
Definition uncancelled (schedule : list (nat * Environment)) : Prop :=
  Forall (fun move => signo (snd move) <= 0) schedule.

Definition event_worker (e : Event) : Z :=
  match e with
  | Decrement w _ => w
  | Wait w _ => w
  | Send w => w
  end.

(** The latest event of worker [w] that is not a [Wait], in a trace
    that starts with its newest event. *)
Fixpoint lastAction (w : Z) (newest_first : list Event) : option Event :=
  match newest_first with
  | [] => None
  | Wait _ _ :: older => lastAction w older
  | e :: older => if event_worker e =? w then Some e else lastAction w older
  end.


(** Every [Send] of the trace has, as the latest earlier action of its
    worker, a [Decrement] whose result was not negative. *)
Fixpoint sendsFollowDecrements (newest_first : list Event) : bool :=
  match newest_first with
  | [] => true
  | Send w :: older =>
      match lastAction w older with
      | Some (Decrement _ r) => 0 <=? r
      | _ => false
      end && sendsFollowDecrements older
  | _ :: older => sendsFollowDecrements older
  end.

(** The worker has passed the loop test and not sent yet. *)
Definition in_flight (w : Worker) : Z :=
  match location w with AtThink | AtSend => 1 | _ => 0 end.

Definition exited (w : Worker) : Z :=
  match location w with Exited => 1 | _ => 0 end.

(** The sum of [f] over the threads. *)
Fixpoint tally (f : Worker -> Z) (l : list Worker) : Z :=
  match l with
  | [] => 0
  | w :: l' => f w + tally f l'
  end.

(** What holds of the pool while no thread is cancelled, [budget] being
    the configured number of requests: the counter is the budget less
    the decrements made, no more than [budget] decrements gave a value
    that was not negative, a thread leaves only once that many have; the
    thread at position [i] has id [i], and the latest action of a thread
    in flight is its decrement. *)
Definition budgetInvariant (budget : Z) (s : System) : Prop :=
  let sent := requestsSent s in
  let flying := tally in_flight (pool s) in
  let gone := tally exited (pool s) in
  numRequestsLeft (shared s) = budget - sent - flying - gone
  /\ sent + flying <= budget
  /\ (0 < gone -> sent + flying = budget)
  /\ (forall i w, nth_error (pool s) i = Some w -> id w = Z.of_nat i)
  /\ (forall i w, nth_error (pool s) i = Some w -> in_flight w = 1 ->
        exists r, lastAction (id w) (trace s) = Some (Decrement (id w) r)
                  /\ 0 <= r)
  /\ sendsFollowDecrements (trace s) = true.

(** ** The reconfiguration input (lines 254-309) *)

(** What [processInput] writes to [stderr] (timestamps left out). *)
Inductive LogLine : Type :=
| CannotParse (token : string)         (* "cannot parse key-value '%s'" *)
| SetThinktime (value : double)        (* "set thinktime=%f" *)
| SetConcurrency (value : Z)           (* "set concurrency=%d" *)
| SetOpen (value : bool)               (* "set open=%d" *)
| UnknownKey (key : string).           (* "unknown key '%s'" *)

Definition newline : ascii := "010"%char.

(** [is_any_of(set)]. *)
Definition is_any_of (set : string) (c : ascii) : bool :=
  existsb (Ascii.eqb c) (list_ascii_of_string set).

(** [boost::algorithm::split(result, s, pred, token_compress_on)]: the
    tokens are the stretches of [s] between maximal runs of separators;
    a separator at either end of [s] leaves an empty token there, and
    the empty string has one empty token.  [after_separator] tells that
    the previous character was a separator. *)
Fixpoint split_from (pred : ascii -> bool) (after_separator : bool) (s : string)
  : list string :=
  match s with
  | EmptyString => [EmptyString]
  | String c s' =>
      if pred c then
        if after_separator then split_from pred true s'
        else EmptyString :: split_from pred true s'
      else
        match split_from pred false s' with
        | token :: rest => String c token :: rest
        | [] => [String c EmptyString]
        end
  end.

Definition split (pred : ascii -> bool) (s : string) : list string :=
  split_from pred false s.

(** [s.find_first_of(c, pos)]; [None] is [std::string::npos]. *)
Fixpoint find_first_of (s : string) (c : ascii) (pos : nat) : option nat :=
  match s with
  | EmptyString => None
  | String x s' =>
      match pos with
      | O => if Ascii.eqb x c then Some O else option_map S (find_first_of s' c O)
      | S p => option_map S (find_first_of s' c p)
      end
  end.

(** [s.substr(0, n)]. *)
Fixpoint substr0 (s : string) (n : nat) : string :=
  match n, s with
  | S m, String x s' => String x (substr0 s' m)
  | _, _ => EmptyString
  end.

(** [s.erase(0, n)]. *)
Fixpoint erase0 (s : string) (n : nat) : string :=
  match n, s with
  | S m, String _ s' => erase0 s' m
  | _, _ => s
  end.

(** [atoi] of the C library: white space, an optional sign, then the
    decimal digits up to the first other character.  (C leaves a value
    outside [int] undefined; here it wraps.) *)
Definition is_space (c : ascii) : bool :=
  let n := nat_of_ascii c in
  (Nat.eqb n 32 || (Nat.leb 9 n && Nat.leb n 13))%bool.

Definition digit_of (c : ascii) : option Z :=
  let n := Z.of_nat (nat_of_ascii c) in
  if (48 <=? n) && (n <=? 57) then Some (n - 48) else None.

Fixpoint atoi_digits (s : string) (acc : Z) : Z :=
  match s with
  | EmptyString => acc
  | String c s' =>
      match digit_of c with
      | Some d => atoi_digits s' (10 * acc + d)
      | None => acc
      end
  end.

Fixpoint atoi_signed (s : string) : Z :=
  match s with
  | EmptyString => 0
  | String c s' =>
      if is_space c then atoi_signed s'
      else if Ascii.eqb c "-" then - atoi_digits s' 0
      else if Ascii.eqb c "+" then atoi_digits s' 0
      else atoi_digits s 0
  end.

Definition atoi (s : string) : Z := to_int (atoi_signed s).

Section ProcessInput.

(** [atof] of the C library is not part of the program: the parser is
    read for any [atof]. *)
Variable atof : string -> double.

Definition Reconfiguration : Type := (HttpClientControl * list LogLine)%type.

(** Lines 284-306: one token of a line. *)
Definition parseKeyValue (st : Reconfiguration) (token : string) : Reconfiguration :=
  let '(control, log) := st in
  let keyvalue := split (is_any_of "=") token in
  if negb (Nat.eqb (List.length keyvalue) 2) then
    (control, log ++ [CannotParse token])   (* [continue]: next input token *)
  else
    let key := nth 0 keyvalue EmptyString in
    let value := nth 1 keyvalue EmptyString in
    if String.eqb key "thinktime" then
      let control := set_thinkTime (atof value) control in
      (control, log ++ [SetThinktime (thinkTime control)])
    else if String.eqb key "concurrency" then
      let control := set_concurrency (atoi value) control in
      (control, log ++ [SetConcurrency (concurrency control)])
    else if String.eqb key "open" then
      let control := set_open (negb (atoi value =? 0)) control in
      (control, log ++ [SetOpen (open control)])
    else (control, log ++ [UnknownKey key]).

(** Lines 277-307: one line, tokenized on blanks and newlines. *)
Definition parseLine (st : Reconfiguration) (line : string) : Reconfiguration :=
  fold_left parseKeyValue (split (is_any_of (String " " (String newline EmptyString))) line) st.

(** Lines 268-308: the loop over the lines of [input].  Every round
    erases at least one character, so [String.length input] rounds are
    enough; [None] tells that [fuel] ran out first. *)
Fixpoint parseLines (fuel : nat) (prevInputSize : nat) (input : string)
  (st : Reconfiguration) : option (string * Reconfiguration) :=
  match find_first_of input newline prevInputSize with
  | None => Some (input, st)
  | Some newlineFound =>
      match fuel with
      | O => None
      | S fuel' =>
          let line := substr0 input newlineFound in
          let input := erase0 input (newlineFound + 1) in
          parseLines fuel' prevInputSize input (parseLine st line)
      end
  end.

(** [processInput(input, control)]; [arrived] is what the [read] loop of
    lines 262-263 finds on the standard input. *)
Definition processInput (input : string) (control : HttpClientControl)
  (arrived : string) : option (string * Reconfiguration) :=
  let prevInputSize := String.length input in
  let input := (input ++ arrived)%string in
  if Nat.eqb (String.length input) prevInputSize then Some (input, (control, []))
  else parseLines (String.length input) prevInputSize input (control, []).

End ProcessInput.

(** ** The pool reconciliation of [main] (lines 413-421) *)

Inductive Outcome (A : Type) : Type :=
| Returns (a : A)
| Undefined (what : string)     (* the program leaves defined behaviour *)
| OutOfFuel.

Arguments Returns {A} a.
Arguments Undefined {A} what.
Arguments OutOfFuel {A}.

(** The thread vector [httpClientThreads] holds the ids the threads were
    started with; [signalled] collects the threads sent [SIGUSR2] and
    detached, oldest first. *)
Record Pool : Type := mkPool {
  httpClientThreads : list Z;
  signalled : list Z
}.

(** [(int)httpClientThreads.size()]. *)
Definition poolSize (p : Pool) : Z :=
  to_int (to_size_t (Z.of_nat (List.length (httpClientThreads p)))).

(** Lines 414-415. *)
Fixpoint growPool (fuel : nat) (concurrency_ : Z) (p : Pool) : Outcome Pool :=
  if poolSize p <? concurrency_ then
    match fuel with
    | O => OutOfFuel
    | S fuel' =>
        growPool fuel' concurrency_
          (mkPool (httpClientThreads p ++ [poolSize p]) (signalled p))
    end
  else Returns p.

(** Lines 417-421.  [back()] and [pop_back()] of an empty vector are
    undefined. *)
Fixpoint shrinkPool (fuel : nat) (concurrency_ : Z) (p : Pool) : Outcome Pool :=
  if concurrency_ <? poolSize p then
    match fuel with
    | O => OutOfFuel
    | S fuel' =>
        match rev (httpClientThreads p) with
        | [] => Undefined "httpClientThreads.back() on an empty vector"
        | back :: _ =>
            shrinkPool fuel' concurrency_
              (mkPool (removelast (httpClientThreads p)) (signalled p ++ [back]))
        end
    end
  else Returns p.

(** Both loops, with fuel for as many rounds as they can take. *)
Definition reconcile (concurrency_ : Z) (p : Pool) : Outcome Pool :=
  match growPool (Z.to_nat (concurrency_ - poolSize p)) concurrency_ p with
  | Returns p' => shrinkPool (S (List.length (httpClientThreads p'))) concurrency_ p'
  | Undefined what => Undefined what
  | OutOfFuel => OutOfFuel
  end.

(** Lines 410-421: one round of the loop of [main] after the timed wait:
    the report, the reconfiguration input, then the reconciliation. *)
Definition mainRound (atof : string -> double) (control : HttpClientControl)
  (lastReportTime : double) (totalRequests : Z) (prevInput : string) (p : Pool)
  (t_now : double) (arrived : string)
  : Outcome (HttpClientControl * double * Z * string * Pool) :=
  let '(control, lastReportTime, totalRequests, _) :=
    report control lastReportTime totalRequests t_now in
  match processInput atof prevInput control arrived with
  | None => OutOfFuel
  | Some (prevInput, (control, _)) =>
      match reconcile (concurrency control) p with
      | Returns p => Returns (control, lastReportTime, totalRequests, prevInput, p)
      | Undefined what => Undefined what
      | OutOfFuel => OutOfFuel
      end
  end.


(** ** The life of the control structure

    Everything that writes to the control structure after [main] has
    filled it in: a step of some worker thread, a report, and a reading
    of the reconfiguration input. *)

Inductive Action : Type :=
| WorkerStep (env : Environment) (w : Worker)
| Report (lastReportTime : double) (totalRequests : Z) (t_now : double)
| Input (atof : string -> double) (prevInput arrived : string).

Definition act (control : HttpClientControl) (a : Action) : HttpClientControl :=
  match a with
  | WorkerStep env w => fst (fst (httpClientMain env control w))
  | Report lastReportTime totalRequests t_now =>
      fst (fst (fst (report control lastReportTime totalRequests t_now)))
  | Input atof prevInput arrived =>
      match processInput atof prevInput control arrived with
      | Some (_, (control', _)) => control'
      | None => control
      end
  end.

(** The action appends a sample: it is a worker leaving the block under
    the mutex. *)
Definition appends_sample (a : Action) : bool :=
  match a with
  | WorkerStep _ w =>
      match location w with AtRecord _ _ _ => true | _ => false end
  | _ => false
  end.

(** The fields the mutex protects. *)
Definition statistics (control : HttpClientControl) : Z * Z * Z * vector double :=
  (numErrors control, numOptionalStuff1 control, numOptionalStuff2 control,
   latencies control).

(** ** Auxiliary notions of the properties below *)

(** [x <= y] between ordinary values. *)
Definition ordered_by {T : Type} {V : ValueType T} (ordinary : T -> Prop)
  (x y : T) : Prop :=
  ordinary x /\ ordinary y /\ v_le x y.

(** The samples 100, 200, 300 and 400 ms as the workers record them, in
    seconds. *)
Definition samples_in_seconds : vector double :=
  map (fun ms => PrimFloat.div ms 1000%float) [100; 200; 300; 400]%float.

(** The line [report] prints, from the statistics found under the lock. *)
Definition reportLine (control : HttpClientControl) (lastReportTime : double)
  (totalRequests : Z) (t_now : double) : ReportLine :=
  let a := latencies control in
  let n := to_size_t (size a) in
  let latencyQuartiles := snd (quartiles a) in
  let sorted := fst (quartiles a) in
  let latencyPercentiles := snd (percentiles sorted) in
  [ (""%string, [ArgDouble (Some t_now)]);
    ("latency"%string,
      [ArgDouble (times 1000%float (at_ latencyQuartiles 0));
       ArgDouble (times 1000%float (at_ latencyQuartiles 1));
       ArgDouble (times 1000%float (at_ latencyQuartiles 2));
       ArgDouble (times 1000%float (at_ latencyQuartiles 3));
       ArgDouble (times 1000%float (at_ latencyQuartiles 4));
       ArgDouble (Some (PrimFloat.mul (average (fst (percentiles sorted)))
                          1000%float))]);
    ("latency95"%string, [ArgDouble (times 1000%float (at_ latencyPercentiles 0))]);
    ("latency99"%string, [ArgDouble (times 1000%float (at_ latencyPercentiles 1))]);
    ("throughput"%string,
      [ArgDouble (Some (PrimFloat.div (double_of_Z n)
                          (PrimFloat.sub t_now lastReportTime)))]);
    ("rr"%string,
      [ArgDouble (Some (PrimFloat.mul
         (PrimFloat.div (double_of_int (to_int (numOptionalStuff1 control)))
            (double_of_Z n)) 100%float))]);
    ("cr"%string,
      [ArgDouble (Some (PrimFloat.mul
         (PrimFloat.div (double_of_int (to_int (numOptionalStuff2 control)))
            (double_of_Z n)) 100%float))]);
    ("errors"%string, [ArgInt (to_int (numErrors control))]);
    ("total"%string,
      [ArgInt (to_int (to_size_t (to_size_t totalRequests + n)))]);
    ("openqueuing"%string, [ArgInt (to_int (numOpenQueuing control))]) ].

(** When no sample is waiting, no error and no marker is counted. *)
Definition counted (control : HttpClientControl) : Prop :=
  latencies control = [] ->
  numErrors control = 0 /\ numOptionalStuff1 control = 0
  /\ numOptionalStuff2 control = 0.

(** The actions between two reports append no sample. *)
Definition quiet (between : list Action) : Prop :=
  Forall (fun a => appends_sample a = false) between.

(** The lines of [lines], each ended by a newline. *)
Fixpoint unlines (lines : list string) : string :=
  match lines with
  | [] => EmptyString
  | l :: rest => String.append l (String newline (unlines rest))
  end.

(** No newline occurs in [s]. *)
Definition one_line (s : string) : Prop := find_first_of s newline 0 = None.

(** A schedule that spends the budget: the first thread sends [n]
    requests, one after the other, then each of the [c] threads runs
    into the loop test.  Nothing is signalled and nothing fails. *)
Definition calm : Environment :=
  mkEnvironment 0%float 0%float 0 false 0 0%float.

Definition oneRequest (i : nat) : list (nat * Environment) :=
  [(i, calm); (i, calm); (i, calm); (i, calm)].

Fixpoint requests (n : nat) : list (nat * Environment) :=
  match n with
  | O => []
  | S m => oneRequest 0 ++ requests m
  end.

Definition leave (from c : nat) : list (nat * Environment) :=
  map (fun i => (i, calm)) (seq from c).

Definition exhausting (n c : nat) : list (nat * Environment) :=
  requests n ++ leave 0 c.

(** The counter is [k]; of the threads, the one at position [i] is at
    [l], those before position [e] have left, the others are at the
    loop test. *)
Definition poised (k : Z) (e i : nat) (l : Location) (s : System) : Prop :=
  numRequestsLeft (shared s) = k
  /\ forall j w, nth_error (pool s) j = Some w ->
       location w = (if Nat.eqb j i then l
                     else if Nat.ltb j e then Exited else AtLoopTest).

(** ** The response classifier (lines 107-116) *)

Definition OptionalStuffMarker1 : Z := 128.
Definition OptionalStuffMarker2 : Z := 129.

(** [memchr(ptr, c, n) != NULL]: the byte [(unsigned char)c] occurs
    among the first [n] bytes at [ptr]; a byte is a number from 0 to
    255. *)
Definition memchr_found (ptr : list Z) (c n : Z) : bool :=
  existsb (Z.eqb (c mod 256)) (firstn (Z.to_nat n) ptr).

(** [nullWriter(ptr, size, nmemb, userdata)]: the flags behind
    [userdata] are passed in and returned with the result.  ([|=] with 1
    or 2 keeps a [uint32_t] in range.) *)
Definition nullWriter (ptr : list Z) (size_ nmemb : Z) (optionalStuff : Z)
  : Z * Z :=
  let n := to_size_t (size_ * nmemb) in
  let optionalStuff :=
    if memchr_found ptr OptionalStuffMarker1 n
    then Z.lor optionalStuff OPTIONAL_STUFF1 else optionalStuff in
  let optionalStuff :=
    if memchr_found ptr OptionalStuffMarker2 n
    then Z.lor optionalStuff OPTIONAL_STUFF2 else optionalStuff in
  (n, optionalStuff).

(** Lines 178-179: [optionalStuff = 0], then [curl_easy_perform], which
    hands the body to the write callback piece by piece, each piece
    with [size] 1 and [nmemb] its length. *)
Definition receiveBody (pieces : list (list Z)) : Z :=
  fold_left
    (fun optionalStuff piece =>
       snd (nullWriter piece 1 (Z.of_nat (List.length piece)) optionalStuff))
    pieces 0.

(** The flags of a body that holds the given markers. *)
Definition flagsOf (body : list Z) : Z :=
  Z.lor (if existsb (Z.eqb OptionalStuffMarker1) body then OPTIONAL_STUFF1 else 0)
        (if existsb (Z.eqb OptionalStuffMarker2) body then OPTIONAL_STUFF2 else 0).

(** ** The loop of [main] (lines 398-441) *)

Definition set_running (x : bool) (c : HttpClientControl) : HttpClientControl :=
  mkControl (url c) (timeout c) (thinkTime c) x (numErrors c)
    (numOptionalStuff1 c) (numOptionalStuff2 c) (latencies c) (concurrency c)
    (open c) (numOpenQueuing c) (numRequestsLeft c).

(** The variables of [main] that outlive a round of its loop. *)
Record MainState : Type := mkMain {
  mainControl : HttpClientControl;
  lastReportTime_ : double;
  totalRequests_ : Z;
  prevInput_ : string;
  mainPool : Pool
}.

(** What happens while [main] is in its loop: a worker thread takes a
    step, or the timed wait of [main] ends with [signo_], the clock
    then reading [t_now] and [arrived] waiting on the standard input. *)
Inductive Happening : Type :=
| WorkerMoves (env : Environment) (w : Worker)
| MainWakes (signo_ : Z) (t_now : double) (arrived : string).

(** Lines 403-422: the loop test and one round.  When the test fails
    the loop has been left and the state stays as it is. *)
Definition mainLoopRound (atof : string -> double) (st : MainState)
  (signo_ : Z) (t_now : double) (arrived : string) : Outcome MainState :=
  let control := mainControl st in
  if running control && (0 <? numRequestsLeft control) then
    let control := if 0 <? signo_ then set_running false control else control in
    match mainRound atof control (lastReportTime_ st) (totalRequests_ st)
            (prevInput_ st) (mainPool st) t_now arrived with
    | Returns (control, lastReportTime, totalRequests, prevInput, p) =>
        Returns (mkMain control lastReportTime totalRequests prevInput p)
    | Undefined what => Undefined what
    | OutOfFuel => OutOfFuel
    end
  else Returns st.

Definition happen (atof : string -> double) (o : Outcome MainState)
  (h : Happening) : Outcome MainState :=
  match o with
  | Returns st =>
      match h with
      | WorkerMoves env w =>
          Returns (mkMain (fst (fst (httpClientMain env (mainControl st) w)))
                     (lastReportTime_ st) (totalRequests_ st) (prevInput_ st)
                     (mainPool st))
      | MainWakes signo_ t_now arrived => mainLoopRound atof st signo_ t_now arrived
      end
  | Undefined what => Undefined what
  | OutOfFuel => OutOfFuel
  end.

(** Lines 430-441: the threads still in the vector are signalled when
    requests are left, all are joined, and the final report is printed. *)
Definition mainCleanup (st : MainState) (t_now : double)
  : MainState * ReportLine :=
  let p := mainPool st in
  let p :=
    if 0 <? numRequestsLeft (mainControl st)
    then mkPool (httpClientThreads p) (signalled p ++ httpClientThreads p)
    else p in
  let '(control, lastReportTime, totalRequests, line) :=
    report (mainControl st) (lastReportTime_ st) (totalRequests_ st) t_now in
  (mkMain control lastReportTime totalRequests (prevInput_ st) p, line).

(** The state [main] enters its loop with (lines 400-402). *)
Definition mainStart (control : HttpClientControl) (t_now : double) : MainState :=
  mkMain control t_now 0 ""
    (mkPool (map Z.of_nat (seq 0 (Z.to_nat (concurrency control)))) []).

(** The number of samples the workers have appended. *)
Definition samplesRecorded (hs : list Happening) : Z :=
  Z.of_nat (List.length
    (filter (fun h => match h with
                      | WorkerMoves _ w =>
                          match location w with
                          | AtRecord _ _ _ => true
                          | _ => false
                          end
                      | MainWakes _ _ _ => false
                      end) hs)).

(** The results recorded since the last report, oldest first, starting
    from [pending]. *)
Fixpoint pendingResults (actions : list Action)
  (pending : list (bool * Z * double)) : list (bool * Z * double) :=
  match actions with
  | [] => pending
  | WorkerStep _ w :: rest =>
      match location w with
      | AtRecord error optionalStuff lastLatency =>
          pendingResults rest (pending ++ [(error, optionalStuff, lastLatency)])
      | _ => pendingResults rest pending
      end
  | Report _ _ _ :: rest => pendingResults rest []
  | Input _ _ _ :: rest => pendingResults rest pending
  end.

(** The number of results that satisfy [p], as a [uint32_t] counter
    holds it. *)
Definition counter32 (p : bool * Z * double -> bool)
  (results : list (bool * Z * double)) : Z :=
  to_uint32 (Z.of_nat (List.length (filter p results))).

(** The statistics that hold exactly the given results. *)
Definition summary (results : list (bool * Z * double))
  : Z * Z * Z * vector double :=
  (counter32 (fun r => fst (fst r)) results,
   counter32 (fun r => negb (Z.land (snd (fst r)) OPTIONAL_STUFF1 =? 0)) results,
   counter32 (fun r => negb (Z.land (snd (fst r)) OPTIONAL_STUFF2 =? 0)) results,
   map snd results).

(** ** Notions of the properties of the pool under signals *)

(** The worker has sent its request and not recorded the result yet. *)
Definition recording (w : Worker) : Z :=
  match location w with AtRecord _ _ _ => 1 | _ => 0 end.

(** What holds of the pool whatever signals arrive: the counter stays
    between minus the number of threads that have left and the budget,
    and the requests sent, those in flight and those still to be
    claimed never exceed the budget. *)
Definition capInvariant (budget : Z) (s : System) : Prop :=
  let sent := requestsSent s in
  let flying := tally in_flight (pool s) in
  let gone := tally exited (pool s) in
  - gone <= numRequestsLeft (shared s) <= budget
  /\ sent + flying + Z.max 0 (numRequestsLeft (shared s)) <= budget.

(** The same step with no signal pending. *)
Definition withoutSignal (move : nat * Environment) : nat * Environment :=
  let env := snd move in
  (fst move,
   mkEnvironment (waitSample env) (clock env) 0 (curlError env) (markers env)
     (elapsed env)).

(** The ids [from], [from + 1], ... of [n] threads started one after the
    other. *)
Definition threadIds (from n : nat) : list Z := map Z.of_nat (seq from n).

(** ** Notions of the properties of the tokens *)

(** No character of [s] satisfies [pred]. *)
Definition free_of (pred : ascii -> bool) (s : string) : Prop :=
  Forall (fun c => pred c = false) (list_ascii_of_string s).

(** [n] equal signs. *)
Fixpoint equalSigns (n : nat) : string :=
  match n with
  | O => EmptyString
  | S m => String "=" (equalSigns m)
  end.

(** [s] does not start as a number does for [atoi]: it is empty, or its
    first character is no white space, no sign and no digit. *)
Definition unreadable (s : string) : Prop :=
  match s with
  | EmptyString => True
  | String c _ =>
      is_space c = false /\ Ascii.eqb c "-" = false /\ Ascii.eqb c "+" = false
      /\ digit_of c = None
  end.

(** * Properties *)

(** ** Machine integers *)

Lemma to_int_id (z : Z) : INT_MIN <= z <= INT_MAX -> to_int z = z.
Proof.
  unfold to_int, INT_MIN, INT_MAX; intros Hz.
  rewrite Z.mod_small; lia.
Qed.

Lemma to_int_range (z : Z) : INT_MIN <= to_int z <= INT_MAX.
Proof.
  unfold to_int, INT_MIN, INT_MAX.
  pose proof (Z.mod_pos_bound (z + 2^31) (2^32) ltac:(lia)); lia.
Qed.

Lemma to_uint32_id (z : Z) : 0 <= z < 2^32 -> to_uint32 z = z.
Proof. unfold to_uint32; intros; now apply Z.mod_small. Qed.

Lemma to_size_t_id (z : Z) : 0 <= z < 2^64 -> to_size_t z = z.
Proof. unfold to_size_t; intros; now apply Z.mod_small. Qed.

Lemma to_int_to_size_t (z : Z) : to_int (to_size_t z) = to_int z.
Proof.
  unfold to_int, to_size_t.
  f_equal.
  rewrite (Z.mod_eq z (2^64)) by lia.
  replace (z - 2^64 * (z / 2^64) + 2^31)
    with (z + 2^31 + (- (2^32 * (z / 2^64))) * 2^32) by lia.
  apply Z_mod_plus_full.
Qed.

(** ** Reading a vector and taking the median of a slice *)

Section StatisticsFacts.

Context {T : Type} {V : ValueType T}.

Lemma size_nonneg (a : vector T) : 0 <= size a.
Proof. unfold size; lia. Qed.

Lemma deref_in_range (a : vector T) (k : nat) :
  (k < List.length a)%nat -> deref a (Z.of_nat k) = nth_error a k.
Proof.
  intros Hk; unfold deref, size.
  replace (0 <=? Z.of_nat k) with true by (symmetry; apply Z.leb_le; lia).
  replace (Z.of_nat k <? Z.of_nat (List.length a)) with true
    by (symmetry; apply Z.ltb_lt; lia).
  now rewrite Nat2Z.id.
Qed.

Lemma deref_out_of_range (a : vector T) (k : Z) :
  k < 0 \/ size a <= k -> deref a k = None.
Proof.
  intros Hk; unfold deref.
  destruct (0 <=? k) eqn:H0; [|reflexivity].
  destruct (k <? size a) eqn:H1; [|reflexivity].
  apply Z.leb_le in H0; apply Z.ltb_lt in H1; lia.
Qed.

Lemma deref_defined (a : vector T) (k : Z) :
  0 <= k < size a -> exists x, deref a k = Some x /\ nth_error a (Z.to_nat k) = Some x.
Proof.
  intros Hk.
  destruct (nth_error a (Z.to_nat k)) as [x|] eqn:E.
  - exists x; split; [|reflexivity].
    rewrite <- (Z2Nat.id k) by lia.
    rewrite deref_in_range; [assumption|].
    unfold size in Hk; lia.
  - apply nth_error_None in E. unfold size in Hk; lia.
Qed.

Lemma nth_error_slice (a : vector T) (b e i : nat) :
  (i < e - b)%nat -> nth_error (slice a b e) i = nth_error a (b + i).
Proof.
  intros Hi; unfold slice.
  rewrite nth_error_firstn.
  replace (i <? e - b)%nat with true by (symmetry; apply Nat.ltb_lt; lia).
  apply nth_error_skipn.
Qed.

Lemma length_slice (a : vector T) (b e : nat) :
  (b <= e <= List.length a)%nat -> List.length (slice a b e) = (e - b)%nat.
Proof.
  intros H; unfold slice.
  rewrite length_firstn, length_skipn; lia.
Qed.

(** On a slice that lies in the vector and is not empty, [median] reads
    the middle element when the length is odd and the two middle
    elements when it is even. *)
Lemma median_odd (a : vector T) (b e : Z) :
  0 <= b -> b < e -> e <= size a -> size a <= INT_MAX ->
  (e - b) mod 2 = 1 ->
  median a b e = deref a (b + (e - b) / 2).
Proof.
  intros Hb Hbe He Hmax Hodd; unfold median.
  unfold INT_MAX in Hmax.
  rewrite to_int_id by (unfold INT_MIN, INT_MAX; lia).
  rewrite Z.rem_mod_nonneg, Z.quot_div_nonneg by lia.
  replace ((e - b - 1) mod 2) with 0
    by (pose proof (Z.div_mod (e - b) 2 ltac:(lia));
        pose proof (Z.div_mod (e - b - 1) 2 ltac:(lia));
        pose proof (Z.mod_pos_bound (e - b - 1) 2 ltac:(lia)); lia).
  simpl. do 2 f_equal.
  pose proof (Z.div_mod (e - b) 2 ltac:(lia)).
  pose proof (Z.div_mod (e - b - 1) 2 ltac:(lia)).
  pose proof (Z.mod_pos_bound (e - b - 1) 2 ltac:(lia)). lia.
Qed.

Lemma median_even (a : vector T) (b e : Z) :
  0 <= b -> b < e -> e <= size a -> size a <= INT_MAX ->
  (e - b) mod 2 = 0 ->
  median a b e =
  lift2 v_div
    (lift2 v_add (deref a (b + (e - b) / 2 - 1)) (deref a (b + (e - b) / 2)))
    (Some (v_of_int 2)).
Proof.
  intros Hb Hbe He Hmax Heven; unfold median.
  unfold INT_MAX in Hmax.
  rewrite to_int_id by (unfold INT_MIN, INT_MAX; lia).
  rewrite Z.rem_mod_nonneg, Z.quot_div_nonneg by lia.
  pose proof (Z.div_mod (e - b) 2 ltac:(lia)) as H1.
  pose proof (Z.div_mod (e - b - 1) 2 ltac:(lia)) as H2.
  pose proof (Z.mod_pos_bound (e - b - 1) 2 ltac:(lia)) as H3.
  replace ((e - b - 1) mod 2) with 1 by lia.
  simpl.
  replace (b + (e - b - 1) / 2 + 1) with (b + (e - b) / 2) by lia.
  replace (b + (e - b - 1) / 2) with (b + (e - b) / 2 - 1) by lia.
  reflexivity.
Qed.

Lemma even_length_mod (m : nat) :
  Nat.even m = true -> Z.of_nat m mod 2 = 0 /\ Z.of_nat m / 2 = Z.of_nat (m / 2).
Proof.
  intros H; apply Nat.even_spec in H; destruct H as [k ->].
  rewrite (Nat.mul_comm 2 k), Nat.div_mul by lia.
  rewrite Nat2Z.inj_mul; simpl Z.of_nat.
  now rewrite Z_mod_mult, Z_div_mult by lia.
Qed.

Lemma odd_length_mod (m : nat) :
  Nat.even m = false -> Z.of_nat m mod 2 = 1 /\ Z.of_nat m / 2 = Z.of_nat (m / 2).
Proof.
  intros H.
  assert (Ho : Nat.odd m = true) by (rewrite <- Nat.negb_even, H; reflexivity).
  apply Nat.odd_spec in Ho; destruct Ho as [k ->].
  replace ((2 * k + 1) / 2)%nat with k
    by (apply Nat.div_unique with 1%nat; lia).
  rewrite Nat2Z.inj_add, Nat2Z.inj_mul; simpl Z.of_nat.
  rewrite Z.add_comm, Z.mul_comm, Z_mod_plus_full, Z_div_plus_full by lia.
  split; reflexivity.
Qed.

(** [median] computes the median of the slice it is given, as the
    specification words it. *)
Lemma median_is_slice_median (a : vector T) (b e : nat) :
  (b < e <= List.length a)%nat -> size a <= INT_MAX ->
  median a (Z.of_nat b) (Z.of_nat e) = slice_median (slice a b e).
Proof.
  intros Hbe Hmax.
  assert (Hd : Z.of_nat e - Z.of_nat b = Z.of_nat (e - b)) by lia.
  unfold slice_median. rewrite length_slice by lia.
  destruct (Nat.even (e - b)) eqn:Hpar.
  - destruct (even_length_mod _ Hpar) as [Hm Hq].
    assert (1 <= (e - b) / 2)%nat.
    { apply Nat.even_spec in Hpar; destruct Hpar as [k Hk].
      rewrite Hk, (Nat.mul_comm 2 k), Nat.div_mul by lia. lia. }
    assert ((e - b) / 2 < e - b)%nat by (apply Nat.div_lt; lia).
    rewrite median_even
      by (try assumption; try (rewrite Hd; exact Hm); unfold size; lia).
    rewrite Hd, Hq.
    replace (Z.of_nat b + Z.of_nat ((e - b) / 2) - 1)
      with (Z.of_nat (b + ((e - b) / 2 - 1))) by lia.
    replace (Z.of_nat b + Z.of_nat ((e - b) / 2))
      with (Z.of_nat (b + (e - b) / 2)) by lia.
    rewrite !deref_in_range by lia.
    rewrite !nth_error_slice by lia.
    reflexivity.
  - destruct (odd_length_mod _ Hpar) as [Hm Hq].
    assert ((e - b) / 2 < e - b)%nat by (apply Nat.div_lt; lia).
    rewrite median_odd
      by (try assumption; try (rewrite Hd; exact Hm); unfold size; lia).
    rewrite Hd, Hq.
    replace (Z.of_nat b + Z.of_nat ((e - b) / 2))
      with (Z.of_nat (b + (e - b) / 2)) by lia.
    rewrite deref_in_range by lia.
    rewrite nth_error_slice by lia.
    reflexivity.
Qed.

Lemma length_insert (x : T) (l : vector T) :
  List.length (insert x l) = S (List.length l).
Proof.
  induction l as [|y l IH]; simpl; [reflexivity|].
  destruct (v_lt y x); simpl; now rewrite ?IH.
Qed.

Lemma length_sort (a : vector T) : List.length (sort a) = List.length a.
Proof.
  induction a as [|x a IH]; simpl; [reflexivity|].
  now rewrite length_insert, IH.
Qed.

Lemma size_sort (a : vector T) : size (sort a) = size a.
Proof. unfold size; now rewrite length_sort. Qed.

Lemma slice_to_end (a : vector T) (b : nat) :
  slice a b (List.length a) = skipn b a.
Proof.
  unfold slice. apply firstn_all2. rewrite length_skipn; lia.
Qed.

(** The two values of [percentiles] are the medians of the suffixes of
    the sorted vector that start at [90 * n / 100] and [98 * n / 100]. *)
Lemma percentiles_suffix_medians (a : vector T) :
  (1 <= List.length a)%nat -> size a <= INT_MAX ->
  percentiles a =
  (sort a,
   [slice_median (skipn (90 * List.length a / 100) (sort a));
    slice_median (skipn (98 * List.length a / 100) (sort a))]).
Proof.
  intros Hn Hmax.
  assert (Hs : size a = Z.of_nat (List.length a)) by reflexivity.
  unfold INT_MAX in Hmax.
  unfold percentiles.
  rewrite (to_size_t_id (size a)) by lia.
  replace (size a <? 1) with false by (symmetry; apply Z.ltb_ge; lia).
  rewrite !to_size_t_id by lia.
  rewrite size_sort, Hs, !Z.add_0_l.
  replace (90 * Z.of_nat (List.length a) / 100)
    with (Z.of_nat (90 * List.length a / 100))
    by (rewrite Nat2Z.inj_div, Nat2Z.inj_mul; reflexivity).
  replace (98 * Z.of_nat (List.length a) / 100)
    with (Z.of_nat (98 * List.length a / 100))
    by (rewrite Nat2Z.inj_div, Nat2Z.inj_mul; reflexivity).
  assert (90 * List.length a / 100 < List.length a)%nat
    by (apply Nat.Div0.div_lt_upper_bound; lia).
  assert (98 * List.length a / 100 < List.length a)%nat
    by (apply Nat.Div0.div_lt_upper_bound; lia).
  rewrite !median_is_slice_median
    by (rewrite ?length_sort, ?size_sort; unfold INT_MAX; lia).
  rewrite <- (length_sort a) at 2 4.
  rewrite !slice_to_end.
  reflexivity.
Qed.

End StatisticsFacts.

(** ** The quartiles of concrete samples *)

(** C9. The quartile computation on the samples [100; 200; 300; 400]
    returns minimum 100, first quartile 150, median 250, third quartile
    350 and maximum 400; and when the four latencies are recorded in
    seconds, as the workers do, the report prints these five numbers of
    milliseconds. *)
Theorem quartiles_100_200_300_400 :
  snd (quartiles [100; 200; 300; 400]%float)
  = [Some 100; Some 150; Some 250; Some 350; Some 400]%float
  /\ forall control lastReportTime totalRequests t_now,
       latencies control = samples_in_seconds ->
       exists q0 q1 q2 q3 q4 avg,
         printed "latency"
           (snd (report control lastReportTime totalRequests t_now))
         = Some [q0; q1; q2; q3; q4; avg]
         /\ prints_as 100 q0 = true /\ prints_as 150 q1 = true
         /\ prints_as 250 q2 = true /\ prints_as 350 q3 = true
         /\ prints_as 400 q4 = true.
Proof.
  split.
  - vm_compute. reflexivity.
  - intros control lastReportTime totalRequests t_now Hl.
    unfold report, drain. rewrite Hl.
    do 6 eexists. split.
    + cbn [snd printed String.eqb Ascii.eqb Bool.eqb]. reflexivity.
    + repeat split; vm_compute; reflexivity.
Qed.

Lemma quartiles_100_200_300_400_witness :
  exists q0 q1 q2 q3 q4 avg,
    printed "latency"
      (snd (report (set_statistics 0 0 0 samples_in_seconds
                      (initialControl "" 1 0 0%float false 4))
              0%float 0 1%float))
    = Some [q0; q1; q2; q3; q4; avg]
    /\ prints_as 100 q0 = true /\ prints_as 150 q1 = true
    /\ prints_as 250 q2 = true /\ prints_as 350 q3 = true
    /\ prints_as 400 q4 = true.
Proof.
  apply (proj2 quartiles_100_200_300_400). reflexivity.
Defined.

(** ** A vector with a single sample *)

Section SingleSample.

Context {T : Type} {V : ValueType T}.

(** C10. On a vector of length exactly 1 the lower half handed to
    [median] is the empty range [0, 0): there [n] is 0, the test of
    [(n - 1) % 2] sends [median] to its two-element branch, which reads
    the offsets 0 and 1; offset 1 lies outside the vector, so the read
    gives nothing, the call has no value, and the first quartile is not
    given by any element of the vector, while the four other values are
    the sample. *)
Theorem median_of_empty_lower_half (x : T) :
  let a := [x] in
  let n := to_size_t (size a) in
  (0 + n / 2 = 0
   /\ to_int (0 - 0) = 0
   /\ Z.rem (0 - 1) 2 <> 0
   /\ 0 + Z.quot (0 - 1) 2 = 0
   /\ 0 + Z.quot (0 - 1) 2 + 1 = 1)
  /\ deref (sort a) 0 = Some x
  /\ deref (sort a) 1 = None
  /\ median (sort a) 0 (0 + n / 2) = None
  /\ snd (quartiles a) = [Some x; None; Some x; Some x; Some x].
Proof.
  intros a n.
  assert (Hn : n = 1) by reflexivity.
  assert (Hs : sort a = [x]) by reflexivity.
  rewrite Hn, Hs.
  split; [|split; [|split; [|split]]].
  - repeat split; try reflexivity. discriminate.
  - reflexivity.
  - apply deref_out_of_range. right. unfold size; simpl. lia.
  - unfold median.
    change (to_int (0 + 1 / 2 - 0)) with 0.
    change (Z.rem (0 - 1) 2 =? 0) with false.
    change (0 + Z.quot (0 - 1) 2 + 1) with 1.
    cbv iota.
    rewrite (deref_out_of_range [x] 1) by (right; unfold size; simpl; lia).
    destruct (deref [x] (0 + Z.quot (0 - 1) 2)); reflexivity.
  - reflexivity.
Qed.

End SingleSample.

(** C1, at the input where the code departs from it.  For the single
    latency 0.25 s the first quartile comes from a read past the end of
    the vector: [quartiles] gives no value for it, and the report line
    has no defined second number under [latency=], so that
    minimum <= first quartile <= median is not established by the
    code. *)
Theorem quartiles_single_sample_first_quartile_undefined :
  snd (quartiles [0.25%float])
  = [Some 0.25; None; Some 0.25; Some 0.25; Some 0.25]%float
  /\ forall control lastReportTime totalRequests t_now,
       printed "latency"
         (snd (report (set_statistics 0 0 0 [0.25%float] control)
                 lastReportTime totalRequests t_now))
       = Some [ArgDouble (Some 250%float); ArgDouble None;
               ArgDouble (Some 250%float); ArgDouble (Some 250%float);
               ArgDouble (Some 250%float); ArgDouble (Some 250%float)].
Proof.
  split.
  - unfold quartiles.
    change (to_size_t (size [0.25%float])) with 1.
    cbv iota. reflexivity.
  - intros. vm_compute. reflexivity.
Qed.

(** ** The order of the five quartile values *)

Section OrderedQuartiles.

Context {T : Type} {V : ValueType T} {ordinary : T -> Prop}.
Context {L : OrderLaws V ordinary}.

Local Abbreviation ordered := (ordered_by ordinary).

Lemma lt_irrefl (x : T) : ordinary x -> v_lt x x = false.
Proof.
  intros Hx. destruct (v_lt x x) eqn:E; [|reflexivity].
  pose proof (lt_asym x x Hx Hx E). congruence.
Qed.

Lemma ordered_refl (x : T) : ordinary x -> ordered x x.
Proof. intros Hx; repeat split; try assumption. now apply lt_irrefl. Qed.

Lemma ordered_trans (x y z : T) : ordered x y -> ordered y z -> ordered x z.
Proof.
  intros (Hx & Hy & Hxy) (_ & Hz & Hyz).
  repeat split; try assumption. now apply (le_trans x y z).
Qed.

Lemma ordered_mean (x y : T) :
  ordered x y -> ordered x (mean x y) /\ ordered (mean x y) y.
Proof.
  intros (Hx & Hy & Hxy).
  pose proof (mean_ordinary x y Hx Hy) as Hm.
  destruct (mean_between x y Hx Hy Hxy) as [H1 H2].
  split; repeat split; assumption.
Qed.

Lemma insert_Forall (P : T -> Prop) (x : T) (l : vector T) :
  P x -> Forall P l -> Forall P (insert x l).
Proof.
  intros Hx Hl. induction Hl as [|y l Hy Hl IH]; simpl.
  - constructor; [assumption | constructor].
  - destruct (v_lt y x); constructor; try assumption.
    constructor; assumption.
Qed.

Lemma insert_sorted (x : T) (l : vector T) :
  ordinary x -> Forall ordinary l ->
  StronglySorted ordered l -> StronglySorted ordered (insert x l).
Proof.
  intros Hx Hord Hs. induction Hs as [|y l Hs IH Hy]; simpl.
  - constructor; constructor.
  - inversion Hord as [|? ? Hoy Hol]; subst.
    destruct (v_lt y x) eqn:E.
    + constructor; [now apply IH|].
      apply insert_Forall; [|assumption].
      repeat split; try assumption. now apply lt_asym.
    + assert (Hxy : ordered x y) by (repeat split; assumption).
      constructor; [constructor; assumption|].
      constructor; [assumption|].
      eapply Forall_impl; [|exact Hy].
      intros z Hz. now apply ordered_trans with y.
Qed.

Lemma sort_sorted (a : vector T) :
  Forall ordinary a ->
  Forall ordinary (sort a) /\ StronglySorted ordered (sort a).
Proof.
  induction 1 as [|x a Hx Ha [IH1 IH2]]; simpl.
  - split; constructor.
  - split; [now apply insert_Forall | now apply insert_sorted].
Qed.

Lemma sorted_nth (s : vector T) :
  Forall ordinary s -> StronglySorted ordered s ->
  forall i j x y, (i <= j)%nat ->
    nth_error s i = Some x -> nth_error s j = Some y -> ordered x y.
Proof.
  intros Hord Hs. induction Hs as [|z s Hs IH Hz]; intros i j x y Hij Hi Hj.
  - destruct i; discriminate.
  - inversion Hord as [|? ? Hoz Hos]; subst.
    destruct i as [|i], j as [|j]; simpl in Hi, Hj.
    + injection Hi as <-; injection Hj as <-. now apply ordered_refl.
    + injection Hi as <-.
      rewrite Forall_forall in Hz. apply Hz. eapply nth_error_In; eassumption.
    + lia.
    + apply (IH Hos i j); [lia | assumption | assumption].
Qed.

(** Sorting a sorted vector leaves it as it is: the second
    [std::sort], in [percentiles], changes nothing. *)
Lemma sort_of_sorted (s : vector T) :
  StronglySorted ordered s -> sort s = s.
Proof.
  induction 1 as [|x s Hs IH Hx]; simpl; [reflexivity|].
  rewrite IH. destruct Hx as [|y s' Hxy _]; simpl; [reflexivity|].
  destruct Hxy as (_ & _ & Hle). unfold v_le in Hle. now rewrite Hle.
Qed.

Lemma sort_idempotent (a : vector T) :
  Forall ordinary a -> sort (sort a) = sort a.
Proof. intros Ha. apply sort_of_sorted. now apply sort_sorted. Qed.

(** The median of a non-empty slice of a sorted vector lies between
    the elements at the two middle positions of the slice. *)
Lemma median_between_middles (s : vector T) (b e : nat) :
  Forall ordinary s -> StronglySorted ordered s ->
  (b < e <= List.length s)%nat -> size s <= INT_MAX ->
  exists m lo hi,
    median s (Z.of_nat b) (Z.of_nat e) = Some m
    /\ nth_error s (b + (e - b - 1) / 2) = Some lo
    /\ nth_error s (b + (e - b) / 2) = Some hi
    /\ ordered lo m /\ ordered m hi.
Proof.
  intros Hord Hs Hbe Hmax.
  rewrite median_is_slice_median by assumption.
  unfold slice_median. rewrite length_slice by lia.
  assert (Hhalf : ((e - b) / 2 < e - b)%nat) by (apply Nat.div_lt; lia).
  destruct (nth_error s (b + (e - b) / 2)) as [hi|] eqn:Ehi;
    [|apply nth_error_None in Ehi; lia].
  destruct (Nat.even (e - b)) eqn:Hpar.
  - apply Nat.even_spec in Hpar. destruct Hpar as [k Hk].
    assert (Hq : ((e - b) / 2 = k)%nat)
      by (rewrite Hk, (Nat.mul_comm 2 k), Nat.div_mul; lia).
    assert (Hq' : ((e - b - 1) / 2 = k - 1)%nat)
      by (symmetry; apply Nat.div_unique with 1%nat; lia).
    rewrite Hq in *. rewrite Hq'.
    rewrite !nth_error_slice by lia.
    replace (b + (k - 1))%nat with (b + k - 1)%nat in * by lia.
    destruct (nth_error s (b + k - 1)) as [lo|] eqn:Elo;
      [|apply nth_error_None in Elo; lia].
    rewrite Ehi. simpl.
    assert (Hlh : ordered lo hi)
      by (apply (sorted_nth s Hord Hs (b + k - 1) (b + k)); (lia || assumption)).
    destruct (ordered_mean lo hi Hlh) as [H1 H2].
    exists (mean lo hi), lo, hi.
    repeat (split; [first [reflexivity | assumption]|]). assumption.
  - assert (Ho : Nat.odd (e - b) = true)
      by (rewrite <- Nat.negb_even, Hpar; reflexivity).
    apply Nat.odd_spec in Ho. destruct Ho as [k Hk].
    assert (Hq : ((e - b) / 2 = k)%nat)
      by (symmetry; apply Nat.div_unique with 1%nat; lia).
    assert (Hq' : ((e - b - 1) / 2 = k)%nat)
      by (symmetry; apply Nat.div_unique with 0%nat; lia).
    rewrite Hq in *. rewrite Hq'.
    rewrite nth_error_slice by lia.
    rewrite Ehi.
    assert (Hh : ordered hi hi).
    { apply ordered_refl. rewrite Forall_forall in Hord.
      apply Hord. eapply nth_error_In; eassumption. }
    exists hi, hi, hi.
    repeat (split; [first [reflexivity | assumption]|]). assumption.
Qed.

(** For two samples or more, all ordinary, the five values of
    [quartiles] are defined and ascend:
    minimum <= first quartile <= median <= third quartile <= maximum. *)
Theorem quartiles_ascend (a : vector T) :
  (2 <= List.length a)%nat -> size a <= INT_MAX -> Forall ordinary a ->
  exists q0 q1 q2 q3 q4,
    snd (quartiles a) = [Some q0; Some q1; Some q2; Some q3; Some q4]
    /\ v_le q0 q1 /\ v_le q1 q2 /\ v_le q2 q3 /\ v_le q3 q4.
Proof.
  intros Hn Hmax Hord.
  destruct (sort_sorted a Hord) as [Hso Hss].
  pose proof (length_sort a) as Hlen.
  pose proof (size_sort a) as Hsize.
  set (n := List.length a) in *.
  assert (Hs : size a = Z.of_nat n) by reflexivity.
  assert (Hmax' : size (sort a) <= INT_MAX) by (rewrite Hsize; assumption).
  unfold INT_MAX in Hmax.
  assert (Hh : (1 <= n / 2 < n)%nat).
  { split; [apply Nat.div_le_lower_bound; lia | apply Nat.div_lt; lia]. }
  unfold quartiles.
  rewrite (to_size_t_id (size a)) by lia.
  replace (size a <? 1) with false by (symmetry; apply Z.ltb_ge; lia).
  cbv zeta. rewrite Hsize, Hs, !Z.add_0_l.
  replace (Z.of_nat n / 2) with (Z.of_nat (n / 2))
    by (rewrite Nat2Z.inj_div; reflexivity).
  replace (Z.of_nat n - 1) with (Z.of_nat (n - 1)) by lia.
  change 0 with (Z.of_nat 0).
  rewrite !deref_in_range by lia.
  destruct (median_between_middles (sort a) 0 (n / 2) Hso Hss ltac:(lia) Hmax')
    as (q1 & lo1 & hi1 & -> & Hlo1 & Hhi1 & Hq1a & Hq1b).
  destruct (median_between_middles (sort a) 0 n Hso Hss ltac:(lia) Hmax')
    as (q2 & lo2 & hi2 & -> & Hlo2 & Hhi2 & Hq2a & Hq2b).
  destruct (median_between_middles (sort a) (n / 2) n Hso Hss ltac:(lia) Hmax')
    as (q3 & lo3 & hi3 & -> & Hlo3 & Hhi3 & Hq3a & Hq3b).
  destruct (nth_error (sort a) 0) as [q0|] eqn:E0;
    [|apply nth_error_None in E0; lia].
  destruct (nth_error (sort a) (n - 1)) as [q4|] eqn:E4;
    [|apply nth_error_None in E4; lia].
  exists q0, q1, q2, q3, q4. split; [reflexivity|].
  assert (Hd1 : ((n / 2 - 0 - 1) / 2 <= (n / 2 - 0) / 2)%nat)
    by (apply Nat.Div0.div_le_mono; lia).
  assert (Hd2 : ((n / 2 - 0) / 2 <= (n - 0 - 1) / 2)%nat)
    by (apply Nat.Div0.div_le_mono; lia).
  assert (Hd3 : ((n - 0) / 2 = n / 2)%nat) by (rewrite Nat.sub_0_r; reflexivity).
  assert (Hd4 : ((n - n / 2) / 2 < n - n / 2)%nat) by (apply Nat.div_lt; lia).
  assert (H01 : ordered q0 q1).
  { apply ordered_trans with lo1; [|assumption].
    apply (sorted_nth _ Hso Hss 0 (0 + (n / 2 - 0 - 1) / 2)); (lia || assumption). }
  assert (H12 : ordered q1 q2).
  { apply ordered_trans with hi1; [assumption|].
    apply ordered_trans with lo2; [|assumption].
    apply (sorted_nth _ Hso Hss (0 + (n / 2 - 0) / 2) (0 + (n - 0 - 1) / 2));
      (lia || assumption). }
  assert (H23 : ordered q2 q3).
  { apply ordered_trans with hi2; [assumption|].
    apply ordered_trans with lo3; [|assumption].
    apply (sorted_nth _ Hso Hss (0 + (n - 0) / 2) (n / 2 + (n - n / 2 - 1) / 2));
      (lia || assumption). }
  assert (H34 : ordered q3 q4).
  { apply ordered_trans with hi3; [assumption|].
    apply (sorted_nth _ Hso Hss (n / 2 + (n - n / 2) / 2) (n - 1));
      (lia || assumption). }
  repeat split; [apply H01 | apply H12 | apply H23 | apply H34].
Qed.

End OrderedQuartiles.

(** Exact arithmetic satisfies the order laws on the rationals. *)

Lemma exact_le_iff (p q : Q) :
  @v_le exact exact_ValueType (Some p) (Some q) <-> (p <= q)%Q.
Proof.
  unfold v_le; simpl. rewrite negb_false_iff. apply Qle_bool_iff.
Qed.

Lemma exact_mean (p q : Q) :
  @mean exact exact_ValueType (Some p) (Some q) = Some ((p + q) / inject_Z 2)%Q.
Proof. reflexivity. Qed.

#[export] Instance exact_OrderLaws : OrderLaws exact_ValueType is_rational.
Proof.
  split.
  - intros [p|] [q|] Hx Hy; try (now elim Hx); try (now elim Hy).
    simpl. rewrite negb_true_iff, negb_false_iff, Qle_bool_iff.
    intros H. apply Qlt_le_weak, Qnot_le_lt.
    intros Hle. apply Qle_bool_iff in Hle. congruence.
  - intros [p|] [q|] [r|] Hx Hy Hz; try (now elim Hx); try (now elim Hy);
      try (now elim Hz).
    rewrite !exact_le_iff. apply Qle_trans.
  - intros [p|] [q|] Hx Hy; try (now elim Hx); try (now elim Hy).
    rewrite exact_mean. discriminate.
  - intros [p|] [q|] Hx Hy; try (now elim Hx); try (now elim Hy).
    rewrite exact_mean, !exact_le_iff. intros Hpq.
    assert (H2 : (0 < inject_Z 2)%Q) by reflexivity.
    split.
    + apply Qle_shift_div_l; [assumption|].
      change (inject_Z 2) with 2%Q. lra.
    + apply Qle_shift_div_r; [assumption|].
      change (inject_Z 2) with 2%Q. lra.
Qed.

(** The order of the quartiles on three exact samples. *)
Lemma quartiles_ascend_witness :
  exists q0 q1 q2 q3 q4,
    snd (quartiles [Some 3%Q; Some 1%Q; Some 2%Q])
    = [Some q0; Some q1; Some q2; Some q3; Some q4]
    /\ v_le q0 q1 /\ v_le q1 q2 /\ v_le q2 q3 /\ v_le q3 q4.
Proof.
  apply (quartiles_ascend (ordinary := is_rational)).
  - simpl; lia.
  - unfold size, INT_MAX; simpl; lia.
  - repeat constructor; discriminate.
Defined.

(** ** The report *)

Lemma report_unfold (control : HttpClientControl) (lastReportTime : double)
  (totalRequests : Z) (t_now : double) :
  report control lastReportTime totalRequests t_now
  = (set_statistics 0 0 0 [] control, t_now,
     to_int (to_size_t (to_size_t totalRequests
                        + to_size_t (size (latencies control)))),
     reportLine control lastReportTime totalRequests t_now).
Proof.
  unfold report, reportLine, drain.
  destruct (quartiles (latencies control)) as [sorted qs].
  cbn [fst snd].
  destruct (percentiles sorted) as [sorted' ps].
  reflexivity.
Qed.

Lemma quartiles_sorts {T : Type} {V : ValueType T} (a : vector T) :
  (1 <= List.length a)%nat -> size a <= INT_MAX -> fst (quartiles a) = sort a.
Proof.
  intros Hn Hmax. unfold quartiles, INT_MAX in *.
  assert (Hs : size a = Z.of_nat (List.length a)) by reflexivity.
  rewrite to_size_t_id by lia.
  replace (size a <? 1) with false by (symmetry; apply Z.ltb_ge; lia).
  reflexivity.
Qed.

(** C6. For a non-empty sample sequence of length [n] (an [int] can
    hold [n]), let [s] be the sorted sequence [percentiles] works on:
    the vector that [quartiles] has sorted in place, sorted once more.
    The two tail statistics are the median of the suffix of [s] that
    starts at index [90 * n / 100] and the median of the suffix that
    starts at index [98 * n / 100]; the report prints them, in
    milliseconds, under the labels [latency95] and [latency99]. *)
Theorem tail_statistics_cutoffs (control : HttpClientControl)
  (lastReportTime : double) (totalRequests : Z) (t_now : double) :
  let a := latencies control in
  let n := List.length a in
  let s := sort (sort a) in
  (1 <= n)%nat -> size a <= INT_MAX ->
  fst (percentiles (fst (quartiles a))) = s
  /\ snd (percentiles (fst (quartiles a)))
     = [slice_median (skipn (90 * n / 100) s);
        slice_median (skipn (98 * n / 100) s)]
  /\ printed "latency95"
       (snd (report control lastReportTime totalRequests t_now))
     = Some [ArgDouble
               (times 1000%float (slice_median (skipn (90 * n / 100) s)))]
  /\ printed "latency99"
       (snd (report control lastReportTime totalRequests t_now))
     = Some [ArgDouble
               (times 1000%float (slice_median (skipn (98 * n / 100) s)))].
Proof.
  intros a n s Hn Hmax.
  assert (Hp : percentiles (fst (quartiles a))
               = (s, [slice_median (skipn (90 * n / 100) s);
                      slice_median (skipn (98 * n / 100) s)])).
  { rewrite quartiles_sorts by assumption.
    rewrite percentiles_suffix_medians
      by (rewrite ?length_sort, ?size_sort; assumption).
    rewrite length_sort. reflexivity. }
  rewrite report_unfold.
  unfold reportLine. fold a. rewrite Hp.
  repeat split; reflexivity.
Qed.

Lemma tail_statistics_cutoffs_witness :
  let control :=
    set_statistics 0 0 0
      [5; 1; 9; 3; 7; 2; 10; 4; 8; 6]%float
      (initialControl "" 1 0 0%float false 10) in
  printed "latency95" (snd (report control 0%float 0 1%float))
  = Some [ArgDouble (Some 10000%float)]
  /\ printed "latency99" (snd (report control 0%float 0 1%float))
     = Some [ArgDouble (Some 10000%float)].
Proof.
  intros control.
  destruct (tail_statistics_cutoffs control 0%float 0 1%float)
    as (_ & _ & H95 & H99).
  - simpl; lia.
  - unfold size, INT_MAX; simpl; lia.
  - split; [rewrite H95 | rewrite H99]; vm_compute; reflexivity.
Defined.

(** ** The statistics under the mutex *)

(** The reconfiguration input leaves the statistics alone. *)
Lemma statistics_parseKeyValue (atof : string -> double) (st : Reconfiguration)
  (token : string) :
  statistics (fst (parseKeyValue atof st token)) = statistics (fst st).
Proof.
  destruct st as [control log]. unfold parseKeyValue.
  destruct (negb _); [reflexivity|].
  repeat (destruct (String.eqb _ _); [reflexivity|]).
  reflexivity.
Qed.

Lemma statistics_parseLine (atof : string -> double) (line : string)
  (st : Reconfiguration) :
  statistics (fst (parseLine atof st line)) = statistics (fst st).
Proof.
  unfold parseLine.
  generalize (split (is_any_of (String " " (String newline EmptyString))) line).
  intros tokens; revert st.
  induction tokens as [|token tokens IH]; intros st; simpl; [reflexivity|].
  rewrite IH. apply statistics_parseKeyValue.
Qed.

Lemma statistics_parseLines (atof : string -> double) (fuel prevInputSize : nat) :
  forall input st input' st',
    parseLines atof fuel prevInputSize input st = Some (input', st') ->
    statistics (fst st') = statistics (fst st).
Proof.
  induction fuel as [|fuel IH]; intros input st input' st'; simpl.
  - destruct (find_first_of input newline prevInputSize); [discriminate|].
    intros [= _ <-]. reflexivity.
  - destruct (find_first_of input newline prevInputSize).
    + intros H. apply IH in H. rewrite H. apply statistics_parseLine.
    + intros [= _ <-]. reflexivity.
Qed.

Lemma statistics_processInput (atof : string -> double) (input arrived : string)
  (control : HttpClientControl) :
  forall input' st',
    processInput atof input control arrived = Some (input', st') ->
    statistics (fst st') = statistics control.
Proof.
  intros input' st'. unfold processInput.
  destruct (Nat.eqb _ _).
  - intros [= _ <-]. reflexivity.
  - intros H. now apply statistics_parseLines in H.
Qed.

(** A worker writes to the statistics only in the block under the
    mutex. *)
Lemma statistics_httpClientMain (env : Environment) (control : HttpClientControl)
  (w : Worker) :
  match location w with
  | AtRecord error optionalStuff lastLatency =>
      fst (fst (httpClientMain env control w))
      = recordResult error optionalStuff lastLatency control
  | _ => statistics (fst (fst (httpClientMain env control w))) = statistics control
  end.
Proof.
  unfold httpClientMain, decrementRequestsLeft, thinkInterval.
  destruct (location w); try reflexivity.
  - destruct (0 <=? _); reflexivity.
  - destruct (PrimFloat.ltb 0 (thinkTime control)); [|reflexivity].
    destruct (open control); [|destruct (0 <? signo env); reflexivity].
    destruct (PrimFloat.eqb _ _); destruct (0 <? signo env); reflexivity.
Qed.

Lemma statistics_quiet (control : HttpClientControl) (a : Action) :
  appends_sample a = false ->
  match a with
  | Report _ _ _ => statistics (act control a) = (0, 0, 0, [])
  | _ => statistics (act control a) = statistics control
  end.
Proof.
  destruct a as [env w| |atof prevInput arrived]; simpl; intros Hq.
  - pose proof (statistics_httpClientMain env control w) as H.
    destruct (location w); (discriminate || exact H).
  - rewrite report_unfold. reflexivity.
  - destruct (processInput atof prevInput control arrived)
      as [[input' [control' log]]|] eqn:E; [|reflexivity].
    apply statistics_processInput in E. exact E.
Qed.

Lemma counted_statistics (c c' : HttpClientControl) :
  statistics c' = statistics c -> counted c -> counted c'.
Proof.
  unfold statistics, counted. intros [= -> -> -> ->]. trivial.
Qed.

Lemma counted_act (control : HttpClientControl) (a : Action) :
  counted control -> counted (act control a).
Proof.
  intros Hc.
  destruct (appends_sample a) eqn:Ha.
  - destruct a as [env w| |]; try discriminate. simpl in *.
    pose proof (statistics_httpClientMain env control w) as H.
    destruct (location w); try discriminate.
    rewrite H. unfold counted, recordResult; simpl.
    intros Habs. now destruct (latencies control).
  - pose proof (statistics_quiet control a Ha) as H.
    destruct a.
    + now apply counted_statistics with control.
    + unfold statistics in H. injection H as H1 H2 H3 _.
      intros _. auto.
    + now apply counted_statistics with control.
Qed.

Lemma counted_history (actions : list Action) (control : HttpClientControl) :
  counted control -> counted (fold_left act actions control).
Proof.
  revert control. induction actions as [|a actions IH]; intros control Hc.
  - exact Hc.
  - simpl. apply IH. now apply counted_act.
Qed.

Lemma counted_initialControl (url_ : string) (concurrency_ timeout_ : Z)
  (thinkTime_ : double) (open_ : bool) (numRequestsLeft_ : Z) :
  counted (initialControl url_ concurrency_ timeout_ thinkTime_ open_
             numRequestsLeft_).
Proof. intros _. repeat split. Qed.

(** C4. Whatever the workers, the reports and the reconfigurations did
    before, when the sample sequence found under the lock is empty every
    distributional statistic of the report is NaN: the five quartile
    values, the two tail statistics, the arithmetic mean and the two
    classifier rates, both as computed and as printed. *)
Theorem empty_interval_statistics_are_nan (actions : list Action)
  (url_ : string) (concurrency_ timeout_ : Z) (thinkTime_ : double)
  (open_ : bool) (numRequestsLeft_ : Z)
  (lastReportTime : double) (totalRequests : Z) (t_now : double) :
  let control :=
    fold_left act actions
      (initialControl url_ concurrency_ timeout_ thinkTime_ open_
         numRequestsLeft_) in
  let a := latencies control in
  let n := double_of_Z (to_size_t (size a)) in
  let line := snd (report control lastReportTime totalRequests t_now) in
  a = [] ->
  (snd (quartiles a)
   = [Some PrimFloat.nan; Some PrimFloat.nan; Some PrimFloat.nan;
      Some PrimFloat.nan; Some PrimFloat.nan]
   /\ snd (percentiles (fst (quartiles a)))
      = [Some PrimFloat.nan; Some PrimFloat.nan]
   /\ average (fst (percentiles (fst (quartiles a)))) = PrimFloat.nan
   /\ PrimFloat.div (double_of_int (to_int (numOptionalStuff1 control))) n
      = PrimFloat.nan
   /\ PrimFloat.div (double_of_int (to_int (numOptionalStuff2 control))) n
      = PrimFloat.nan)
  /\ printed "latency" line
     = Some [ArgDouble (Some PrimFloat.nan); ArgDouble (Some PrimFloat.nan);
             ArgDouble (Some PrimFloat.nan); ArgDouble (Some PrimFloat.nan);
             ArgDouble (Some PrimFloat.nan); ArgDouble (Some PrimFloat.nan)]
  /\ printed "latency95" line = Some [ArgDouble (Some PrimFloat.nan)]
  /\ printed "latency99" line = Some [ArgDouble (Some PrimFloat.nan)]
  /\ printed "rr" line = Some [ArgDouble (Some PrimFloat.nan)]
  /\ printed "cr" line = Some [ArgDouble (Some PrimFloat.nan)].
Proof.
  intros control a n line Hempty.
  assert (Hc : counted control)
    by apply counted_history, counted_initialControl.
  destruct (Hc Hempty) as (_ & H1 & H2).
  subst line. rewrite report_unfold. unfold reportLine.
  subst n a. clearbody control.
  rewrite Hempty, H1, H2.
  split; [|repeat split]; try (vm_compute; reflexivity).
  repeat split; vm_compute; reflexivity.
Qed.

Lemma empty_interval_statistics_are_nan_witness :
  let env :=
    mkEnvironment 0%float 0%float 0 true OPTIONAL_STUFF1 0.5%float in
  let w := mkWorker 0 0%float 0%float (AtRecord true OPTIONAL_STUFF1 0.5%float) in
  let control :=
    fold_left act [WorkerStep env w; Report 0%float 0 1%float]
      (initialControl "" 1 0 0%float false 10) in
  printed "rr" (snd (report control 1%float 1 2%float))
  = Some [ArgDouble (Some PrimFloat.nan)]
  /\ printed "latency" (snd (report control 1%float 1 2%float))
     = Some [ArgDouble (Some PrimFloat.nan); ArgDouble (Some PrimFloat.nan);
             ArgDouble (Some PrimFloat.nan); ArgDouble (Some PrimFloat.nan);
             ArgDouble (Some PrimFloat.nan); ArgDouble (Some PrimFloat.nan)].
Proof.
  intros env w control.
  destruct (empty_interval_statistics_are_nan
              [WorkerStep env w; Report 0%float 0 1%float]
              "" 1 0 0%float false 10 1%float 1 2%float)
    as (_ & Hl & _ & _ & Hrr & _).
  - reflexivity.
  - split; [exact Hrr | exact Hl].
Defined.

(** ** Draining twice *)

Lemma statistics_quiet_after_drain (between : list Action) :
  quiet between ->
  forall control,
    statistics control = (0, 0, 0, []) ->
    statistics (fold_left act between control) = (0, 0, 0, []).
Proof.
  induction 1 as [|a between Ha Hq IH]; intros control Hc; [exact Hc|].
  simpl. apply IH.
  pose proof (statistics_quiet control a Ha) as H.
  destruct a; congruence.
Qed.

(** C5. Two reports in a row, with no sample appended between them (the
    workers may take any other step and the input may be read): the
    second report finds no error, no marker and no sample under the
    lock, and the total of requests, which [main] starts at 0, equals
    after both reports the number of samples of the single batch. *)
Theorem second_drain_is_empty (control : HttpClientControl)
  (between : list Action) (lastReportTime t1 t2 : double) :
  let batch := size (latencies control) in
  let r1 := report control lastReportTime 0 t1 in
  let control1 := fold_left act between (fst (fst (fst r1))) in
  let r2 := report control1 (snd (fst (fst r1))) (snd (fst r1)) t2 in
  batch <= INT_MAX -> quiet between ->
  fst (drain control1) = (0, 0, 0, [])
  /\ statistics (fst (fst (fst r2))) = (0, 0, 0, [])
  /\ printed "errors" (snd r2) = Some [ArgInt 0]
  /\ snd (fst r1) = batch
  /\ snd (fst r2) = batch.
Proof.
  intros batch r1 control1 r2 Hmax Hq.
  assert (Hb : 0 <= batch) by apply size_nonneg.
  unfold INT_MAX in Hmax.
  assert (H1 : snd (fst r1) = batch).
  { subst r1. rewrite report_unfold. cbn [fst snd]. fold batch.
    rewrite (to_size_t_id 0), (to_size_t_id batch) by lia.
    rewrite to_int_to_size_t. apply to_int_id. unfold INT_MIN, INT_MAX. lia. }
  assert (Hs : statistics control1 = (0, 0, 0, [])).
  { subst control1. apply statistics_quiet_after_drain; [assumption|].
    subst r1. rewrite report_unfold. reflexivity. }
  unfold statistics in Hs. injection Hs as He Hs1 Hs2 Hl.
  split; [|split; [|split; [|split]]].
  - unfold drain. rewrite He, Hs1, Hs2, Hl. reflexivity.
  - subst r2. rewrite report_unfold. reflexivity.
  - subst r2. rewrite report_unfold. unfold reportLine.
    cbn [snd printed String.eqb Ascii.eqb Bool.eqb]. rewrite He. reflexivity.
  - exact H1.
  - subst r2. rewrite report_unfold. cbn [fst snd]. rewrite Hl, H1.
    change (to_size_t (size [])) with 0. rewrite Z.add_0_r.
    rewrite !to_int_to_size_t. apply to_int_id. unfold INT_MIN, INT_MAX. lia.
Qed.

Lemma second_drain_is_empty_witness :
  let control :=
    set_statistics 1 2 0 [0.5; 0.25; 0.75]%float
      (initialControl "" 2 0 0%float false 10) in
  let r1 := report control 0%float 0 1%float in
  let control1 :=
    fold_left act
      [WorkerStep (mkEnvironment 0%float 0%float 0 false 0 0%float)
         (mkWorker 0 0%float 0%float AtLoopTest)]
      (fst (fst (fst r1))) in
  let r2 := report control1 (snd (fst (fst r1))) (snd (fst r1)) 2%float in
  fst (drain control1) = (0, 0, 0, []) /\ snd (fst r2) = 3.
Proof.
  intros control r1 control1 r2.
  destruct (second_drain_is_empty control
              [WorkerStep (mkEnvironment 0%float 0%float 0 false 0 0%float)
                 (mkWorker 0 0%float 0%float AtLoopTest)]
              0%float 1%float 2%float)
    as (Hd & _ & _ & _ & Ht).
  - unfold size, INT_MAX; simpl; lia.
  - repeat constructor.
  - split; [exact Hd | exact Ht].
Defined.

(** ** The arrival models *)

Lemma closed_loop_step (env : Environment) (control : HttpClientControl)
  (w : Worker) :
  open control = false ->
  open (fst (fst (httpClientMain env control w))) = false
  /\ numOpenQueuing (fst (fst (httpClientMain env control w)))
     = numOpenQueuing control.
Proof.
  intros Hopen.
  unfold httpClientMain, decrementRequestsLeft, thinkInterval.
  rewrite Hopen.
  destruct (location w); simpl; auto.
  - destruct (0 <=? _); simpl; auto.
  - destruct (PrimFloat.ltb 0 (thinkTime control)); simpl; auto.
    destruct (0 <? signo env); simpl; auto.
Qed.

Lemma closed_loop_run (schedule : list (nat * Environment)) :
  forall s, open (shared s) = false ->
    open (shared (run schedule s)) = false
    /\ numOpenQueuing (shared (run schedule s)) = numOpenQueuing (shared s).
Proof.
  unfold run.
  induction schedule as [|move schedule IH]; intros s Hopen; simpl; [auto|].
  assert (Hstep : open (shared (step s move)) = false
                  /\ numOpenQueuing (shared (step s move))
                     = numOpenQueuing (shared s)).
  { unfold step. destruct (nth_error (pool s) (fst move)) as [w|]; [|auto].
    pose proof (closed_loop_step (snd move) (shared s) w Hopen) as H.
    destruct (httpClientMain (snd move) (shared s) w) as [[c w'] ev]. exact H. }
  destruct Hstep as [Ho Hq].
  destruct (IH _ Ho) as [Ho' Hq'].
  split; [assumption | congruence].
Qed.

(** C7. Open loop, positive think time: the worker sets the next
    arrival to the last arrival plus the sampled interval, waits for
    [max(nextArrival - now, 0)], adds one to the queuing counter exactly
    when that wait is zero, and makes the next arrival its last arrival,
    whatever the latency it observed.  Closed loop: no interleaving of
    the workers changes the queuing counter. *)
Theorem arrival_models :
  (forall (env : Environment) (control : HttpClientControl) (w : Worker),
     open control = true ->
     PrimFloat.ltb 0%float (thinkTime control) = true ->
     location w = AtThink ->
     let nextArrivalTime := PrimFloat.add (lastArrivalTime w) (waitSample env) in
     let wait :=
       std_max (PrimFloat.sub nextArrivalTime (clock env)) 0%float in
     let result := httpClientMain env control w in
     snd result = [Wait (id w) wait]
     /\ lastArrivalTime (snd (fst result)) = nextArrivalTime
     /\ numOpenQueuing (fst (fst result))
        = (if PrimFloat.eqb wait 0%float
           then to_uint32 (numOpenQueuing control + 1)
           else numOpenQueuing control))
  /\ (forall (schedule : list (nat * Environment)) (s : System),
        open (shared s) = false ->
        numOpenQueuing (shared (run schedule s)) = numOpenQueuing (shared s)).
Proof.
  split.
  - intros env control w Hopen Hthink Hloc nextArrivalTime wait result.
    subst result. unfold httpClientMain, thinkInterval.
    rewrite Hloc, Hthink, Hopen.
    fold nextArrivalTime. fold wait.
    destruct (PrimFloat.eqb wait 0) eqn:Hzero;
      destruct (0 <? signo env); simpl; auto.
  - intros schedule s Hopen. now apply closed_loop_run.
Qed.

Lemma arrival_models_witness :
  let control := initialControl "" 1 0 1%float true 10 in
  let late := mkEnvironment 1%float 5%float 0 false 0 0%float in
  let early := mkEnvironment 1%float 0.5%float 0 false 0 0%float in
  let w := mkWorker 0 1%float 2%float AtThink in
  (snd (httpClientMain late control w) = [Wait 0 0%float]
   /\ numOpenQueuing (fst (fst (httpClientMain late control w))) = 1)
  /\ (snd (httpClientMain early control w) = [Wait 0 2.5%float]
      /\ numOpenQueuing (fst (fst (httpClientMain early control w))) = 0)
  /\ numOpenQueuing
       (shared (run [(0%nat, late); (0%nat, late); (0%nat, late)]
                  (start (set_open false control) (fun _ => 0%float))))
     = 0.
Proof.
  intros control late early w.
  destruct arrival_models as [Hopen Hclosed].
  split; [|split].
  - destruct (Hopen late control w) as (Hw & _ & Hq); try reflexivity.
    split; [exact Hw | exact Hq].
  - destruct (Hopen early control w) as (Hw & _ & Hq); try reflexivity.
    split; [exact Hw | exact Hq].
  - apply (Hclosed _ (start (set_open false control) (fun _ => 0%float))).
    reflexivity.
Defined.

(** ** The request budget *)

Lemma nth_error_replace_same (i : nat) (w w' : Worker) (l : list Worker) :
  nth_error l i = Some w -> nth_error (replace i w' l) i = Some w'.
Proof.
  revert i. induction l as [|x l IH]; intros [|i]; simpl; try discriminate.
  - reflexivity.
  - apply IH.
Qed.

Lemma nth_error_replace_other (i j : nat) (w' : Worker) (l : list Worker) :
  i <> j -> nth_error (replace i w' l) j = nth_error l j.
Proof.
  revert i j. induction l as [|x l IH]; intros [|i] [|j] Hij; simpl;
    try reflexivity; try congruence.
  apply IH. congruence.
Qed.

Lemma length_replace (i : nat) (w' : Worker) (l : list Worker) :
  List.length (replace i w' l) = List.length l.
Proof.
  revert i. induction l as [|x l IH]; intros [|i]; simpl; try reflexivity.
  now rewrite IH.
Qed.

Lemma tally_replace (f : Worker -> Z) (i : nat) (w w' : Worker) (l : list Worker) :
  nth_error l i = Some w -> tally f (replace i w' l) = tally f l - f w + f w'.
Proof.
  revert i. induction l as [|x l IH]; intros [|i]; simpl; try discriminate.
  - intros [= ->]. lia.
  - intros H. rewrite (IH _ H). lia.
Qed.

Lemma tally_range (f : Worker -> Z) (l : list Worker) :
  (forall w, 0 <= f w <= 1) -> 0 <= tally f l <= Z.of_nat (List.length l).
Proof.
  intros Hf. induction l as [|x l IH]; simpl List.length; simpl tally; [lia|].
  pose proof (Hf x). lia.
Qed.

Lemma tally_member (f : Worker -> Z) (i : nat) (w : Worker) (l : list Worker) :
  (forall w, 0 <= f w <= 1) -> nth_error l i = Some w ->
  tally f l <= Z.of_nat (List.length l) - 1 + f w.
Proof.
  intros Hf. revert i. induction l as [|x l IH]; intros [|i]; try discriminate.
  - intros [= ->]. simpl List.length; simpl tally.
    pose proof (tally_range f l Hf). lia.
  - intros H. simpl in H. simpl List.length; simpl tally.
    pose proof (IH _ H). pose proof (Hf x). lia.
Qed.

Lemma in_flight_range (w : Worker) : 0 <= in_flight w <= 1.
Proof. unfold in_flight. destruct (location w); lia. Qed.

Lemma exited_range (w : Worker) : 0 <= exited w <= 1.
Proof. unfold exited. destruct (location w); lia. Qed.

(** What one step of a thread does to the counter, to its location and
    to the trace, when no signal arrives. *)
Lemma httpClientMain_summary (env : Environment) (control : HttpClientControl)
  (w : Worker) :
  signo env <= 0 ->
  let result := httpClientMain env control w in
  let control' := fst (fst result) in
  let w' := snd (fst result) in
  let events := snd result in
  id w' = id w
  /\ match location w with
     | AtLoopTest =>
         let v := to_int (numRequestsLeft control - 1) in
         numRequestsLeft control' = v
         /\ events = [Decrement (id w) v]
         /\ location w' = (if 0 <=? v then AtThink else Exited)
     | AtThink =>
         numRequestsLeft control' = numRequestsLeft control
         /\ location w' = AtSend
         /\ (events = [] \/ exists t, events = [Wait (id w) t])
     | AtSend =>
         numRequestsLeft control' = numRequestsLeft control
         /\ events = [Send (id w)]
         /\ location w' = AtRecord (curlError env) (markers env) (elapsed env)
     | AtRecord _ _ _ =>
         numRequestsLeft control' = numRequestsLeft control
         /\ events = []
         /\ location w' = AtLoopTest
     | Exited => control' = control /\ w' = w /\ events = []
     end.
Proof.
  intros Hsig.
  assert (Hs : (0 <? signo env) = false) by (apply Z.ltb_ge; assumption).
  unfold httpClientMain, decrementRequestsLeft, thinkInterval.
  destruct (location w) eqn:Hloc; cbv zeta.
  - destruct (0 <=? to_int (numRequestsLeft control - 1)) eqn:Hv; cbn.
    + destruct (PrimFloat.eqb _ _); cbn; auto.
    + auto.
  - destruct (PrimFloat.ltb 0 (thinkTime control)); [|cbn; auto].
    destruct (open control); rewrite Hs.
    + destruct (PrimFloat.eqb _ _); cbn; eauto 6.
    + cbn; eauto 6.
  - cbn; auto.
  - cbn; auto.
  - cbn; auto.
Qed.

Lemma requestsSent_cons (c : HttpClientControl) (p : list Worker) (e : Event)
  (t : list Event) :
  requestsSent (mkSystem c p (e :: t))
  = (if is_Send e then 1 else 0) + requestsSent (mkSystem c p t).
Proof.
  unfold requestsSent; simpl. destruct (is_Send e); simpl List.length; lia.
Qed.

Lemma requestsSent_trace (c c' : HttpClientControl) (p p' : list Worker)
  (t : list Event) :
  requestsSent (mkSystem c p t) = requestsSent (mkSystem c' p' t).
Proof. reflexivity. Qed.

Lemma lastAction_skip (x : Z) (e : Event) (t : list Event) :
  event_worker e <> x -> lastAction x (e :: t) = lastAction x t.
Proof.
  intros H. destruct e; simpl in *; try reflexivity;
    destruct (Z.eqb_spec worker x); congruence.
Qed.

Lemma lastAction_wait (x w : Z) (i : double) (t : list Event) :
  lastAction x (Wait w i :: t) = lastAction x t.
Proof. reflexivity. Qed.

Lemma lastAction_decrement (w r : Z) (t : list Event) :
  lastAction w (Decrement w r :: t) = Some (Decrement w r).
Proof. simpl. now rewrite Z.eqb_refl. Qed.

(** The threads other than the one that moved keep their place, and
    the moving thread its id. *)
Lemma ids_replace (i : nat) (w w' : Worker) (l : list Worker) :
  nth_error l i = Some w -> id w' = id w ->
  (forall j x, nth_error l j = Some x -> id x = Z.of_nat j) ->
  forall j x, nth_error (replace i w' l) j = Some x -> id x = Z.of_nat j.
Proof.
  intros Hw Hid Hids j x Hx.
  destruct (Nat.eq_dec i j) as [<-|Hij].
  - rewrite (nth_error_replace_same i w w' l Hw) in Hx.
    injection Hx as <-. rewrite Hid. now apply Hids.
  - rewrite nth_error_replace_other in Hx by assumption. now apply Hids.
Qed.

(** The latest action of the threads in flight, after the thread at
    position [i] has moved and added [events] to the trace. *)
Lemma flying_replace (i : nat) (w w' : Worker) (l : list Worker)
  (events t : list Event) :
  nth_error l i = Some w -> id w' = id w ->
  (forall j x, nth_error l j = Some x -> id x = Z.of_nat j) ->
  (forall e, In e events -> event_worker e = id w) ->
  (forall j x, nth_error l j = Some x -> in_flight x = 1 ->
     exists r, lastAction (id x) t = Some (Decrement (id x) r) /\ 0 <= r) ->
  (in_flight w' = 1 ->
     exists r, lastAction (id w) (events ++ t) = Some (Decrement (id w) r)
               /\ 0 <= r) ->
  forall j x, nth_error (replace i w' l) j = Some x -> in_flight x = 1 ->
    exists r, lastAction (id x) (events ++ t) = Some (Decrement (id x) r)
              /\ 0 <= r.
Proof.
  intros Hw Hid Hids Hev Hold Hnew j x Hx Hfx.
  destruct (Nat.eq_dec i j) as [<-|Hij].
  - rewrite (nth_error_replace_same i w w' l Hw) in Hx.
    injection Hx as <-. rewrite Hid. now apply Hnew.
  - rewrite nth_error_replace_other in Hx by assumption.
    assert (Hne : id w <> id x).
    { rewrite (Hids _ _ Hw), (Hids _ _ Hx). lia. }
    destruct (Hold j x Hx Hfx) as (r & Hr & Hr0).
    exists r. split; [|assumption].
    rewrite <- Hr. clear Hr Hnew.
    induction events as [|e events IH]; [reflexivity|].
    simpl app. rewrite lastAction_skip.
    + apply IH. intros e' He'. apply Hev. now right.
    + rewrite (Hev e (or_introl eq_refl)). assumption.
Qed.

Lemma weights_at (w : Worker) :
  match location w with
  | AtThink | AtSend => in_flight w = 1 /\ exited w = 0
  | Exited => in_flight w = 0 /\ exited w = 1
  | _ => in_flight w = 0 /\ exited w = 0
  end.
Proof. unfold in_flight, exited. destruct (location w); auto. Qed.

Lemma requestsSent_nonneg (s : System) : 0 <= requestsSent s.
Proof. unfold requestsSent. lia. Qed.

Lemma budgetInvariant_step (budget : Z) (s : System) (move : nat * Environment) :
  0 <= budget <= INT_MAX ->
  Z.of_nat (List.length (pool s)) <= INT_MAX ->
  signo (snd move) <= 0 ->
  budgetInvariant budget s ->
  budgetInvariant budget (step s move)
  /\ List.length (pool (step s move)) = List.length (pool s)
  /\ numRequestsLeft (shared (step s move)) <= numRequestsLeft (shared s).
Proof.
  intros Hbudget Hlen Hsig Hinv.
  destruct move as [i env]. unfold step. cbn [fst snd] in *.
  destruct (nth_error (pool s) i) as [w|] eqn:Hw;
    [|split; [assumption | split; [reflexivity | lia]]].
  pose proof (httpClientMain_summary env (shared s) w Hsig) as Hsum.
  destruct (httpClientMain env (shared s) w) as [[control' w'] events].
  cbn [fst snd] in Hsum. destruct Hsum as [Hid Hcase].
  destruct s as [control threads t]. cbn [shared pool trace] in *.
  destruct Hinv as (I1 & I2 & I3 & Iid & Ifly & Isf).
  cbn [shared pool trace] in *.
  pose proof (tally_replace in_flight i w w' threads Hw) as Hfly.
  pose proof (tally_replace exited i w w' threads Hw) as Hgone.
  pose proof (tally_range in_flight threads in_flight_range) as Rfly.
  pose proof (tally_range exited threads exited_range) as Rgone.
  pose proof (tally_member exited i w threads exited_range Hw) as Mgone.
  pose proof (ids_replace i w w' threads Hw Hid Iid) as Iid'.
  pose proof (requestsSent_nonneg (mkSystem control threads t)) as Rsent.
  pose proof (weights_at w) as Ww.
  pose proof (weights_at w') as Ww'.
  unfold INT_MAX in *.
  rewrite length_replace.
  unfold budgetInvariant. cbn [shared pool trace].
  rewrite Hfly, Hgone. clear Hfly Hgone.
  destruct (location w) eqn:Hloc; destruct Ww as [Wf Wg];
    rewrite Wf, Wg in *.
  - (* the loop test *)
    destruct Hcase as (Hv & -> & Hloc').
    assert (Hwrap : to_int (numRequestsLeft control - 1)
                    = numRequestsLeft control - 1)
      by (apply to_int_id; unfold INT_MIN, INT_MAX; lia).
    rewrite Hwrap in *.
    simpl app. rewrite requestsSent_cons. cbn [is_Send].
    rewrite (requestsSent_trace control' control (replace i w' threads) threads).
    destruct (0 <=? numRequestsLeft control - 1) eqn:Hpos;
      rewrite Hloc' in Ww'; destruct Ww' as [Wf' Wg']; rewrite Wf', Wg'.
    + apply Z.leb_le in Hpos.
      split; [|split; [reflexivity | lia]].
      split; [lia|]. split; [lia|]. split; [lia|].
      split; [assumption|]. split; [|assumption].
      apply (flying_replace i w w' threads [Decrement (id w) _] t); auto.
      * intros e [<-|[]]. reflexivity.
      * intros _. eexists. split; [apply lastAction_decrement | assumption].
    + apply Z.leb_gt in Hpos.
      split; [|split; [reflexivity | lia]].
      split; [lia|]. split; [lia|]. split; [lia|].
      split; [assumption|]. split; [|assumption].
      apply (flying_replace i w w' threads [Decrement (id w) _] t); auto.
      * intros e [<-|[]]. reflexivity.
      * rewrite Wf'. discriminate.
  - (* the think time *)
    destruct Hcase as (Hv & Hloc' & Hev).
    rewrite Hloc' in Ww'; destruct Ww' as [Wf' Wg']; rewrite Wf', Wg'.
    assert (Hw1 : exists r, lastAction (id w) t = Some (Decrement (id w) r)
                            /\ 0 <= r) by (apply (Ifly i w Hw); exact Wf).
    destruct Hev as [->|[iv ->]]; simpl app.
    + rewrite (requestsSent_trace control' control (replace i w' threads) threads).
      split; [|split; [reflexivity | lia]].
      split; [lia|]. split; [lia|]. split; [lia|].
      split; [assumption|]. split; [|assumption].
      apply (flying_replace i w w' threads [] t); auto.
      intros e [].
    + rewrite requestsSent_cons. cbn [is_Send].
      rewrite (requestsSent_trace control' control (replace i w' threads) threads).
      split; [|split; [reflexivity | lia]].
      split; [lia|]. split; [lia|]. split; [lia|].
      split; [assumption|]. split; [|assumption].
      apply (flying_replace i w w' threads [Wait (id w) iv] t); auto.
      intros e [<-|[]]. reflexivity.
  - (* the request *)
    destruct Hcase as (Hv & -> & Hloc').
    rewrite Hloc' in Ww'; destruct Ww' as [Wf' Wg']; rewrite Wf', Wg'.
    assert (Hw1 : exists r, lastAction (id w) t = Some (Decrement (id w) r)
                            /\ 0 <= r) by (apply (Ifly i w Hw); exact Wf).
    simpl app. rewrite requestsSent_cons. cbn [is_Send].
    rewrite (requestsSent_trace control' control (replace i w' threads) threads).
    split; [|split; [reflexivity | lia]].
    split; [lia|]. split; [lia|]. split; [lia|].
    split; [assumption|]. split.
    + apply (flying_replace i w w' threads [Send (id w)] t); auto.
      * intros e [<-|[]]. reflexivity.
      * rewrite Wf'. discriminate.
    + cbn [sendsFollowDecrements]. destruct Hw1 as (r & -> & Hr).
      rewrite Isf. replace (0 <=? r) with true by (symmetry; now apply Z.leb_le).
      reflexivity.
  - (* the block under the mutex *)
    destruct Hcase as (Hv & -> & Hloc').
    rewrite Hloc' in Ww'; destruct Ww' as [Wf' Wg']; rewrite Wf', Wg'.
    simpl app.
    rewrite (requestsSent_trace control' control (replace i w' threads) threads).
    split; [|split; [reflexivity | lia]].
    split; [lia|]. split; [lia|]. split; [lia|].
    split; [assumption|]. split; [|assumption].
    apply (flying_replace i w w' threads [] t); auto.
    + intros e [].
    + rewrite Wf'. discriminate.
  - (* after the loop *)
    destruct Hcase as (-> & -> & ->). rewrite Hloc in Ww'.
    destruct Ww' as [Wf' Wg']. rewrite ?Wf', ?Wg'. simpl app.
    rewrite (requestsSent_trace control control (replace i w threads) threads).
    split; [|split; [reflexivity | lia]].
    split; [lia|]. split; [lia|]. split; [lia|].
    split; [assumption|]. split; [|assumption].
    apply (flying_replace i w w threads [] t); auto.
    + intros e [].
    + rewrite Wf. discriminate.
Qed.

Lemma budgetInvariant_run (budget : Z) (schedule : list (nat * Environment)) :
  0 <= budget <= INT_MAX -> uncancelled schedule ->
  forall s,
    Z.of_nat (List.length (pool s)) <= INT_MAX ->
    budgetInvariant budget s ->
    budgetInvariant budget (run schedule s)
    /\ List.length (pool (run schedule s)) = List.length (pool s)
    /\ numRequestsLeft (shared (run schedule s)) <= numRequestsLeft (shared s).
Proof.
  intros Hbudget Hquiet. unfold run.
  induction Hquiet as [|move schedule Hsig Hquiet IH]; intros s Hlen Hinv; simpl.
  - split; [assumption | split; [reflexivity | lia]].
  - destruct (budgetInvariant_step budget s move Hbudget Hlen Hsig Hinv)
      as (Hinv' & Hlen' & Hdec).
    destruct (IH (step s move)) as (Hinv'' & Hlen'' & Hdec'').
    + rewrite Hlen'. assumption.
    + assumption.
    + split; [assumption | split; [congruence | lia]].
Qed.

Lemma nth_error_startWorker (control : HttpClientControl)
  (started : nat -> double) (n : nat) :
  forall k i w,
    nth_error (map (startWorker control started) (seq k n)) i = Some w ->
    w = startWorker control started (k + i).
Proof.
  induction n as [|n IH]; intros k [|i] w; simpl; try discriminate.
  - intros [= <-]. now rewrite Nat.add_0_r.
  - intros H. apply IH in H. rewrite H. f_equal. lia.
Qed.

Lemma tally_start (f : Worker -> Z) (control : HttpClientControl)
  (started : nat -> double) (n : nat) :
  (forall w, location w = AtLoopTest -> f w = 0) ->
  forall k, tally f (map (startWorker control started) (seq k n)) = 0.
Proof.
  intros Hf. induction n as [|n IH]; intros k; simpl; [reflexivity|].
  rewrite IH, Hf; reflexivity.
Qed.

Lemma budgetInvariant_start (control : HttpClientControl)
  (started : nat -> double) :
  0 <= numRequestsLeft control ->
  budgetInvariant (numRequestsLeft control) (start control started).
Proof.
  intros Hbudget. unfold budgetInvariant, start. cbn [shared pool trace].
  rewrite !tally_start
    by (intros w Hw; unfold in_flight, exited; rewrite Hw; reflexivity).
  change (requestsSent _) with 0.
  split; [lia|]. split; [lia|]. split; [lia|]. split; [|split].
  - intros i w H. apply nth_error_startWorker in H. now rewrite H.
  - intros i w H. apply nth_error_startWorker in H. rewrite H. discriminate.
  - reflexivity.
Qed.

Lemma tally_allExited (l : list Worker) :
  forallb has_exited l = true ->
  tally exited l = Z.of_nat (List.length l) /\ tally in_flight l = 0.
Proof.
  induction l as [|w l IH]; simpl forallb; [split; reflexivity|].
  intros H. apply andb_true_iff in H. destruct H as [Hw Hl].
  destruct (IH Hl) as [IH1 IH2].
  simpl List.length; simpl tally. rewrite IH1, IH2.
  unfold has_exited in Hw. unfold exited, in_flight.
  destruct (location w); try discriminate. split; lia.
Qed.

Lemma sendsFollowDecrements_older (newer older : list Event) :
  sendsFollowDecrements (newer ++ older) = true ->
  sendsFollowDecrements older = true.
Proof.
  induction newer as [|e newer IH]; simpl; [trivial|].
  destruct e; try assumption.
  intros H. apply andb_true_iff in H. now apply IH.
Qed.

Lemma lastAction_worker (w : Z) (t : list Event) (e : Event) :
  lastAction w t = Some e -> event_worker e = w.
Proof.
  induction t as [|x t IH]; simpl; [discriminate|].
  destruct x as [w' r|w' i|w']; simpl; try assumption;
    (destruct (Z.eqb_spec w' w) as [Heq|Hne];
     [intros [= <-]; exact Heq | assumption]).
Qed.

(** Every request of a trace that passes [sendsFollowDecrements] comes
    after a decrement by the same worker that gave a value that was not
    negative, with no other decrement or request of that worker in
    between. *)
Lemma sends_after_decrements (t : list Event) :
  sendsFollowDecrements t = true ->
  forall newer w older, t = newer ++ Send w :: older ->
    exists r, lastAction w older = Some (Decrement w r) /\ 0 <= r.
Proof.
  intros Ht newer w older ->.
  apply sendsFollowDecrements_older in Ht. simpl in Ht.
  apply andb_true_iff in Ht. destruct Ht as [Ht _].
  destruct (lastAction w older) as [[w' r| |]|] eqn:E; try discriminate.
  apply lastAction_worker in E as Hw. simpl in Hw. subst w'.
  exists r. split; [reflexivity | now apply Z.leb_le].
Qed.

(** When every thread has left its loop, exactly [budget] requests have
    been sent. *)
Lemma budget_spent_exactly (budget : Z) (s : System) :
  budgetInvariant budget s -> (1 <= List.length (pool s))%nat ->
  allExited s = true -> requestsSent s = budget.
Proof.
  intros (I1 & I2 & I3 & _) Hlen Hall.
  destruct (tally_allExited _ Hall) as [Hgone Hfly].
  rewrite Hfly in *. rewrite Hgone in I3. lia.
Qed.

(** C2. A pool of [C] workers started on a budget of [N] requests, no
    worker being cancelled.  Along every interleaving the budget counter
    never goes up; every request sent comes after a decrement by the
    same worker that gave a value that was not negative; and once every
    worker has left its loop, the number of requests sent is at least
    [N] and at most [N + (C - 1)]. *)
Theorem request_budget (control : HttpClientControl) (started : nat -> double)
  (schedule : list (nat * Environment)) :
  let N := numRequestsLeft control in
  let C := concurrency control in
  let s := run schedule (start control started) in
  0 <= N <= INT_MAX -> 1 <= C <= INT_MAX -> uncancelled schedule ->
  (forall before after, schedule = before ++ after ->
     numRequestsLeft (shared s)
     <= numRequestsLeft (shared (run before (start control started))) <= N)
  /\ (forall newer w older, trace s = newer ++ Send w :: older ->
        exists r, lastAction w older = Some (Decrement w r) /\ 0 <= r)
  /\ (allExited s = true -> N <= requestsSent s <= N + (C - 1)).
Proof.
  intros N C s HN HC Hquiet.
  pose proof (budgetInvariant_start control started (proj1 HN)) as H0.
  fold N in H0.
  assert (Hlen0 : Z.of_nat (List.length (pool (start control started))) = C).
  { unfold start. cbn [pool]. rewrite length_map, length_seq. fold C. lia. }
  assert (Hmax0 : Z.of_nat (List.length (pool (start control started)))
                  <= INT_MAX) by (rewrite Hlen0; apply HC).
  destruct (budgetInvariant_run N schedule HN Hquiet _ Hmax0 H0)
    as (Hinv & Hlen & _).
  split; [|split].
  - intros before after ->.
    apply Forall_app in Hquiet. destruct Hquiet as [Hq1 Hq2].
    destruct (budgetInvariant_run N before HN Hq1 _ Hmax0 H0)
      as (Hinv1 & Hlen1 & Hdec1).
    assert (Hmax1 : Z.of_nat (List.length
                      (pool (run before (start control started)))) <= INT_MAX)
      by (rewrite Hlen1; exact Hmax0).
    destruct (budgetInvariant_run N after HN Hq2
                (run before (start control started)) Hmax1 Hinv1)
      as (_ & _ & Hdec2).
    subst s. unfold run in *. rewrite fold_left_app.
    split; [exact Hdec2 | exact Hdec1].
  - apply sends_after_decrements. apply Hinv.
  - intros Hall.
    assert (Hpool : (1 <= List.length (pool s))%nat)
      by (unfold s; rewrite Hlen; fold C in Hlen0; destruct HC; lia).
    rewrite (budget_spent_exactly N s Hinv Hpool Hall).
    destruct HC as [HC1 _]. clearbody N C. lia.
Qed.

Lemma request_budget_witness :
  let control := initialControl "" 2 0 0%float false 2 in
  let env := mkEnvironment 0%float 0%float 0 false 0 0.5%float in
  let schedule :=
    [(0%nat, env); (1%nat, env); (0%nat, env); (0%nat, env); (1%nat, env);
     (1%nat, env); (0%nat, env); (1%nat, env); (0%nat, env); (1%nat, env)] in
  let s := run schedule (start control (fun _ => 0%float)) in
  allExited s = true
  /\ numRequestsLeft (shared s) = -2
  /\ 2 <= requestsSent s <= 2 + (2 - 1).
Proof.
  intros control env schedule s.
  destruct (request_budget control (fun _ => 0%float) schedule)
    as (_ & _ & Hsent).
  - unfold INT_MAX; simpl; lia.
  - unfold INT_MAX; simpl; lia.
  - repeat constructor; simpl; lia.
  - split; [reflexivity | split; [reflexivity | apply Hsent; reflexivity]].
Defined.

(** ** Spending the budget *)

Lemma step_poised (k : Z) (e i : nat) (l : Location) (s : System)
  (env : Environment) :
  poised k e i l s -> (i < List.length (pool s))%nat -> signo env <= 0 ->
  INT_MIN < k <= INT_MAX ->
  List.length (pool (step s (i, env))) = List.length (pool s)
  /\ match l with
     | AtLoopTest =>
         poised (k - 1) e i (if 0 <=? k - 1 then AtThink else Exited)
           (step s (i, env))
     | AtThink => poised k e i AtSend (step s (i, env))
     | AtSend =>
         poised k e i (AtRecord (curlError env) (markers env) (elapsed env))
           (step s (i, env))
     | AtRecord _ _ _ => poised k e i AtLoopTest (step s (i, env))
     | Exited => poised k e i Exited (step s (i, env))
     end.
Proof.
  intros [Hk Hloc] Hi Hsig Hrange.
  destruct (nth_error (pool s) i) as [w|] eqn:Hw;
    [|apply nth_error_None in Hw; lia].
  pose proof (Hloc i w Hw) as Hl. rewrite Nat.eqb_refl in Hl.
  pose proof (httpClientMain_summary env (shared s) w Hsig) as Hsum.
  unfold step. cbn [fst snd]. rewrite Hw.
  destruct (httpClientMain env (shared s) w) as [[control' w'] events].
  cbn [fst snd] in Hsum. destruct Hsum as [_ Hcase].
  cbn [pool shared]. rewrite length_replace. split; [reflexivity|].
  assert (Hothers : forall l', location w' = l' ->
            forall j x, nth_error (replace i w' (pool s)) j = Some x ->
              location x = (if Nat.eqb j i then l'
                            else if Nat.ltb j e then Exited else AtLoopTest)).
  { intros l' Hl' j x Hx. destruct (Nat.eqb_spec j i) as [->|Hne].
    - rewrite (nth_error_replace_same i w w' _ Hw) in Hx. now injection Hx as <-.
    - rewrite nth_error_replace_other in Hx by congruence.
      pose proof (Hloc j x Hx) as H.
      destruct (Nat.eqb_spec j i); [contradiction | exact H]. }
  rewrite Hl in Hcase. unfold poised. cbn [shared pool].
  destruct l.
  - destruct Hcase as (Hv & _ & Hloc').
    rewrite Hk in *.
    rewrite to_int_id in * by (unfold INT_MIN, INT_MAX in *; lia).
    split; [assumption | now apply Hothers].
  - destruct Hcase as (Hv & Hloc' & _).
    split; [congruence | now apply Hothers].
  - destruct Hcase as (Hv & _ & Hloc').
    split; [congruence | now apply Hothers].
  - destruct Hcase as (Hv & _ & Hloc').
    split; [congruence | now apply Hothers].
  - destruct Hcase as (-> & -> & _).
    split; [assumption | now apply Hothers].
Qed.

Lemma oneRequest_poised (k : Z) (s : System) :
  poised k 0 0 AtLoopTest s -> (0 < List.length (pool s))%nat ->
  1 <= k <= INT_MAX ->
  poised (k - 1) 0 0 AtLoopTest (run (oneRequest 0) s)
  /\ List.length (pool (run (oneRequest 0) s)) = List.length (pool s).
Proof.
  intros H0 Hlen Hk.
  assert (Hcalm : signo calm <= 0) by (simpl; lia).
  unfold INT_MAX in Hk.
  destruct (step_poised k 0 0 AtLoopTest s calm H0 Hlen Hcalm) as [L1 H1];
    [unfold INT_MIN, INT_MAX; lia|].
  replace (0 <=? k - 1) with true in H1 by (symmetry; apply Z.leb_le; lia).
  destruct (step_poised (k - 1) 0 0 AtThink _ calm H1) as [L2 H2];
    [lia | assumption | unfold INT_MIN, INT_MAX; lia|].
  destruct (step_poised (k - 1) 0 0 AtSend _ calm H2) as [L3 H3];
    [lia | assumption | unfold INT_MIN, INT_MAX; lia|].
  destruct (step_poised (k - 1) 0 0 _ _ calm H3) as [L4 H4];
    [lia | assumption | unfold INT_MIN, INT_MAX; lia|].
  split; [exact H4 | unfold run, oneRequest; simpl fold_left; lia].
Qed.

Lemma requests_poised (n : nat) :
  forall s,
    poised (Z.of_nat n) 0 0 AtLoopTest s -> (0 < List.length (pool s))%nat ->
    Z.of_nat n <= INT_MAX ->
    poised 0 0 0 AtLoopTest (run (requests n) s)
    /\ List.length (pool (run (requests n) s)) = List.length (pool s).
Proof.
  induction n as [|n IH]; intros s H0 Hlen Hn.
  - split; [exact H0 | reflexivity].
  - change (requests (S n)) with (oneRequest 0 ++ requests n).
    unfold run. rewrite fold_left_app.
    destruct (oneRequest_poised (Z.of_nat (S n)) s H0 Hlen) as [H1 L1];
      [lia|].
    replace (Z.of_nat (S n) - 1) with (Z.of_nat n) in H1 by lia.
    destruct (IH (run (oneRequest 0) s) H1) as [H2 L2]; [lia | lia |].
    split; [exact H2 | unfold run in *; lia].
Qed.

Lemma leave_poised (c : nat) :
  forall e k s,
    poised k e e AtLoopTest s -> (e + c = List.length (pool s))%nat ->
    k <= 0 -> - INT_MAX <= k - Z.of_nat c ->
    poised (k - Z.of_nat c) (e + c) (e + c) Exited (run (leave e c) s)
    /\ List.length (pool (run (leave e c) s)) = List.length (pool s).
Proof.
  assert (Hcalm : signo calm <= 0) by (simpl; lia).
  induction c as [|c IH]; intros e k s H0 Hlen Hk Hmin.
  - change (run (leave e 0) s) with s. split; [|reflexivity].
    rewrite Nat.add_0_r, Z.sub_0_r. destruct H0 as [Hc Hl].
    split; [assumption|]. intros j w Hw. rewrite (Hl j w Hw).
    destruct (Nat.eqb_spec j e) as [->|Hne]; [|reflexivity].
    assert (e < List.length (pool s))%nat
      by (apply nth_error_Some; rewrite Hw; discriminate).
    lia.
  - unfold INT_MAX in Hmin.
    destruct (step_poised k e e AtLoopTest s calm H0) as [L1 H1];
      [lia | assumption | unfold INT_MIN, INT_MAX; lia|].
    replace (0 <=? k - 1) with false in H1 by (symmetry; apply Z.leb_gt; lia).
    assert (H1' : poised (k - 1) (S e) (S e) AtLoopTest (step s (e, calm))).
    { destruct H1 as [Hc Hl]. split; [assumption|].
      intros j w Hw. rewrite (Hl j w Hw).
      destruct (Nat.eqb_spec j e) as [->|Hne].
      - rewrite (proj2 (Nat.eqb_neq e (S e))) by lia.
        now rewrite (proj2 (Nat.ltb_lt e (S e))) by lia.
      - destruct (Nat.eqb_spec j (S e)) as [->|Hne'].
        + now rewrite (proj2 (Nat.ltb_ge (S e) e)) by lia.
        + destruct (Nat.ltb_spec j e), (Nat.ltb_spec j (S e)); (reflexivity || lia). }
    destruct (IH (S e) (k - 1) (step s (e, calm)) H1') as [H2 L2];
      [lia | lia | unfold INT_MAX; lia |].
    replace (e + S c)%nat with (S e + c)%nat by lia.
    replace (k - Z.of_nat (S c)) with (k - 1 - Z.of_nat c) by lia.
    split; [exact H2 | ].
    simpl leave. unfold run in *. simpl fold_left. fold (leave (S e) c). lia.
Qed.

(** The budget can be spent: from the start of [main], the schedule
    [exhausting] cancels no thread and brings every thread out of its
    loop. *)
Theorem budget_can_be_spent (control : HttpClientControl)
  (started : nat -> double) :
  let N := numRequestsLeft control in
  let C := concurrency control in
  let schedule := exhausting (Z.to_nat N) (Z.to_nat C) in
  0 <= N <= INT_MAX -> 1 <= C <= INT_MAX ->
  uncancelled schedule
  /\ allExited (run schedule (start control started)) = true
  /\ requestsSent (run schedule (start control started)) = N.
Proof.
  intros N C schedule HN HC.
  assert (Hquiet : uncancelled schedule).
  { unfold uncancelled, schedule, exhausting. apply Forall_app. split.
    - induction (Z.to_nat N) as [|n IH]; simpl; [constructor|].
      repeat (constructor; [simpl; lia|]). exact IH.
    - unfold leave. apply Forall_forall. intros move Hin.
      apply in_map_iff in Hin. destruct Hin as (i & <- & _). simpl; lia. }
  set (s0 := start control started).
  assert (Hlen0 : List.length (pool s0) = Z.to_nat C).
  { unfold s0, start. cbn [pool]. now rewrite length_map, length_seq. }
  assert (H0 : poised (Z.of_nat (Z.to_nat N)) 0 0 AtLoopTest s0).
  { split; [unfold s0, start; cbn [shared]; fold N; lia|].
    intros j w Hw. unfold s0, start in Hw. cbn [pool] in Hw.
    apply nth_error_startWorker in Hw. rewrite Hw. cbn [location startWorker].
    now destruct (Nat.eqb j 0). }
  destruct (requests_poised (Z.to_nat N) s0 H0) as [H1 L1]; [lia | lia |].
  destruct (leave_poised (Z.to_nat C) 0 0 (run (requests (Z.to_nat N)) s0) H1)
    as [H2 L2]; [lia | lia | unfold INT_MAX in *; lia |].
  assert (Hrun : run schedule s0
                 = run (leave 0 (Z.to_nat C)) (run (requests (Z.to_nat N)) s0))
    by (unfold schedule, exhausting, run; apply fold_left_app).
  assert (Hall : allExited (run schedule s0) = true).
  { rewrite Hrun. unfold allExited. apply forallb_forall. intros w Hin.
    apply In_nth_error in Hin. destruct Hin as [j Hj].
    destruct H2 as [_ Hl]. pose proof (Hl j w Hj) as Hloc.
    assert (Hlt : (j < List.length
                         (pool (run (leave 0 (Z.to_nat C))
                                  (run (requests (Z.to_nat N)) s0))))%nat)
      by (apply nth_error_Some; rewrite Hj; discriminate).
    unfold has_exited. rewrite Hloc.
    destruct (Nat.eqb j (0 + Z.to_nat C)); [reflexivity|].
    now rewrite (proj2 (Nat.ltb_lt j (0 + Z.to_nat C))) by lia. }
  split; [assumption | split; [assumption|]].
  apply budget_spent_exactly; try assumption.
  - destruct (budgetInvariant_run N schedule HN Hquiet s0) as (Hinv & _).
    + rewrite Hlen0. destruct HC. lia.
    + apply budgetInvariant_start. apply HN.
    + exact Hinv.
  - rewrite Hrun, L2, L1, Hlen0. lia.
Qed.

Lemma budget_can_be_spent_witness :
  let control := initialControl "" 3 0 0%float false 5 in
  let s := run (exhausting 5 3) (start control (fun _ => 0%float)) in
  allExited s = true /\ requestsSent s = 5.
Proof.
  intros control s.
  destruct (budget_can_be_spent control (fun _ => 0%float)) as (_ & H1 & H2).
  - unfold INT_MAX; simpl; lia.
  - unfold INT_MAX; simpl; lia.
  - split; [exact H1 | exact H2].
Defined.

(** ** The reconfiguration input *)

Lemma find_first_of_line (l rest : string) :
  one_line l ->
  find_first_of (String.append l (String newline rest)) newline 0
  = Some (String.length l).
Proof.
  unfold one_line. induction l as [|x l IH]; simpl.
  - reflexivity.
  - destruct (Ascii.eqb x newline); [discriminate|].
    destruct (find_first_of l newline 0); [discriminate|].
    intros _. now rewrite IH.
Qed.

Lemma substr0_line (l rest : string) :
  substr0 (String.append l rest) (String.length l) = l.
Proof. induction l as [|x l IH]; simpl; [now destruct rest | now rewrite IH]. Qed.

Lemma erase0_line (l rest : string) (c : ascii) :
  erase0 (String.append l (String c rest)) (String.length l + 1) = rest.
Proof. induction l as [|x l IH]; simpl; [now destruct rest | exact IH]. Qed.

Lemma find_first_of_bound (s : string) (c : ascii) :
  forall pos n, find_first_of s c pos = Some n -> (n < String.length s)%nat.
Proof.
  induction s as [|x s IH]; intros pos n; simpl; [discriminate|].
  destruct pos as [|pos].
  - destruct (Ascii.eqb x c); [intros [= <-]; lia|].
    destruct (find_first_of s c 0) as [m|] eqn:E; [|discriminate].
    intros [= <-]. apply IH in E. lia.
  - destruct (find_first_of s c pos) as [m|] eqn:E; [|discriminate].
    intros [= <-]. apply IH in E. lia.
Qed.

Lemma length_erase0 (s : string) (n : nat) :
  String.length (erase0 s n) = (String.length s - n)%nat.
Proof.
  revert s. induction n as [|n IH]; intros [|x s]; simpl; try reflexivity.
  apply IH.
Qed.

(** [String.length input] rounds are enough for the loop over the
    lines: [processInput] returns. *)
Lemma parseLines_returns (atof : string -> double) (prevInputSize : nat) :
  forall fuel input st, (String.length input <= fuel)%nat ->
    exists r, parseLines atof fuel prevInputSize input st = Some r.
Proof.
  induction fuel as [|fuel IH]; intros input st Hlen; simpl.
  - destruct (find_first_of input newline prevInputSize) as [n|] eqn:E;
      [|eauto].
    apply find_first_of_bound in E. lia.
  - destruct (find_first_of input newline prevInputSize) as [n|] eqn:E;
      [|eauto].
    apply find_first_of_bound in E.
    apply IH. rewrite length_erase0. lia.
Qed.

Lemma processInput_returns (atof : string -> double) (input arrived : string)
  (control : HttpClientControl) :
  exists r, processInput atof input control arrived = Some r.
Proof.
  unfold processInput. destruct (Nat.eqb _ _); [eauto|].
  apply parseLines_returns. lia.
Qed.

Lemma append_assoc (a b c : string) :
  String.append (String.append a b) c = String.append a (String.append b c).
Proof. induction a as [|x a IH]; simpl; [reflexivity | now rewrite IH]. Qed.

Lemma length_append (a b : string) :
  String.length (String.append a b) = (String.length a + String.length b)%nat.
Proof. induction a as [|x a IH]; simpl; [reflexivity | now rewrite IH]. Qed.

Lemma length_unlines (lines : list string) (carry : string) :
  (List.length lines <= String.length (String.append (unlines lines) carry))%nat.
Proof.
  induction lines as [|l lines IH]; simpl; [lia|].
  rewrite append_assoc, length_append. simpl. lia.
Qed.

(** Input that arrives as whole lines, nothing being left over from
    before, is parsed line by line, up to the last newline. *)
Lemma parseLines_whole_lines (atof : string -> double) (lines : list string)
  (carry : string) :
  Forall one_line lines -> one_line carry ->
  forall fuel st, (List.length lines <= fuel)%nat ->
    parseLines atof fuel 0 (String.append (unlines lines) carry) st
    = Some (carry, fold_left (parseLine atof) lines st).
Proof.
  intros Hlines Hcarry.
  induction Hlines as [|l lines Hl Hlines IH]; intros fuel st Hfuel.
  - simpl unlines. simpl String.append.
    destruct fuel; simpl; rewrite Hcarry; reflexivity.
  - destruct fuel as [|fuel]; [simpl in Hfuel; lia|].
    simpl unlines. rewrite append_assoc.
    cbn [parseLines String.append].
    rewrite (find_first_of_line l _ Hl).
    rewrite substr0_line, erase0_line.
    simpl fold_left. apply IH. simpl in Hfuel. lia.
Qed.

Lemma parseKeyValue_malformed (atof : string -> double)
  (control : HttpClientControl) (log : list LogLine) (token : string) :
  List.length (split (is_any_of "=") token) <> 2%nat ->
  parseKeyValue atof (control, log) token = (control, log ++ [CannotParse token]).
Proof.
  intros H. unfold parseKeyValue.
  destruct (Nat.eqb_spec (List.length (split (is_any_of "=") token)) 2);
    [contradiction | reflexivity].
Qed.

Lemma processInput_whole_lines (atof : string -> double)
  (control : HttpClientControl) (lines : list string) (carry : string) :
  Forall one_line lines -> one_line carry ->
  processInput atof "" control (String.append (unlines lines) carry)
  = Some (carry, fold_left (parseLine atof) lines (control, [])).
Proof.
  intros Hlines Hcarry. unfold processInput.
  change (String.append "" ?x) with x.
  change (String.length "") with 0%nat.
  destruct (Nat.eqb_spec (String.length (String.append (unlines lines) carry)) 0)
    as [Hz|Hnz].
  - destruct lines as [|l lines].
    + simpl in *. destruct carry; [reflexivity | discriminate].
    + simpl in Hz. rewrite append_assoc, length_append in Hz. simpl in Hz. lia.
  - apply parseLines_whole_lines; try assumption. apply length_unlines.
Qed.

(** A token that does not split on [=] into exactly two parts is
    logged and skipped, the control structure being left as it was; the
    tokens after it on the line are parsed from there, and the loop over
    the lines goes on with the rest of the input, so that in input that
    arrives as whole lines every later line is parsed.  A token
    [key=value] sets [thinkTime] to [atof(value)] for the key
    [thinktime], [concurrency] to [atoi(value)] for the key
    [concurrency], [open] to whether [atoi(value)] is not zero for the
    key [open]; any other key is logged and changes nothing. *)
Theorem malformed_tokens_are_skipped (atof : string -> double) :
  (forall control log token,
     List.length (split (is_any_of "=") token) <> 2%nat ->
     parseKeyValue atof (control, log) token
     = (control, log ++ [CannotParse token]))
  /\ (forall st before token after,
        List.length (split (is_any_of "=") token) <> 2%nat ->
        let st' := fold_left (parseKeyValue atof) before st in
        fold_left (parseKeyValue atof) (before ++ token :: after) st
        = fold_left (parseKeyValue atof) after
            (fst st', snd st' ++ [CannotParse token]))
  /\ (forall fuel prevInputSize input st newlineFound,
        find_first_of input newline prevInputSize = Some newlineFound ->
        parseLines atof (S fuel) prevInputSize input st
        = parseLines atof fuel prevInputSize (erase0 input (newlineFound + 1))
            (parseLine atof st (substr0 input newlineFound)))
  /\ (forall control lines carry,
        Forall one_line lines -> one_line carry ->
        processInput atof "" control (String.append (unlines lines) carry)
        = Some (carry, fold_left (parseLine atof) lines (control, [])))
  /\ (forall control log token key value,
        split (is_any_of "=") token = [key; value] ->
        (key = "thinktime"%string ->
         parseKeyValue atof (control, log) token
         = (set_thinkTime (atof value) control,
            log ++ [SetThinktime (atof value)]))
        /\ (key = "concurrency"%string ->
            parseKeyValue atof (control, log) token
            = (set_concurrency (atoi value) control,
               log ++ [SetConcurrency (atoi value)]))
        /\ (key = "open"%string ->
            parseKeyValue atof (control, log) token
            = (set_open (negb (atoi value =? 0)) control,
               log ++ [SetOpen (negb (atoi value =? 0))]))
        /\ (key <> "thinktime"%string -> key <> "concurrency"%string ->
            key <> "open"%string ->
            parseKeyValue atof (control, log) token
            = (control, log ++ [UnknownKey key]))).
Proof.
  split; [|split; [|split; [|split]]].
  - intros control log token. apply parseKeyValue_malformed.
  - intros st before token after Hbad st'.
    rewrite fold_left_app. fold st'. simpl fold_left.
    destruct st' as [control log].
    now rewrite parseKeyValue_malformed.
  - intros fuel prevInputSize input st newlineFound Hfound.
    simpl. now rewrite Hfound.
  - intros control lines carry. apply processInput_whole_lines.
  - intros control log token key value Hsplit.
    unfold parseKeyValue. rewrite Hsplit. cbn [List.length Nat.eqb negb nth].
    repeat split.
    + intros ->. reflexivity.
    + intros ->. reflexivity.
    + intros ->. reflexivity.
    + intros H1 H2 H3.
      apply String.eqb_neq in H1, H2, H3. now rewrite H1, H2, H3.
Qed.

Lemma malformed_tokens_are_skipped_witness :
  let atof := fun _ : string => 0.5%float in
  let control := initialControl "" 2 0 0%float false 10 in
  let arrived :=
    String.append "foo=bar=baz"
      (String newline
         (String.append "concurrency=5 bogus thinktime=0.5 open=1 colour=red"
            (String newline "open"))) in
  processInput atof "" control arrived
  = Some ("open"%string,
          (set_open true (set_thinkTime 0.5%float (set_concurrency 5 control)),
           [CannotParse "foo=bar=baz"; SetConcurrency 5; CannotParse "bogus";
            SetThinktime 0.5%float; SetOpen true; UnknownKey "colour"])).
Proof.
  intros atof control arrived.
  destruct (malformed_tokens_are_skipped atof) as (_ & _ & _ & Hlines & _).
  change arrived with
    (String.append
       (unlines ["foo=bar=baz"%string;
                 "concurrency=5 bogus thinktime=0.5 open=1 colour=red"%string])
       "open").
  rewrite Hlines.
  - reflexivity.
  - repeat constructor.
  - reflexivity.
Defined.

(** C8, at the input where the code departs from it.  The token
    [foo=bar=baz] arrives in two reads, [foo=bar=ba] first.  At the
    second read the token is logged and skipped, but the line after it,
    [open=1], is not parsed: the search for the next newline starts at
    the size the buffer had before the read (10), past the end of what
    is left of it (7 characters), so [processInput] returns with the
    line still in the buffer and [open] unchanged; a later call without
    new input returns at once, and the line is parsed only when more
    input arrives.  Had the two lines arrived whole, [open] would have
    been set at once. *)
Theorem carried_over_input_leaves_line_unparsed (atof : string -> double)
  (control : HttpClientControl) :
  let line2 := String.append "open=1" (String newline "") in
  processInput atof "" control "foo=bar=ba"
  = Some ("foo=bar=ba"%string, (control, []))
  /\ find_first_of (String.append "foo=bar=baz" (String newline line2)) newline 10
     = Some 11%nat
  /\ find_first_of line2 newline 10 = None
  /\ processInput atof "foo=bar=ba" control
       (String.append "z" (String newline line2))
     = Some (line2, (control, [CannotParse "foo=bar=baz"]))
  /\ processInput atof line2 control "" = Some (line2, (control, []))
  /\ processInput atof line2 control (String "x" (String newline ""))
     = Some (""%string, (set_open true control, [SetOpen true; CannotParse "x"]))
  /\ processInput atof "" control
       (String.append "foo=bar=baz" (String newline line2))
     = Some (""%string,
             (set_open true control, [CannotParse "foo=bar=baz"; SetOpen true])).
Proof.
  intros line2. subst line2.
  split; [reflexivity|]. split; [reflexivity|]. split; [reflexivity|].
  split; [|split; [|split]].
  - unfold processInput.
    change (Nat.eqb _ _) with false. cbv iota.
    change (String.length _) with 19%nat at 1.
    change (String.length "foo=bar=ba") with 10%nat.
    cbn [parseLines find_first_of String.append Ascii.eqb Bool.eqb option_map
         newline].
    reflexivity.
  - reflexivity.
  - reflexivity.
  - change (String.append "foo=bar=baz" _)
      with (String.append
              (unlines ["foo=bar=baz"%string; "open=1"%string]) "").
    rewrite processInput_whole_lines by (repeat constructor).
    reflexivity.
Qed.

(** ** The pool reconciliation *)

Lemma poolSize_small (p : Pool) :
  Z.of_nat (List.length (httpClientThreads p)) <= INT_MAX ->
  poolSize p = Z.of_nat (List.length (httpClientThreads p)).
Proof.
  intros H. unfold poolSize. rewrite to_int_to_size_t.
  apply to_int_id. unfold INT_MIN, INT_MAX in *. lia.
Qed.

Lemma growPool_enough (fuel : nat) (concurrency_ : Z) (p : Pool) :
  concurrency_ <= poolSize p -> growPool fuel concurrency_ p = Returns p.
Proof.
  intros H. destruct fuel; simpl;
    replace (poolSize p <? concurrency_) with false
      by (symmetry; apply Z.ltb_ge; lia); reflexivity.
Qed.

Lemma rev_nil_inv {A : Type} (l : list A) : rev l = [] -> l = [].
Proof.
  intros H. apply (f_equal (@List.length A)) in H.
  rewrite length_rev in H. now destruct l.
Qed.

Lemma length_removelast {A : Type} (l : list A) :
  List.length (removelast l) = (List.length l - 1)%nat.
Proof.
  induction l as [|x l IH]; [reflexivity|].
  destruct l as [|y l]; [reflexivity|].
  change (removelast (x :: y :: l)) with (x :: removelast (y :: l)).
  simpl List.length in *. rewrite IH. lia.
Qed.

(** With a negative target the second loop of the reconciliation does
    not stop at the empty vector: it reaches [back()] on it. *)
Lemma shrinkPool_negative (concurrency_ : Z) :
  concurrency_ < 0 ->
  forall fuel p,
    Z.of_nat (List.length (httpClientThreads p)) <= INT_MAX ->
    (List.length (httpClientThreads p) < fuel)%nat ->
    shrinkPool fuel concurrency_ p
    = Undefined "httpClientThreads.back() on an empty vector".
Proof.
  intros Hneg. induction fuel as [|fuel IH]; intros p Hmax Hfuel; [lia|].
  simpl. rewrite poolSize_small by assumption.
  replace (concurrency_ <? Z.of_nat (List.length (httpClientThreads p)))
    with true by (symmetry; apply Z.ltb_lt; lia).
  destruct (rev (httpClientThreads p)) as [|back older] eqn:E; [reflexivity|].
  assert (Hlen : (1 <= List.length (httpClientThreads p))%nat)
    by (rewrite <- length_rev, E; simpl; lia).
  apply IH; cbn [httpClientThreads]; rewrite length_removelast; lia.
Qed.

Lemma reconcile_negative (concurrency_ : Z) (p : Pool) :
  concurrency_ < 0 ->
  Z.of_nat (List.length (httpClientThreads p)) <= INT_MAX ->
  reconcile concurrency_ p
  = Undefined "httpClientThreads.back() on an empty vector".
Proof.
  intros Hneg Hmax. unfold reconcile.
  rewrite growPool_enough by (rewrite poolSize_small by assumption; lia).
  apply shrinkPool_negative; try assumption. lia.
Qed.

(** With the target zero the second loop empties the vector and stops,
    every thread having been signalled, the newest first. *)
Lemma shrinkPool_zero (fuel : nat) :
  forall p,
    Z.of_nat (List.length (httpClientThreads p)) <= INT_MAX ->
    (List.length (httpClientThreads p) < fuel)%nat ->
    shrinkPool fuel 0 p
    = Returns (mkPool [] (signalled p ++ rev (httpClientThreads p))).
Proof.
  induction fuel as [|fuel IH]; intros p Hmax Hfuel; [lia|].
  simpl. rewrite poolSize_small by assumption.
  destruct (rev (httpClientThreads p)) as [|back older] eqn:E.
  - apply rev_nil_inv in E. rewrite E. simpl.
    destruct p as [threads sig]; simpl in *. subst threads.
    now rewrite app_nil_r.
  - assert (Hlen : (1 <= List.length (httpClientThreads p))%nat).
    { rewrite <- length_rev, E. simpl. lia. }
    replace (0 <? Z.of_nat (List.length (httpClientThreads p)))
      with true by (symmetry; apply Z.ltb_lt; lia).
    rewrite IH by (cbn [httpClientThreads]; rewrite length_removelast; lia).
    cbn [httpClientThreads signalled].
    assert (Hl : httpClientThreads p = rev older ++ [back]).
    { rewrite <- (rev_involutive (httpClientThreads p)), E. reflexivity. }
    rewrite Hl, removelast_last, rev_involutive, <- app_assoc. reflexivity.
Qed.

Lemma reconcile_zero (p : Pool) :
  Z.of_nat (List.length (httpClientThreads p)) <= INT_MAX ->
  reconcile 0 p = Returns (mkPool [] (signalled p ++ rev (httpClientThreads p))).
Proof.
  intros Hmax. unfold reconcile.
  rewrite growPool_enough by (rewrite poolSize_small by assumption; lia).
  apply shrinkPool_zero; [assumption | lia].
Qed.

(** C3, at the input where the code departs from it.  The token
    [concurrency=-1] is accepted as it is.  But for every negative
    target, whatever the threads in the vector, the reconciliation does
    not end with an empty vector: its second loop goes on past the last
    thread and calls [back()] on the empty vector.  So does the round of
    [main] that reads the line [concurrency=-1] with two threads
    running. *)
Theorem negative_concurrency_empties_past_zero :
  (forall atof control log,
     parseKeyValue atof (control, log) "concurrency=-1"
     = (set_concurrency (-1) control, log ++ [SetConcurrency (-1)]))
  /\ (forall concurrency_ p,
        concurrency_ < 0 ->
        Z.of_nat (List.length (httpClientThreads p)) <= INT_MAX ->
        reconcile concurrency_ p
        = Undefined "httpClientThreads.back() on an empty vector")
  /\ (forall atof control lastReportTime totalRequests t_now,
        mainRound atof control lastReportTime totalRequests ""
          (mkPool [0; 1] []) t_now
          (String.append "concurrency=-1" (String newline ""))
        = Undefined "httpClientThreads.back() on an empty vector").
Proof.
  split; [|split].
  - intros atof control log. reflexivity.
  - intros concurrency_ p. apply reconcile_negative.
  - intros atof control lastReportTime totalRequests t_now.
    unfold mainRound. rewrite report_unfold.
    change (String.append "concurrency=-1" (String newline ""))
      with (String.append (unlines ["concurrency=-1"%string]) "").
    rewrite processInput_whole_lines by (repeat constructor).
    cbn [fold_left]. unfold parseLine.
    change (split _ "concurrency=-1") with ["concurrency=-1"%string].
    cbn [fold_left]. 
    change (parseKeyValue atof (?c, []) "concurrency=-1")
      with (set_concurrency (-1) c, [] ++ [SetConcurrency (-1)]).
    cbn [concurrency set_concurrency].
    rewrite reconcile_negative; [reflexivity | lia | unfold INT_MAX; simpl; lia].
Qed.

(** For a target that is not negative the reconciliation returns, with
    exactly that many threads in the vector. *)
Lemma growPool_reaches (concurrency_ : Z) :
  concurrency_ <= INT_MAX ->
  forall fuel p,
    Z.of_nat (List.length (httpClientThreads p)) + Z.of_nat fuel = concurrency_ ->
    exists p', growPool fuel concurrency_ p = Returns p'
               /\ Z.of_nat (List.length (httpClientThreads p')) = concurrency_.
Proof.
  intros Hmax. induction fuel as [|fuel IH]; intros p Hlen.
  - exists p. split; [|lia].
    apply growPool_enough. rewrite poolSize_small; lia.
  - simpl. rewrite poolSize_small by lia.
    replace (Z.of_nat (List.length (httpClientThreads p)) <? concurrency_)
      with true by (symmetry; apply Z.ltb_lt; lia).
    apply IH. cbn [httpClientThreads]. rewrite length_app. simpl List.length. lia.
Qed.

Lemma shrinkPool_reaches (concurrency_ : Z) :
  0 <= concurrency_ ->
  forall fuel p,
    Z.of_nat (List.length (httpClientThreads p)) <= INT_MAX ->
    (List.length (httpClientThreads p) < fuel)%nat ->
    concurrency_ <= Z.of_nat (List.length (httpClientThreads p)) ->
    exists p', shrinkPool fuel concurrency_ p = Returns p'
               /\ Z.of_nat (List.length (httpClientThreads p')) = concurrency_.
Proof.
  intros Hpos. induction fuel as [|fuel IH]; intros p Hmax Hfuel Hlen; [lia|].
  simpl. rewrite poolSize_small by assumption.
  destruct (concurrency_ <? Z.of_nat (List.length (httpClientThreads p))) eqn:E.
  - apply Z.ltb_lt in E.
    destruct (rev (httpClientThreads p)) as [|back older] eqn:Er.
    + apply rev_nil_inv in Er. rewrite Er in E. simpl in E. lia.
    + apply IH; cbn [httpClientThreads]; rewrite length_removelast; lia.
  - apply Z.ltb_ge in E. exists p. split; [reflexivity | lia].
Qed.

Theorem reconcile_reaches_target (concurrency_ : Z) (p : Pool) :
  0 <= concurrency_ <= INT_MAX ->
  Z.of_nat (List.length (httpClientThreads p)) <= INT_MAX ->
  exists p', reconcile concurrency_ p = Returns p'
             /\ Z.of_nat (List.length (httpClientThreads p')) = concurrency_.
Proof.
  intros [Hpos Hmax] Hlen. unfold reconcile.
  rewrite poolSize_small by assumption.
  destruct (Z.le_gt_cases (Z.of_nat (List.length (httpClientThreads p))) concurrency_)
    as [Hgrow|Hshrink].
  - destruct (growPool_reaches concurrency_ Hmax
                (Z.to_nat (concurrency_ - Z.of_nat (List.length (httpClientThreads p))))
                p) as (p' & -> & Hp'); [lia|].
    apply shrinkPool_reaches; lia.
  - rewrite growPool_enough by (rewrite poolSize_small by assumption; lia).
    apply shrinkPool_reaches; lia.
Qed.

Lemma reconcile_reaches_target_witness :
  reconcile 5 (mkPool [0; 1] []) = Returns (mkPool [0; 1; 2; 3; 4] [])
  /\ reconcile 1 (mkPool [0; 1; 2] []) = Returns (mkPool [0] [2; 1])
  /\ exists p', reconcile 5 (mkPool [0; 1] []) = Returns p'
                /\ Z.of_nat (List.length (httpClientThreads p')) = 5.
Proof.
  split; [reflexivity | split; [reflexivity|]].
  apply (reconcile_reaches_target 5 (mkPool [0; 1] []));
    unfold INT_MAX; simpl; lia.
Defined.

(** ** The extremes and the tail statistics of ordered samples *)

Section OrderedTails.

Context {T : Type} {V : ValueType T} {ordinary : T -> Prop}.
Context {L : OrderLaws V ordinary}.

Local Abbreviation ordered := (ordered_by ordinary).



Lemma quartiles_unfold (a : vector T) :
  (1 <= List.length a)%nat -> size a <= INT_MAX ->
  quartiles a =
  (sort a,
   [nth_error (sort a) 0;
    median (sort a) 0 (Z.of_nat (List.length a / 2));
    median (sort a) 0 (Z.of_nat (List.length a));
    median (sort a) (Z.of_nat (List.length a / 2)) (Z.of_nat (List.length a));
    nth_error (sort a) (List.length a - 1)]).
Proof.
  intros Hn Hmax.
  assert (Hs : size a = Z.of_nat (List.length a)) by reflexivity.
  unfold INT_MAX in Hmax. unfold quartiles.
  rewrite (to_size_t_id (size a)) by lia.
  replace (size a <? 1) with false by (symmetry; apply Z.ltb_ge; lia).
  cbv zeta. rewrite size_sort, Hs, !Z.add_0_l.
  replace (Z.of_nat (List.length a) / 2) with (Z.of_nat (List.length a / 2))
    by (rewrite Nat2Z.inj_div; reflexivity).
  replace (Z.of_nat (List.length a) - 1) with (Z.of_nat (List.length a - 1))
    by lia.
  change 0 with (Z.of_nat 0) at 1.
  rewrite !deref_in_range by (rewrite length_sort; lia).
  reflexivity.
Qed.

Lemma percentiles_unfold (a : vector T) :
  (1 <= List.length a)%nat -> size a <= INT_MAX ->
  percentiles a =
  (sort a,
   [median (sort a) (Z.of_nat (90 * List.length a / 100))
      (Z.of_nat (List.length a));
    median (sort a) (Z.of_nat (98 * List.length a / 100))
      (Z.of_nat (List.length a))]).
Proof.
  intros Hn Hmax.
  assert (Hs : size a = Z.of_nat (List.length a)) by reflexivity.
  unfold INT_MAX in Hmax. unfold percentiles.
  rewrite (to_size_t_id (size a)) by lia.
  replace (size a <? 1) with false by (symmetry; apply Z.ltb_ge; lia).
  rewrite !to_size_t_id by lia.
  rewrite size_sort, Hs, !Z.add_0_l.
  replace (90 * Z.of_nat (List.length a) / 100)
    with (Z.of_nat (90 * List.length a / 100))
    by (rewrite Nat2Z.inj_div, Nat2Z.inj_mul; reflexivity).
  replace (98 * Z.of_nat (List.length a) / 100)
    with (Z.of_nat (98 * List.length a / 100))
    by (rewrite Nat2Z.inj_div, Nat2Z.inj_mul; reflexivity).
  reflexivity.
Qed.


(** The median, the two tail statistics and the maximum ascend:
    median <= first tail statistic <= second tail statistic <= maximum,
    for every non-empty sequence of ordinary samples. *)
Theorem tail_statistics_ascend (a : vector T) :
  (1 <= List.length a)%nat -> size a <= INT_MAX -> Forall ordinary a ->
  exists r0 r1 q2 r3 q4 p0 p1,
    snd (quartiles a) = [r0; r1; Some q2; r3; Some q4]
    /\ snd (percentiles (fst (quartiles a))) = [Some p0; Some p1]
    /\ v_le q2 p0 /\ v_le p0 p1 /\ v_le p1 q4.
Proof.
  intros Hn Hmax Hord.
  destruct (sort_sorted a Hord) as [Hso Hss].
  pose proof (length_sort a) as Hlen.
  pose proof (size_sort a) as Hsize.
  assert (Hmax' : size (sort a) <= INT_MAX) by (rewrite Hsize; assumption).
  rewrite quartiles_unfold by assumption. cbn [fst snd].
  rewrite percentiles_unfold by (rewrite ?Hlen, ?Hsize; assumption).
  rewrite (sort_idempotent a Hord), Hlen. cbn [snd].
  set (n := List.length a) in *.
  assert (H90 : (90 * n / 100 < n)%nat)
    by (apply Nat.Div0.div_lt_upper_bound; lia).
  assert (H98 : (98 * n / 100 < n)%nat)
    by (apply Nat.Div0.div_lt_upper_bound; lia).
  assert (Hle : (90 * n / 100 <= 98 * n / 100)%nat)
    by (apply Nat.Div0.div_le_mono; lia).
  destruct (median_between_middles (sort a) 0 n Hso Hss ltac:(lia) Hmax')
    as (q2 & lo2 & hi2 & Em2 & Hlo2 & Hhi2 & Hq2a & Hq2b).
  change (Z.of_nat 0) with 0 in Em2. rewrite Em2.
  destruct (median_between_middles (sort a) (90 * n / 100) n Hso Hss
              ltac:(lia) Hmax')
    as (p0 & lo0 & hi0 & Ep0 & Hlo0 & Hhi0 & Hp0a & Hp0b).
  destruct (median_between_middles (sort a) (98 * n / 100) n Hso Hss
              ltac:(lia) Hmax')
    as (p1 & lo1 & hi1 & Ep1 & Hlo1 & Hhi1 & Hp1a & Hp1b).
  rewrite Ep0, Ep1.
  destruct (nth_error (sort a) (n - 1)) as [q4|] eqn:E4;
    [|apply nth_error_None in E4; lia].
  exists (nth_error (sort a) 0), (median (sort a) 0 (Z.of_nat (n / 2))), q2,
    (median (sort a) (Z.of_nat (n / 2)) (Z.of_nat n)), q4, p0, p1.
  split; [reflexivity|]. split; [reflexivity|].
  set (b0 := (90 * n / 100)%nat) in *. set (b1 := (98 * n / 100)%nat) in *.
  pose proof (Nat.div_mod (n - 0) 2 ltac:(lia)) as D1.
  pose proof (Nat.mod_upper_bound (n - 0) 2 ltac:(lia)) as D1'.
  pose proof (Nat.div_mod (n - b0 - 1) 2 ltac:(lia)) as D2.
  pose proof (Nat.mod_upper_bound (n - b0 - 1) 2 ltac:(lia)) as D2'.
  pose proof (Nat.div_mod (n - b0) 2 ltac:(lia)) as D3.
  pose proof (Nat.mod_upper_bound (n - b0) 2 ltac:(lia)) as D3'.
  pose proof (Nat.div_mod (n - b1 - 1) 2 ltac:(lia)) as D4.
  pose proof (Nat.mod_upper_bound (n - b1 - 1) 2 ltac:(lia)) as D4'.
  pose proof (Nat.div_mod (n - b1) 2 ltac:(lia)) as D5.
  pose proof (Nat.mod_upper_bound (n - b1) 2 ltac:(lia)) as D5'.
  assert (Hb0 : (n = 1 /\ b0 = 0 \/ 1 <= b0)%nat).
  { destruct (Nat.eq_dec n 1) as [->|Hn1]; [left; split; reflexivity|].
    right. unfold b0. apply Nat.div_le_lower_bound; lia. }
  assert (H1 : ordered q2 p0).
  { apply ordered_trans with hi2; [assumption|].
    apply ordered_trans with lo0; [|assumption].
    apply (sorted_nth _ Hso Hss (0 + (n - 0) / 2) (b0 + (n - b0 - 1) / 2));
      (lia || assumption). }
  assert (H2 : ordered p0 p1).
  { destruct (Nat.eq_dec b0 b1) as [Heq|Hne].
    - assert (Hp : p0 = p1) by (rewrite Heq in Ep0; congruence).
      rewrite <- Hp. apply ordered_refl. apply Hp0a.
    - apply ordered_trans with hi0; [assumption|].
      apply ordered_trans with lo1; [|assumption].
      apply (sorted_nth _ Hso Hss (b0 + (n - b0) / 2) (b1 + (n - b1 - 1) / 2));
        (lia || assumption). }
  assert (H3 : ordered p1 q4).
  { apply ordered_trans with hi1; [assumption|].
    apply (sorted_nth _ Hso Hss (b1 + (n - b1) / 2) (n - 1));
      (lia || assumption). }
  repeat split; [apply H1 | apply H2 | apply H3].
Qed.

End OrderedTails.


Lemma tail_statistics_ascend_witness :
  exists r0 r1 q2 r3 q4 p0 p1,
    snd (quartiles [Some 3%Q; Some 1%Q; Some 2%Q])
    = [r0; r1; Some q2; r3; Some q4]
    /\ snd (percentiles (fst (quartiles [Some 3%Q; Some 1%Q; Some 2%Q])))
       = [Some p0; Some p1]
    /\ v_le q2 p0 /\ v_le p0 p1 /\ v_le p1 q4.
Proof.
  apply (tail_statistics_ascend (ordinary := is_rational)).
  - simpl; lia.
  - unfold size, INT_MAX; simpl; lia.
  - repeat constructor; discriminate.
Defined.

(** ** The response classifier *)

Lemma flagsOf_app (a b : list Z) :
  flagsOf (a ++ b) = Z.lor (flagsOf a) (flagsOf b).
Proof.
  unfold flagsOf. rewrite !existsb_app.
  destruct (existsb (Z.eqb OptionalStuffMarker1) a),
           (existsb (Z.eqb OptionalStuffMarker1) b),
           (existsb (Z.eqb OptionalStuffMarker2) a),
           (existsb (Z.eqb OptionalStuffMarker2) b); reflexivity.
Qed.

Lemma nullWriter_piece (piece : list Z) (optionalStuff : Z) :
  Z.of_nat (List.length piece) < 2^64 ->
  nullWriter piece 1 (Z.of_nat (List.length piece)) optionalStuff
  = (Z.of_nat (List.length piece), Z.lor optionalStuff (flagsOf piece)).
Proof.
  intros Hlen. unfold nullWriter, memchr_found, flagsOf.
  rewrite Z.mul_1_l, to_size_t_id by lia.
  rewrite Nat2Z.id, firstn_all.
  change (OptionalStuffMarker1 mod 256) with OptionalStuffMarker1.
  change (OptionalStuffMarker2 mod 256) with OptionalStuffMarker2.
  f_equal.
  destruct (existsb (Z.eqb OptionalStuffMarker1) piece),
           (existsb (Z.eqb OptionalStuffMarker2) piece);
    rewrite ?Z.lor_0_r, ?Z.lor_0_l, ?Z.lor_assoc; reflexivity.
Qed.

Lemma receiveBody_from (pieces : list (list Z)) :
  Forall (fun piece => Z.of_nat (List.length piece) < 2^64) pieces ->
  forall optionalStuff,
    fold_left
      (fun optionalStuff piece =>
         snd (nullWriter piece 1 (Z.of_nat (List.length piece)) optionalStuff))
      pieces optionalStuff
    = Z.lor optionalStuff (flagsOf (List.concat pieces)).
Proof.
  induction 1 as [|piece pieces Hp Hps IH]; intros optionalStuff;
    cbn [fold_left List.concat].
  - unfold flagsOf; simpl. now rewrite Z.lor_0_r.
  - rewrite nullWriter_piece by assumption. cbn [snd].
    now rewrite IH, flagsOf_app, Z.lor_assoc.
Qed.

(** However the transfer cuts the body into pieces, the flags the
    writer leaves are those of the whole body: the first flag is set
    exactly when the byte 128 occurs in it, the second exactly when the
    byte 129 does; every piece is reported as consumed in full; and the
    worker then counts the request under a marker exactly when the body
    holds that marker. *)
Theorem classification_ignores_pieces (pieces : list (list Z))
  (error : bool) (lastLatency : double) (control : HttpClientControl) :
  Forall (fun piece => Z.of_nat (List.length piece) < 2^64) pieces ->
  let body := List.concat pieces in
  let recorded := recordResult error (receiveBody pieces) lastLatency control in
  receiveBody pieces = flagsOf body
  /\ (forall piece optionalStuff, In piece pieces ->
        fst (nullWriter piece 1 (Z.of_nat (List.length piece)) optionalStuff)
        = Z.of_nat (List.length piece))
  /\ numOptionalStuff1 recorded
     = (if existsb (Z.eqb 128) body
        then to_uint32 (numOptionalStuff1 control + 1)
        else numOptionalStuff1 control)
  /\ numOptionalStuff2 recorded
     = (if existsb (Z.eqb 129) body
        then to_uint32 (numOptionalStuff2 control + 1)
        else numOptionalStuff2 control).
Proof.
  intros Hlen body recorded.
  assert (Hflags : receiveBody pieces = flagsOf body).
  { unfold receiveBody. rewrite receiveBody_from by assumption.
    apply Z.lor_0_l. }
  split; [exact Hflags|]. split.
  - intros piece optionalStuff Hin. rewrite Forall_forall in Hlen.
    rewrite nullWriter_piece by (apply Hlen; assumption). reflexivity.
  - subst recorded. unfold recordResult. cbn [numOptionalStuff1
      numOptionalStuff2 set_statistics].
    rewrite Hflags. unfold flagsOf.
    change OptionalStuffMarker1 with 128. change OptionalStuffMarker2 with 129.
    destruct (existsb (Z.eqb 128) body), (existsb (Z.eqb 129) body);
      split; reflexivity.
Qed.

Lemma classification_ignores_pieces_witness :
  receiveBody [[60; 128]; [104; 105]; [129; 62]] = 3
  /\ receiveBody [[60; 128; 104; 105; 129; 62]] = 3
  /\ receiveBody [[60; 104]; [105; 62]] = 0.
Proof.
  destruct (classification_ignores_pieces [[60; 128]; [104; 105]; [129; 62]]
              false 0%float (initialControl "" 1 0 0%float false 1))
    as (H1 & _); [repeat constructor|].
  destruct (classification_ignores_pieces [[60; 128; 104; 105; 129; 62]]
              false 0%float (initialControl "" 1 0 0%float false 1))
    as (H2 & _); [repeat constructor|].
  split; [rewrite H1; reflexivity | split; [rewrite H2; reflexivity | reflexivity]].
Defined.

(** ** What a report finds under the lock *)

Lemma counter32_snoc (p : bool * Z * double -> bool)
  (results : list (bool * Z * double)) (r : bool * Z * double) :
  counter32 p (results ++ [r])
  = (if p r then to_uint32 (counter32 p results + 1) else counter32 p results).
Proof.
  unfold counter32, to_uint32. rewrite filter_app, length_app. simpl filter.
  destruct (p r); simpl List.length.
  - rewrite Zplus_mod_idemp_l. f_equal. lia.
  - f_equal. lia.
Qed.

Lemma summary_recordResult (control : HttpClientControl)
  (results : list (bool * Z * double)) (error : bool) (optionalStuff : Z)
  (lastLatency : double) :
  statistics control = summary results ->
  statistics (recordResult error optionalStuff lastLatency control)
  = summary (results ++ [(error, optionalStuff, lastLatency)]).
Proof.
  unfold statistics, summary. intros [= He H1 H2 Hl].
  unfold recordResult. cbn [numErrors numOptionalStuff1 numOptionalStuff2
    latencies set_statistics].
  rewrite !counter32_snoc, map_app, He, H1, H2, Hl. cbn [fst snd map].
  destruct error, (Z.land optionalStuff OPTIONAL_STUFF1 =? 0),
    (Z.land optionalStuff OPTIONAL_STUFF2 =? 0); reflexivity.
Qed.

Lemma summary_history (actions : list Action) :
  forall control pending,
    statistics control = summary pending ->
    statistics (fold_left act actions control)
    = summary (pendingResults actions pending).
Proof.
  induction actions as [|a actions IH]; intros control pending H; [exact H|].
  simpl fold_left. destruct a as [env w|lrt total t_now|atof prevInput arrived].
  - simpl pendingResults. simpl act.
    pose proof (statistics_httpClientMain env control w) as Hw.
    destruct (location w); apply IH; try congruence.
    rewrite Hw. now apply summary_recordResult.
  - simpl pendingResults. apply IH.
    simpl act. rewrite report_unfold. reflexivity.
  - simpl pendingResults. apply IH.
    pose proof (statistics_quiet control (Input atof prevInput arrived) eq_refl)
      as Hq.
    simpl in Hq. simpl act. congruence.
Qed.

(** What a report finds under the lock is what the workers recorded
    since the report before, whatever else happened: the latencies of
    those results in the order they were recorded, and in the three
    counters the number of failed results and of results under each
    marker, as 32-bit counters hold them. *)
Theorem interval_holds_results_since_last_report (actions : list Action)
  (url_ : string) (concurrency_ timeout_ : Z) (thinkTime_ : double)
  (open_ : bool) (numRequestsLeft_ : Z) :
  let control :=
    fold_left act actions
      (initialControl url_ concurrency_ timeout_ thinkTime_ open_
         numRequestsLeft_) in
  let results := pendingResults actions [] in
  latencies control = map snd results
  /\ numErrors control = counter32 (fun r => fst (fst r)) results
  /\ numOptionalStuff1 control
     = counter32 (fun r => negb (Z.land (snd (fst r)) OPTIONAL_STUFF1 =? 0))
         results
  /\ numOptionalStuff2 control
     = counter32 (fun r => negb (Z.land (snd (fst r)) OPTIONAL_STUFF2 =? 0))
         results.
Proof.
  intros control results.
  assert (H : statistics control = summary results).
  { subst control results. apply summary_history. reflexivity. }
  unfold statistics, summary in H. injection H as He H1 H2 Hl.
  repeat split; assumption.
Qed.

(** ** What each part of the program leaves alone *)

Lemma frame_parseKeyValue (atof : string -> double) (st : Reconfiguration)
  (token : string) :
  let control := fst st in
  let control' := fst (parseKeyValue atof st token) in
  url control' = url control /\ timeout control' = timeout control
  /\ running control' = running control
  /\ numOpenQueuing control' = numOpenQueuing control
  /\ numRequestsLeft control' = numRequestsLeft control.
Proof.
  destruct st as [control log]. unfold parseKeyValue. cbn [fst].
  destruct (negb _); [repeat split|].
  repeat (destruct (String.eqb _ _); [repeat split|]).
  repeat split.
Qed.

Lemma frame_parseLine (atof : string -> double) (line : string)
  (st : Reconfiguration) :
  let control := fst st in
  let control' := fst (parseLine atof st line) in
  url control' = url control /\ timeout control' = timeout control
  /\ running control' = running control
  /\ numOpenQueuing control' = numOpenQueuing control
  /\ numRequestsLeft control' = numRequestsLeft control.
Proof.
  unfold parseLine.
  generalize (split (is_any_of (String " " (String newline EmptyString))) line).
  intros tokens; revert st.
  induction tokens as [|token tokens IH]; intros st; [repeat split|].
  simpl fold_left.
  destruct (IH (parseKeyValue atof st token)) as (H1 & H2 & H3 & H4 & H5).
  destruct (frame_parseKeyValue atof st token) as (G1 & G2 & G3 & G4 & G5).
  cbv zeta in *. repeat split; congruence.
Qed.

Lemma frame_parseLines (atof : string -> double) (fuel prevInputSize : nat) :
  forall input st input' st',
    parseLines atof fuel prevInputSize input st = Some (input', st') ->
    url (fst st') = url (fst st) /\ timeout (fst st') = timeout (fst st)
    /\ running (fst st') = running (fst st)
    /\ numOpenQueuing (fst st') = numOpenQueuing (fst st)
    /\ numRequestsLeft (fst st') = numRequestsLeft (fst st).
Proof.
  induction fuel as [|fuel IH]; intros input st input' st'; simpl.
  - destruct (find_first_of input newline prevInputSize); [discriminate|].
    intros [= _ <-]. repeat split.
  - destruct (find_first_of input newline prevInputSize) as [n|].
    + intros H. apply IH in H. destruct H as (H1 & H2 & H3 & H4 & H5).
      destruct (frame_parseLine atof (substr0 input n) st)
        as (G1 & G2 & G3 & G4 & G5).
      cbv zeta in *. repeat split; congruence.
    + intros [= _ <-]. repeat split.
Qed.

Lemma frame_httpClientMain (env : Environment) (control : HttpClientControl)
  (w : Worker) :
  let control' := fst (fst (httpClientMain env control w)) in
  url control' = url control /\ timeout control' = timeout control
  /\ thinkTime control' = thinkTime control
  /\ running control' = running control
  /\ concurrency control' = concurrency control
  /\ open control' = open control.
Proof.
  unfold httpClientMain, decrementRequestsLeft, thinkInterval.
  destruct (location w); cbv zeta.
  - destruct (0 <=? _); repeat split.
  - destruct (PrimFloat.ltb 0 (thinkTime control)); [|repeat split].
    destruct (open control) eqn:Ho.
    + destruct (PrimFloat.eqb _ _); destruct (0 <? signo env);
        cbn; rewrite ?Ho; repeat split.
    + destruct (0 <? signo env); cbn; rewrite ?Ho; repeat split.
  - repeat split.
  - repeat split.
  - repeat split.
Qed.

(** Who writes what.  A worker step never changes the configuration
    ([url], [timeout], [thinkTime], [concurrency], [open]) nor
    [running]; a report changes nothing but the four fields under the
    mutex; reading the reconfiguration input never changes the
    statistics, the two atomic counters, [url], [timeout] or
    [running]. *)
Theorem writers_of_the_control_structure (control : HttpClientControl)
  (a : Action) :
  let control' := act control a in
  url control' = url control /\ timeout control' = timeout control
  /\ running control' = running control
  /\ match a with
     | WorkerStep _ _ =>
         thinkTime control' = thinkTime control
         /\ concurrency control' = concurrency control
         /\ open control' = open control
     | Report _ _ _ =>
         control' = set_statistics 0 0 0 [] control
     | Input _ _ _ =>
         statistics control' = statistics control
         /\ numOpenQueuing control' = numOpenQueuing control
         /\ numRequestsLeft control' = numRequestsLeft control
     end.
Proof.
  destruct a as [env w|lrt total t_now|atof prevInput arrived]; cbv zeta.
  - destruct (frame_httpClientMain env control w) as (H1 & H2 & H3 & H4 & H5 & H6).
    simpl act. repeat split; assumption.
  - simpl act. rewrite report_unfold. repeat split.
  - simpl act.
    destruct (processInput atof prevInput control arrived)
      as [[input' st']|] eqn:E; [|repeat split].
    pose proof (statistics_processInput _ _ _ _ _ _ E) as Hs.
    unfold processInput in E.
    destruct (Nat.eqb _ _).
    + injection E as _ <-. repeat split.
    + apply frame_parseLines in E. destruct E as (H1 & H2 & H3 & H4 & H5).
      destruct st' as [control' log]. cbn [fst] in *.
      repeat split; assumption.
Qed.

(** ** The running total of [main] *)

Lemma happen_stuck (atof : string -> double) (hs : list Happening)
  (o : Outcome MainState) :
  (forall st, o <> Returns st) -> fold_left (happen atof) hs o = o.
Proof.
  revert o. induction hs as [|h hs IH]; intros o Ho; [reflexivity|].
  simpl. destruct o as [st| |]; [now destruct (Ho st)| |]; simpl; apply IH;
    intros ?; discriminate.
Qed.

Lemma samplesRecorded_cons (h : Happening) (hs : list Happening) :
  samplesRecorded (h :: hs)
  = match h with
    | WorkerMoves _ w =>
        match location w with AtRecord _ _ _ => 1 | _ => 0 end
    | MainWakes _ _ _ => 0
    end + samplesRecorded hs.
Proof.
  unfold samplesRecorded. simpl filter.
  destruct h as [env w|]; [destruct (location w)|]; simpl List.length; lia.
Qed.

Lemma samplesRecorded_nonneg (hs : list Happening) : 0 <= samplesRecorded hs.
Proof. unfold samplesRecorded. lia. Qed.

Lemma latencies_httpClientMain (env : Environment) (control : HttpClientControl)
  (w : Worker) :
  size (latencies (fst (fst (httpClientMain env control w))))
  = size (latencies control)
    + match location w with AtRecord _ _ _ => 1 | _ => 0 end.
Proof.
  pose proof (statistics_httpClientMain env control w) as H.
  destruct (location w);
    try (unfold statistics in H; injection H as _ _ _ ->; lia).
  rewrite H. unfold recordResult, size. cbn [latencies set_statistics].
  rewrite length_app. simpl List.length. lia.
Qed.

Lemma total_after_report (total n : Z) :
  0 <= total -> 0 <= n -> total + n <= INT_MAX ->
  to_int (to_size_t (to_size_t total + to_size_t n)) = total + n.
Proof.
  unfold INT_MAX. intros Ht Hn Hmax.
  rewrite to_int_to_size_t, !to_size_t_id by lia.
  apply to_int_id. unfold INT_MIN, INT_MAX. lia.
Qed.

Lemma mainLoopRound_total (atof : string -> double) (st st' : MainState)
  (signo_ : Z) (t_now : double) (arrived : string) :
  mainLoopRound atof st signo_ t_now arrived = Returns st' ->
  0 <= totalRequests_ st ->
  totalRequests_ st + size (latencies (mainControl st)) <= INT_MAX ->
  0 <= totalRequests_ st'
  /\ totalRequests_ st' + size (latencies (mainControl st'))
     = totalRequests_ st + size (latencies (mainControl st)).
Proof.
  unfold mainLoopRound. intros H Hpos Hmax.
  destruct (running (mainControl st) && (0 <? numRequestsLeft (mainControl st)));
    [|injection H as <-; split; [assumption | reflexivity]].
  unfold mainRound in H. rewrite report_unfold in H.
  match type of H with
  | context [processInput ?a ?i ?c ?x] =>
      destruct (processInput a i c x) as [[input' [control' log]]|] eqn:E;
        [|discriminate]
  end.
  apply statistics_processInput in E. cbn [fst] in E.
  destruct (reconcile (concurrency control') (mainPool st)); try discriminate.
  injection H as <-. cbn [totalRequests_ mainControl].
  unfold statistics in E. injection E as _ _ _ ->.
  assert (Hl : latencies (if 0 <? signo_
                          then set_running false (mainControl st)
                          else mainControl st) = latencies (mainControl st))
    by (destruct (0 <? signo_); reflexivity).
  rewrite Hl.
  pose proof (size_nonneg (latencies (mainControl st))) as Hn.
  rewrite total_after_report by assumption.
  destruct (0 <? signo_); cbn [latencies set_statistics set_running];
    change (size []) with 0; lia.
Qed.

Lemma total_along (atof : string -> double) (hs : list Happening) :
  forall st st',
    fold_left (happen atof) hs (Returns st) = Returns st' ->
    0 <= totalRequests_ st ->
    totalRequests_ st + size (latencies (mainControl st)) + samplesRecorded hs
    <= INT_MAX ->
    0 <= totalRequests_ st'
    /\ totalRequests_ st' + size (latencies (mainControl st'))
       = totalRequests_ st + size (latencies (mainControl st))
         + samplesRecorded hs.
Proof.
  induction hs as [|h hs IH]; intros st st' H Hpos Hmax.
  - injection H as <-. change (samplesRecorded []) with 0. lia.
  - cbn [fold_left] in H. rewrite samplesRecorded_cons in *.
    pose proof (samplesRecorded_nonneg hs) as Hs.
    destruct (happen atof (Returns st) h) as [st1| |] eqn:E;
      [|rewrite happen_stuck in H by (intros ?; discriminate); discriminate H ..].
    destruct h as [env w|signo_ t_now arrived]; simpl in E.
    + injection E as <-.
      apply IH in H; cbn [totalRequests_ mainControl] in *;
        rewrite ?latencies_httpClientMain; [|assumption|lia].
      rewrite latencies_httpClientMain in H. lia.
    + pose proof (size_nonneg (latencies (mainControl st))) as Hn.
      apply mainLoopRound_total in E; [|assumption|lia].
      destruct E as [E1 E2].
      apply IH in H; [|assumption|lia]. lia.
Qed.

(** The total of the last report.  Whatever happens while [main] is in
    its loop (worker steps, rounds of the loop with or without a signal
    or input), when [main] then leaves the loop without undefined
    behaviour, the final report prints as [total] the number of samples
    the workers have recorded, and leaves no sample behind (the number
    being within [int]). *)
Theorem final_total_counts_recorded_samples (atof : string -> double)
  (url_ : string) (concurrency_ timeout_ : Z) (thinkTime_ : double)
  (open_ : bool) (numRequestsLeft_ : Z) (t_start t_end : double)
  (hs : list Happening) (st : MainState) :
  fold_left (happen atof) hs
    (Returns (mainStart (initialControl url_ concurrency_ timeout_ thinkTime_
                           open_ numRequestsLeft_) t_start))
  = Returns st ->
  samplesRecorded hs <= INT_MAX ->
  totalRequests_ (fst (mainCleanup st t_end)) = samplesRecorded hs
  /\ In ("total"%string, [ArgInt (samplesRecorded hs)])
        (snd (mainCleanup st t_end))
  /\ latencies (mainControl (fst (mainCleanup st t_end))) = [].
Proof.
  intros H Hmax. apply total_along in H; cbn [totalRequests_ mainControl
    mainStart initialControl latencies] in *; change (size []) with 0 in *;
    [|lia|lia].
  destruct H as [Hpos Htot].
  pose proof (size_nonneg (latencies (mainControl st))) as Hn.
  unfold mainCleanup. rewrite report_unfold. cbn [fst snd totalRequests_
    mainControl].
  rewrite total_after_report by lia.
  split; [lia|]. split; [|reflexivity].
  unfold reportLine. rewrite total_after_report by lia.
  replace (samplesRecorded hs)
    with (totalRequests_ st + size (latencies (mainControl st))) by lia.
  simpl. tauto.
Qed.

Lemma final_total_counts_recorded_samples_witness :
  exists st,
    fold_left (happen (fun _ => 0%float))
      [WorkerMoves calm (mkWorker 0 0%float 0%float (AtRecord false 0 0.25%float));
       MainWakes 0 1%float "";
       WorkerMoves calm (mkWorker 0 0%float 0%float (AtRecord true 1 0.5%float))]
      (Returns (mainStart (initialControl "" 1 0 0%float false 5) 0%float))
    = Returns st
    /\ totalRequests_ (fst (mainCleanup st 2%float)) = 2.
Proof.
  eexists. split; [reflexivity|].
  exact (proj1 (final_total_counts_recorded_samples (fun _ => 0%float)
                  "" 1 0 0%float false 5 0%float 2%float
                  [WorkerMoves calm (mkWorker 0 0%float 0%float (AtRecord false 0 0.25%float));
                   MainWakes 0 1%float "";
                   WorkerMoves calm (mkWorker 0 0%float 0%float (AtRecord true 1 0.5%float))]
                  _ eq_refl ltac:(vm_compute; discriminate))).
Defined.

(** ** The pool under signals *)

(** What one step of a thread does, whether or not a signal arrives. *)
Lemma httpClientMain_any (env : Environment) (control : HttpClientControl)
  (w : Worker) :
  let result := httpClientMain env control w in
  let control' := fst (fst result) in
  let w' := snd (fst result) in
  let events := snd result in
  match location w with
  | AtLoopTest =>
      let v := to_int (numRequestsLeft control - 1) in
      numRequestsLeft control' = v
      /\ filter is_Send events = []
      /\ location w' = (if 0 <=? v then AtThink else Exited)
  | AtThink =>
      numRequestsLeft control' = numRequestsLeft control
      /\ filter is_Send events = []
      /\ (location w' = AtSend \/ location w' = Exited)
  | AtSend =>
      numRequestsLeft control' = numRequestsLeft control
      /\ filter is_Send events = [Send (id w)]
      /\ location w' = AtRecord (curlError env) (markers env) (elapsed env)
  | AtRecord _ _ _ =>
      numRequestsLeft control' = numRequestsLeft control
      /\ filter is_Send events = []
      /\ location w' = AtLoopTest
  | Exited =>
      numRequestsLeft control' = numRequestsLeft control
      /\ filter is_Send events = []
      /\ location w' = Exited
  end.
Proof.
  unfold httpClientMain, decrementRequestsLeft, thinkInterval.
  destruct (location w) eqn:Hloc; cbv zeta.
  - destruct (0 <=? _); repeat split.
  - destruct (PrimFloat.ltb 0 (thinkTime control)); [|repeat split; now left].
    destruct (open control).
    + destruct (PrimFloat.eqb _ _); destruct (0 <? signo env);
        repeat split; auto.
    + destruct (0 <? signo env); repeat split; auto.
  - repeat split.
  - repeat split.
  - repeat split. assumption.
Qed.

Lemma requestsSent_app (c : HttpClientControl) (p : list Worker)
  (events t : list Event) :
  requestsSent (mkSystem c p (events ++ t))
  = Z.of_nat (List.length (filter is_Send events))
    + requestsSent (mkSystem c p t).
Proof.
  unfold requestsSent. cbn [trace]. rewrite filter_app, length_app. lia.
Qed.

Lemma recording_range (w : Worker) : 0 <= recording w <= 1.
Proof. unfold recording. destruct (location w); lia. Qed.

Lemma capInvariant_step (budget : Z) (s : System) (move : nat * Environment) :
  0 <= budget <= INT_MAX ->
  Z.of_nat (List.length (pool s)) <= INT_MAX ->
  capInvariant budget s ->
  capInvariant budget (step s move)
  /\ List.length (pool (step s move)) = List.length (pool s).
Proof.
  intros Hbudget Hlen Hinv.
  destruct move as [i env]. unfold step. cbn [fst snd] in *.
  destruct (nth_error (pool s) i) as [w|] eqn:Hw;
    [|split; [assumption | reflexivity]].
  pose proof (httpClientMain_any env (shared s) w) as Hsum.
  destruct (httpClientMain env (shared s) w) as [[control' w'] events].
  cbn [fst snd] in Hsum. cbv zeta in Hsum.
  destruct s as [control threads t]. cbn [shared pool trace] in *.
  destruct Hinv as ((I1 & I2) & I3). cbn [shared pool trace] in *.
  pose proof (tally_replace in_flight i w w' threads Hw) as Hfly.
  pose proof (tally_replace exited i w w' threads Hw) as Hgone.
  pose proof (tally_range in_flight threads in_flight_range) as Rfly.
  pose proof (tally_range exited threads exited_range) as Rgone.
  pose proof (tally_member exited i w threads exited_range Hw) as Mgone.
  pose proof (requestsSent_nonneg (mkSystem control threads t)) as Rsent.
  pose proof (weights_at w) as Ww.
  pose proof (weights_at w') as Ww'.
  unfold INT_MAX in *.
  rewrite length_replace. split; [|reflexivity].
  unfold capInvariant. cbn [shared pool trace].
  rewrite requestsSent_app.
  rewrite (requestsSent_trace control' control (replace i w' threads) threads).
  rewrite Hfly, Hgone. clear Hfly Hgone.
  destruct (location w) eqn:Hloc; destruct Ww as [Wf Wg];
    rewrite Wf, Wg in *; destruct Hsum as (Hv & -> & Hloc').
  - assert (Hwrap : to_int (numRequestsLeft control - 1)
                    = numRequestsLeft control - 1)
      by (apply to_int_id; unfold INT_MIN, INT_MAX; lia).
    rewrite Hwrap in *. rewrite Hv.
    destruct (0 <=? numRequestsLeft control - 1) eqn:Hpos;
      rewrite Hloc' in Ww'; destruct Ww' as [Wf' Wg']; rewrite Wf', Wg';
      [apply Z.leb_le in Hpos | apply Z.leb_gt in Hpos];
      simpl List.length; lia.
  - rewrite Hv. destruct Hloc' as [Hloc'|Hloc'];
      rewrite Hloc' in Ww'; destruct Ww' as [Wf' Wg']; rewrite Wf', Wg';
      simpl List.length; lia.
  - rewrite Hv. rewrite Hloc' in Ww'; destruct Ww' as [Wf' Wg'];
      rewrite Wf', Wg'. simpl List.length. lia.
  - rewrite Hv. rewrite Hloc' in Ww'; destruct Ww' as [Wf' Wg'];
      rewrite Wf', Wg'. simpl List.length. lia.
  - rewrite Hv. rewrite Hloc' in Ww'; destruct Ww' as [Wf' Wg'];
      rewrite Wf', Wg'. simpl List.length. lia.
Qed.

Lemma capInvariant_run (budget : Z) (schedule : list (nat * Environment)) :
  0 <= budget <= INT_MAX ->
  forall s,
    Z.of_nat (List.length (pool s)) <= INT_MAX ->
    capInvariant budget s ->
    capInvariant budget (run schedule s)
    /\ List.length (pool (run schedule s)) = List.length (pool s).
Proof.
  intros Hbudget. unfold run.
  induction schedule as [|move schedule IH]; intros s Hlen Hinv; simpl.
  - split; [assumption | reflexivity].
  - destruct (capInvariant_step budget s move Hbudget Hlen Hinv)
      as (Hinv' & Hlen').
    destruct (IH (step s move)) as (Hinv'' & Hlen'').
    + rewrite Hlen'. assumption.
    + assumption.
    + split; [assumption | congruence].
Qed.

(** The budget is a cap whatever happens.  A pool of [C] workers
    started on a budget of [N] requests: along every interleaving, and
    whatever signals the workers receive, no more than [N] requests are
    sent, and the counter stays between [-C] and [N], so that its
    decrement never wraps around. *)
Theorem budget_is_never_exceeded (control : HttpClientControl)
  (started : nat -> double) (schedule : list (nat * Environment)) :
  let N := numRequestsLeft control in
  let C := concurrency control in
  let s := run schedule (start control started) in
  0 <= N <= INT_MAX -> 0 <= C <= INT_MAX ->
  requestsSent s <= N /\ - C <= numRequestsLeft (shared s) <= N.
Proof.
  intros N C s HN HC.
  assert (Hlen0 : Z.of_nat (List.length (pool (start control started))) = C).
  { unfold start. cbn [pool]. rewrite length_map, length_seq. fold C. lia. }
  assert (H0 : capInvariant N (start control started)).
  { unfold capInvariant, start. cbn [shared pool trace].
    rewrite !tally_start
      by (intros w Hw; unfold in_flight, exited; rewrite Hw; reflexivity).
    change (requestsSent _) with 0. fold N. lia. }
  destruct (capInvariant_run N schedule HN (start control started))
    as (((I1 & I2) & I3) & Hlen); [lia | exact H0 |].
  fold s in I1, I2, I3, Hlen.
  pose proof (tally_range in_flight (pool s) in_flight_range) as Rfly.
  pose proof (tally_range exited (pool s) exited_range) as Rgone.
  rewrite Hlen, Hlen0 in Rgone.
  split; lia.
Qed.

Lemma budget_is_never_exceeded_witness :
  let control := initialControl "" 2 0 1%float false 1 in
  let hurry := mkEnvironment 0%float 0%float 1 false 0 0%float in
  let s := run [(0%nat, hurry); (1%nat, hurry); (0%nat, hurry); (1%nat, hurry)]
             (start control (fun _ => 0%float)) in
  allExited s = true /\ requestsSent s = 0
  /\ requestsSent s <= 1 /\ - 2 <= numRequestsLeft (shared s) <= 1.
Proof.
  split; [reflexivity | split; [reflexivity|]].
  apply (budget_is_never_exceeded (initialControl "" 2 0 1%float false 1)
           (fun _ => 0%float));
    unfold INT_MAX; simpl; lia.
Defined.

(** Every request is recorded once.  Along every interleaving of the
    workers, signals or not, the samples in [latencies] and the results
    waiting to be recorded are as many as the samples at the start and
    the requests sent since; once every worker has left its loop, each
    request sent has its sample in [latencies]. *)
Theorem every_request_is_recorded_once (control : HttpClientControl)
  (started : nat -> double) (schedule : list (nat * Environment)) :
  let s := run schedule (start control started) in
  size (latencies (shared s)) + tally recording (pool s)
  = size (latencies control) + requestsSent s
  /\ (allExited s = true ->
      size (latencies (shared s)) = size (latencies control) + requestsSent s).
Proof.
  intros s.
  assert (H : forall schedule s0,
             size (latencies (shared (run schedule s0)))
             + tally recording (pool (run schedule s0))
             - requestsSent (run schedule s0)
             = size (latencies (shared s0)) + tally recording (pool s0)
               - requestsSent s0).
  { clear. unfold run.
    induction schedule as [|move schedule IH]; intros s0; [reflexivity|].
    simpl fold_left. rewrite IH. clear IH.
    destruct move as [i env]. unfold step. cbn [fst snd].
    destruct (nth_error (pool s0) i) as [w|] eqn:Hw; [|reflexivity].
    pose proof (httpClientMain_any env (shared s0) w) as Hsum.
    pose proof (latencies_httpClientMain env (shared s0) w) as Hlat.
    destruct (httpClientMain env (shared s0) w) as [[control' w'] events].
    cbn [fst snd] in Hsum, Hlat. cbv zeta in Hsum.
    destruct s0 as [control threads t]. cbn [shared pool trace] in *.
    rewrite requestsSent_app.
    rewrite (requestsSent_trace control' control (replace i w' threads) threads).
    rewrite (tally_replace recording i w w' threads Hw), Hlat.
    unfold recording at 2 3.
    destruct (location w); destruct Hsum as (_ & -> & Hloc');
      try (destruct Hloc' as [Hloc'|Hloc']); rewrite Hloc';
      try destruct (0 <=? _); simpl List.length; lia. }
  specialize (H schedule (start control started)). fold s in H.
  assert (H0 : tally recording (pool (start control started)) = 0).
  { unfold start. cbn [pool]. apply tally_start.
    intros w Hw. unfold recording. now rewrite Hw. }
  rewrite H0 in H. change (requestsSent (start control started)) with 0 in H.
  cbn [shared start] in H.
  split; [lia|].
  intros Hall.
  assert (Hrec : tally recording (pool s) = 0).
  { unfold allExited in Hall. clear -Hall.
    induction (pool s) as [|w l IH]; [reflexivity|].
    simpl in Hall. apply andb_true_iff in Hall. destruct Hall as [Hw Hl].
    simpl tally. rewrite (IH Hl). unfold has_exited in Hw. unfold recording.
    destruct (location w); (discriminate || reflexivity). }
  lia.
Qed.

(** ** Signals without think time *)

Lemma httpClientMain_withoutSignal (env : Environment)
  (control : HttpClientControl) (w : Worker) (i : nat) :
  PrimFloat.ltb 0%float (thinkTime control) = false ->
  httpClientMain (snd (withoutSignal (i, env))) control w
  = httpClientMain env control w.
Proof.
  intros H. unfold httpClientMain, withoutSignal. cbn [fst snd].
  destruct (location w); try reflexivity.
  rewrite H. reflexivity.
Qed.

Lemma run_withoutSignal (schedule : list (nat * Environment)) :
  forall s,
    PrimFloat.ltb 0%float (thinkTime (shared s)) = false ->
    run (map withoutSignal schedule) s = run schedule s.
Proof.
  unfold run. induction schedule as [|move schedule IH]; intros s H;
    [reflexivity|].
  simpl map. simpl fold_left.
  assert (E : step s (withoutSignal move) = step s move).
  { destruct move as [i env]. unfold step.
    change (fst (withoutSignal (i, env))) with i. cbn [fst snd].
    destruct (nth_error (pool s) i) as [w|]; [|reflexivity].
    change (mkEnvironment (waitSample env) (clock env) 0 (curlError env)
              (markers env) (elapsed env))
      with (snd (withoutSignal (i, env))).
    now rewrite httpClientMain_withoutSignal. }
  rewrite E. apply IH.
  destruct move as [i env]. unfold step. cbn [fst snd].
  destruct (nth_error (pool s) i) as [w|]; [|assumption].
  pose proof (frame_httpClientMain env (shared s) w) as F.
  destruct (httpClientMain env (shared s) w) as [[control' w'] events].
  cbn [fst snd shared] in *. cbv zeta in F.
  destruct F as (_ & _ & -> & _). assumption.
Qed.

(** Without think time a worker never waits, so it never sees the
    signal that asks it to exit: when [thinkTime] is not positive, every
    interleaving runs as it would with no signal at all, and once every
    worker has left its loop exactly [N] requests have been sent,
    whatever signals were delivered. *)
Theorem signals_are_ignored_without_think_time (control : HttpClientControl)
  (started : nat -> double) (schedule : list (nat * Environment)) :
  let N := numRequestsLeft control in
  let C := concurrency control in
  let s := run schedule (start control started) in
  PrimFloat.ltb 0%float (thinkTime control) = false ->
  0 <= N <= INT_MAX -> 1 <= C <= INT_MAX ->
  s = run (map withoutSignal schedule) (start control started)
  /\ (allExited s = true -> requestsSent s = N).
Proof.
  intros N C s Hthink HN HC.
  assert (E : run (map withoutSignal schedule) (start control started) = s)
    by (apply run_withoutSignal; exact Hthink).
  split; [now rewrite E|].
  assert (Hquiet : uncancelled (map withoutSignal schedule)).
  { unfold uncancelled. apply Forall_forall. intros move Hin.
    apply in_map_iff in Hin. destruct Hin as (m & <- & _). simpl. lia. }
  assert (Hlen0 : Z.of_nat (List.length (pool (start control started))) = C).
  { unfold start. cbn [pool]. rewrite length_map, length_seq. fold C. lia. }
  destruct (budgetInvariant_run N (map withoutSignal schedule) HN Hquiet
              (start control started)) as (Hinv & Hlen & _).
  - lia.
  - apply budgetInvariant_start. apply HN.
  - rewrite E in Hinv, Hlen. intros Hall.
    apply (budget_spent_exactly N s Hinv); [|exact Hall].
    apply Nat2Z.inj_le. rewrite Hlen, Hlen0. simpl. lia.
Qed.

Lemma signals_are_ignored_without_think_time_witness :
  let control := initialControl "" 1 0 0%float false 1 in
  let hurry := mkEnvironment 0%float 0%float 1 false 0 0%float in
  let schedule := [(0%nat, hurry); (0%nat, hurry); (0%nat, hurry);
                   (0%nat, hurry); (0%nat, hurry)] in
  let s := run schedule (start control (fun _ => 0%float)) in
  allExited s = true
  /\ s = run (map withoutSignal schedule) (start control (fun _ => 0%float))
  /\ (allExited s = true -> requestsSent s = 1).
Proof.
  split; [reflexivity|].
  apply (signals_are_ignored_without_think_time
           (initialControl "" 1 0 0%float false 1) (fun _ => 0%float));
    [reflexivity | unfold INT_MAX; simpl; lia | unfold INT_MAX; simpl; lia].
Defined.

(** ** Which threads the reconciliation keeps *)

Lemma threadIds_snoc (from n : nat) :
  threadIds from (S n) = threadIds from n ++ [Z.of_nat (from + n)].
Proof. unfold threadIds. rewrite seq_S, map_app. reflexivity. Qed.

Lemma length_threadIds (from n : nat) : List.length (threadIds from n) = n.
Proof. unfold threadIds. now rewrite length_map, length_seq. Qed.

Lemma growPool_ids (concurrency_ : Z) (sig : list Z) :
  concurrency_ <= INT_MAX ->
  forall fuel n,
    Z.of_nat n + Z.of_nat fuel = concurrency_ ->
    growPool fuel concurrency_ (mkPool (threadIds 0 n) sig)
    = Returns (mkPool (threadIds 0 (Z.to_nat concurrency_)) sig).
Proof.
  intros Hmax. induction fuel as [|fuel IH]; intros n Hlen.
  - rewrite growPool_enough.
    + do 3 f_equal. lia.
    + rewrite poolSize_small; cbn [httpClientThreads];
        rewrite length_threadIds; lia.
  - simpl. rewrite poolSize_small
      by (cbn [httpClientThreads]; rewrite length_threadIds; lia).
    cbn [httpClientThreads signalled]. rewrite length_threadIds.
    replace (Z.of_nat n <? concurrency_) with true
      by (symmetry; apply Z.ltb_lt; lia).
    change (Z.of_nat n) with (Z.of_nat (0 + n)) at 1.
    rewrite <- threadIds_snoc. apply IH. lia.
Qed.

Lemma shrinkPool_ids (concurrency_ : Z) :
  0 <= concurrency_ ->
  forall fuel n sig,
    Z.of_nat n <= INT_MAX -> (n < fuel)%nat -> concurrency_ <= Z.of_nat n ->
    shrinkPool fuel concurrency_ (mkPool (threadIds 0 n) sig)
    = Returns (mkPool (threadIds 0 (Z.to_nat concurrency_))
                 (sig ++ rev (threadIds (Z.to_nat concurrency_)
                                (n - Z.to_nat concurrency_)))).
Proof.
  intros Hpos. induction fuel as [|fuel IH]; intros n sig Hmax Hfuel Hlen; [lia|].
  simpl. rewrite poolSize_small
    by (cbn [httpClientThreads]; rewrite length_threadIds; lia).
  cbn [httpClientThreads signalled]. rewrite length_threadIds.
  destruct (concurrency_ <? Z.of_nat n) eqn:E.
  - apply Z.ltb_lt in E. destruct n as [|m]; [simpl in E; lia|].
    rewrite threadIds_snoc, rev_app_distr, removelast_last. cbn [rev app].
    rewrite IH by lia.
    replace (S m - Z.to_nat concurrency_)%nat
      with (S (m - Z.to_nat concurrency_)) by lia.
    rewrite (threadIds_snoc (Z.to_nat concurrency_)), rev_app_distr.
    cbn [rev app]. rewrite <- app_assoc. cbn [app].
    replace (Z.to_nat concurrency_ + (m - Z.to_nat concurrency_))%nat
      with m by lia.
    reflexivity.
  - apply Z.ltb_ge in E.
    replace (n - Z.to_nat concurrency_)%nat with 0%nat by lia.
    replace (Z.to_nat concurrency_) with n by lia.
    cbn [threadIds seq map rev]. now rewrite app_nil_r.
Qed.

Lemma reconcile_ids (concurrency_ : Z) (n : nat) (sig : list Z) :
  0 <= concurrency_ <= INT_MAX -> Z.of_nat n <= INT_MAX ->
  reconcile concurrency_ (mkPool (threadIds 0 n) sig)
  = Returns (mkPool (threadIds 0 (Z.to_nat concurrency_))
               (sig ++ rev (threadIds (Z.to_nat concurrency_)
                              (n - Z.to_nat concurrency_)))).
Proof.
  intros [Hpos Hmax] Hlen. unfold reconcile.
  rewrite poolSize_small
    by (cbn [httpClientThreads]; rewrite length_threadIds; lia).
  cbn [httpClientThreads]. rewrite length_threadIds.
  destruct (Z.le_gt_cases (Z.of_nat n) concurrency_) as [Hgrow|Hshrink].
  - rewrite (growPool_ids concurrency_ sig Hmax) by lia.
    cbn [httpClientThreads]. rewrite length_threadIds.
    rewrite shrinkPool_ids by lia.
    replace (n - Z.to_nat concurrency_)%nat with 0%nat by lia.
    now rewrite Nat.sub_diag.
  - rewrite growPool_enough
      by (rewrite poolSize_small; cbn [httpClientThreads];
          rewrite length_threadIds; lia).
    cbn [httpClientThreads]. rewrite length_threadIds.
    apply shrinkPool_ids; lia.
Qed.

(** Which threads a reconciliation keeps.  The vector holding the
    threads with ids [0 .. n-1] in the order they were started, a target
    [c] that is not negative leaves the threads [0 .. c-1], in order:
    missing threads are started with the next ids, and the threads
    [c .. n-1] are signalled and detached, the newest first.  A second
    reconciliation with the same target starts and signals nothing. *)
Theorem reconcile_keeps_oldest_threads (concurrency_ : Z) (n : nat)
  (sig : list Z) :
  0 <= concurrency_ <= INT_MAX -> Z.of_nat n <= INT_MAX ->
  let p' := mkPool (threadIds 0 (Z.to_nat concurrency_))
              (sig ++ rev (threadIds (Z.to_nat concurrency_)
                             (n - Z.to_nat concurrency_))) in
  reconcile concurrency_ (mkPool (threadIds 0 n) sig) = Returns p'
  /\ reconcile concurrency_ p' = Returns p'.
Proof.
  intros HC Hlen p'. split; [now apply reconcile_ids|].
  unfold p'. rewrite reconcile_ids by (try assumption; lia).
  rewrite Nat.sub_diag. cbn [threadIds seq map rev]. now rewrite app_nil_r.
Qed.

Lemma reconcile_keeps_oldest_threads_witness :
  reconcile 2 (mkPool (threadIds 0 5) [])
  = Returns (mkPool [0; 1] [4; 3; 2])
  /\ reconcile 4 (mkPool (threadIds 0 2) [7])
     = Returns (mkPool [0; 1; 2; 3] [7]).
Proof.
  split.
  - destruct (reconcile_keeps_oldest_threads 2 5 []) as [H _];
      [unfold INT_MAX; lia | unfold INT_MAX; simpl; lia |].
    rewrite H. reflexivity.
  - destruct (reconcile_keeps_oldest_threads 4 2 [7]) as [H _];
      [unfold INT_MAX; lia | unfold INT_MAX; simpl; lia |].
    rewrite H. reflexivity.
Defined.

(** ** The pool of [main] between rounds *)

Lemma parseLine_invariant (atof : string -> double)
  (P : HttpClientControl -> Prop) :
  (forall st token, P (fst st) -> P (fst (parseKeyValue atof st token))) ->
  forall line st, P (fst st) -> P (fst (parseLine atof st line)).
Proof.
  intros Hstep line. unfold parseLine.
  generalize (split (is_any_of (String " " (String newline EmptyString))) line).
  intros tokens. induction tokens as [|token tokens IH]; intros st H;
    [exact H|].
  simpl fold_left. apply IH, Hstep, H.
Qed.

Lemma processInput_invariant (atof : string -> double)
  (P : HttpClientControl -> Prop) :
  (forall st token, P (fst st) -> P (fst (parseKeyValue atof st token))) ->
  forall input control arrived input' st',
    processInput atof input control arrived = Some (input', st') ->
    P control -> P (fst st').
Proof.
  intros Hstep input control arrived input' st'. unfold processInput.
  destruct (Nat.eqb _ _); [intros [= _ <-]; auto|].
  generalize (String.length (String.append input arrived)) at 1.
  generalize (String.length input).
  generalize (String.append input arrived).
  change control with (fst (control, @nil LogLine)) at 2.
  generalize (control, @nil LogLine).
  intros st text prevInputSize fuel. revert text st.
  induction fuel as [|fuel IH]; intros text st; simpl.
  - destruct (find_first_of text newline prevInputSize); [discriminate|].
    intros [= _ <-]. auto.
  - destruct (find_first_of text newline prevInputSize) as [n|].
    + intros H HP. apply (IH _ _ H). now apply parseLine_invariant.
    + intros [= _ <-]. auto.
Qed.

Lemma concurrency_parseKeyValue (atof : string -> double) (st : Reconfiguration)
  (token : string) :
  INT_MIN <= concurrency (fst st) <= INT_MAX ->
  INT_MIN <= concurrency (fst (parseKeyValue atof st token)) <= INT_MAX.
Proof.
  destruct st as [control log]. unfold parseKeyValue. cbn [fst]. intros H.
  destruct (negb _); [exact H|].
  destruct (String.eqb _ "thinktime"); [exact H|].
  destruct (String.eqb _ "concurrency"); [apply to_int_range|].
  destruct (String.eqb _ "open"); exact H.
Qed.

Lemma happen_invariant (atof : string -> double) (P : MainState -> Prop) :
  (forall st env w,
     P st ->
     P (mkMain (fst (fst (httpClientMain env (mainControl st) w)))
          (lastReportTime_ st) (totalRequests_ st) (prevInput_ st)
          (mainPool st))) ->
  (forall st signo_ t_now arrived st',
     mainLoopRound atof st signo_ t_now arrived = Returns st' -> P st -> P st') ->
  forall hs st st',
    fold_left (happen atof) hs (Returns st) = Returns st' -> P st -> P st'.
Proof.
  intros Hworker Hmain.
  induction hs as [|h hs IH]; intros st st' H HP.
  - now injection H as <-.
  - cbn [fold_left] in H.
    destruct (happen atof (Returns st) h) as [st1| |] eqn:E;
      [|rewrite happen_stuck in H by (intros ?; discriminate);
        discriminate H ..].
    apply (IH _ _ H).
    destruct h as [env w|signo_ t_now arrived]; simpl in E.
    + injection E as <-. now apply Hworker.
    + now apply (Hmain _ _ _ _ _ E).
Qed.

(** The thread vector follows [concurrency].  Whatever happens while
    [main] is in its loop, as long as the program stays within defined
    behaviour the vector holds exactly [concurrency] threads, with the
    ids [0 .. concurrency-1] in order, whenever [main] is at the head of
    its loop; in particular [concurrency] is then not negative. *)
Theorem thread_vector_follows_concurrency (atof : string -> double)
  (control : HttpClientControl) (t_start : double) (hs : list Happening)
  (st : MainState) :
  0 <= concurrency control <= INT_MAX ->
  fold_left (happen atof) hs (Returns (mainStart control t_start)) = Returns st ->
  0 <= concurrency (mainControl st) <= INT_MAX
  /\ httpClientThreads (mainPool st)
     = threadIds 0 (Z.to_nat (concurrency (mainControl st))).
Proof.
  intros HC H.
  apply (happen_invariant atof
           (fun st => 0 <= concurrency (mainControl st) <= INT_MAX
                      /\ httpClientThreads (mainPool st)
                         = threadIds 0 (Z.to_nat (concurrency (mainControl st))))
           ) with (3 := H).
  - intros st0 env w [H1 H2]. cbn [mainControl mainPool].
    destruct (frame_httpClientMain env (mainControl st0) w)
      as (_ & _ & _ & _ & -> & _).
    split; assumption.
  - intros st0 signo_ t_now arrived st' E [H1 H2].
    unfold mainLoopRound in E.
    destruct (running (mainControl st0) && (0 <? numRequestsLeft (mainControl st0)));
      [|injection E as <-; split; assumption].
    unfold mainRound in E. rewrite report_unfold in E.
    match type of E with
    | context [processInput ?a ?i ?c ?x] =>
        destruct (processInput a i c x) as [[input' [control' log]]|] eqn:Ei;
          [|discriminate]
    end.
    apply (processInput_invariant atof
             (fun c => INT_MIN <= concurrency c <= INT_MAX)
             (concurrency_parseKeyValue atof)) in Ei;
      [|destruct (0 <? signo_); cbn; unfold INT_MIN; lia].
    cbn [fst] in Ei.
    destruct (mainPool st0) as [threads sig] eqn:Ep.
    cbn [httpClientThreads] in H2. rewrite H2 in E.
    destruct (Z.lt_ge_cases (concurrency control') 0) as [Hneg|Hpos].
    + rewrite reconcile_negative in E;
        [discriminate | assumption
         | cbn [httpClientThreads]; rewrite length_threadIds; lia].
    + rewrite reconcile_ids in E by lia.
      injection E as <-. cbn [mainControl mainPool httpClientThreads].
      split; [lia | reflexivity].
  - split; [exact HC | reflexivity].
Qed.

Lemma thread_vector_follows_concurrency_witness :
  exists st,
    fold_left (happen (fun _ => 0%float))
      [MainWakes 0 1%float (String.append "concurrency=3" (String newline ""));
       WorkerMoves calm (mkWorker 0 0%float 0%float AtLoopTest);
       MainWakes 0 2%float (String.append "concurrency=2" (String newline ""))]
      (Returns (mainStart (initialControl "" 1 0 0%float false 5) 0%float))
    = Returns st
    /\ httpClientThreads (mainPool st) = [0; 1]
    /\ signalled (mainPool st) = [2].
Proof.
  eexists. split; [reflexivity|].
  destruct (thread_vector_follows_concurrency (fun _ => 0%float)
              (initialControl "" 1 0 0%float false 5) 0%float
              [MainWakes 0 1%float
                 (String.append "concurrency=3" (String newline ""));
               WorkerMoves calm (mkWorker 0 0%float 0%float AtLoopTest);
               MainWakes 0 2%float
                 (String.append "concurrency=2" (String newline ""))]
              _ ltac:(unfold INT_MAX; simpl; lia) eq_refl) as [_ H].
  split; [rewrite H; reflexivity | reflexivity].
Defined.

(** ** The end of the loop of [main] *)





(** ** What the input buffer keeps *)

Lemma find_first_of_cut (c : ascii) (s : string) :
  forall pos n,
    find_first_of s c pos = Some n ->
    s = String.append (substr0 s n) (String c (erase0 s (n + 1))).
Proof.
  induction s as [|x s IH]; intros pos n; simpl; [discriminate|].
  destruct pos as [|pos].
  - destruct (Ascii.eqb_spec x c) as [->|Hx].
    + intros [= <-]. cbn. now destruct s.
    + destruct (find_first_of s c 0) as [m|] eqn:E; [|discriminate].
      intros [= <-]. simpl. f_equal. now apply (IH 0%nat).
  - destruct (find_first_of s c pos) as [m|] eqn:E; [|discriminate].
    intros [= <-]. simpl. f_equal. now apply (IH pos).
Qed.

Lemma parseLines_cut (atof : string -> double) (prevInputSize : nat) :
  forall fuel text st text' st',
    parseLines atof fuel prevInputSize text st = Some (text', st') ->
    exists lines,
      text = String.append (unlines lines) text'
      /\ st' = fold_left (parseLine atof) lines st.
Proof.
  induction fuel as [|fuel IH]; intros text st text' st'; simpl.
  - destruct (find_first_of text newline prevInputSize); [discriminate|].
    intros [= <- <-]. exists []. split; reflexivity.
  - destruct (find_first_of text newline prevInputSize) as [n|] eqn:E.
    + intros H. apply IH in H. destruct H as (lines & Ht & Hs).
      exists (substr0 text n :: lines). split; [|exact Hs].
      simpl unlines. rewrite append_assoc. cbn [String.append].
      rewrite <- Ht. now apply find_first_of_cut with (pos := prevInputSize).
    + intros [= <- <-]. exists []. split; reflexivity.
Qed.

(** No input is lost and none is read twice.  A call of [processInput]
    returns, and what was in the buffer followed by what arrived is
    then, in order, the lines the call has parsed, each with its
    newline, followed by what the buffer holds afterwards; the control
    structure and the log are those of parsing these lines one after the
    other. *)
Theorem processInput_keeps_every_character (atof : string -> double)
  (input arrived : string) (control : HttpClientControl) :
  exists lines input' st',
    processInput atof input control arrived = Some (input', st')
    /\ String.append input arrived = String.append (unlines lines) input'
    /\ st' = fold_left (parseLine atof) lines (control, []).
Proof.
  unfold processInput. destruct (Nat.eqb _ _).
  - exists [], (String.append input arrived), (control, []).
    repeat split.
  - destruct (parseLines_returns atof (String.length input)
                (String.length (String.append input arrived))
                (String.append input arrived) (control, []) (le_n _))
      as [[input' st'] E].
    pose proof E as E'.
    apply parseLines_cut in E'. destruct E' as (lines & Ht & Hs).
    exists lines, input', st'. split; [exact E | split; assumption].
Qed.

Lemma find_first_of_beyond (c : ascii) (s : string) :
  find_first_of s c 0 = None -> forall pos, find_first_of s c pos = None.
Proof.
  induction s as [|x s IH]; simpl; intros H pos; [reflexivity|].
  destruct (Ascii.eqb x c); [discriminate|].
  destruct (find_first_of s c 0); [discriminate|].
  destruct pos; [reflexivity | now rewrite IH].
Qed.

Lemma find_first_of_from (l rest : string) :
  one_line l ->
  forall pos, (pos <= String.length l)%nat ->
    find_first_of (String.append l (String newline rest)) newline pos
    = Some (String.length l).
Proof.
  unfold one_line. induction l as [|x l IH]; simpl; intros H pos Hpos.
  - replace pos with 0%nat by lia. reflexivity.
  - destruct (Ascii.eqb x newline); [discriminate|].
    destruct (find_first_of l newline 0) eqn:E; [discriminate|].
    destruct pos as [|pos].
    + rewrite (IH eq_refl 0%nat); [reflexivity | lia].
    + rewrite (IH eq_refl pos); [reflexivity | lia].
Qed.

Lemma one_line_append (a b : string) :
  one_line a -> one_line b -> one_line (String.append a b).
Proof.
  unfold one_line. induction a as [|x a IH]; simpl; intros Ha Hb; [exact Hb|].
  destruct (Ascii.eqb x newline); [discriminate|].
  destruct (find_first_of a newline 0); [discriminate|].
  now rewrite IH.
Qed.

(** A line that arrives in two parts is parsed whole.  When the buffer
    holds the beginning of a line and the rest of the line arrives with
    its newline, followed by the beginning of the next line,
    [processInput] parses the whole line once and keeps the beginning
    of the next line in the buffer. *)
Theorem split_line_is_parsed_whole (atof : string -> double)
  (control : HttpClientControl) (carry rest tail : string) :
  one_line carry -> one_line rest -> one_line tail ->
  processInput atof carry control (String.append rest (String newline tail))
  = Some (tail, parseLine atof (control, []) (String.append carry rest)).
Proof.
  intros Hc Hr Ht. unfold processInput.
  rewrite <- append_assoc.
  destruct (Nat.eqb_spec
              (String.length (String.append (String.append carry rest)
                                (String newline tail)))
              (String.length carry)) as [Hz|_].
  { rewrite !length_append in Hz. simpl in Hz. lia. }
  destruct (String.length (String.append (String.append carry rest)
                             (String newline tail))) as [|fuel] eqn:El.
  { rewrite !length_append in El. simpl in El. lia. }
  cbn [parseLines].
  rewrite find_first_of_from
    by (try (now apply one_line_append); rewrite length_append; lia).
  rewrite substr0_line, erase0_line.
  destruct fuel; simpl; now rewrite (find_first_of_beyond newline tail Ht).
Qed.

Lemma split_line_is_parsed_whole_witness :
  processInput (fun _ => 0%float) "concur"
    (initialControl "" 1 0 0%float false 5)
    (String.append "rency=7" (String newline "op"))
  = Some ("op"%string,
          (set_concurrency 7 (initialControl "" 1 0 0%float false 5),
           [SetConcurrency 7])).
Proof.
  rewrite (split_line_is_parsed_whole (fun _ => 0%float)
             (initialControl "" 1 0 0%float false 5) "concur" "rency=7" "op");
    reflexivity.
Defined.

(** ** The tokens of a reconfiguration line *)

Lemma free_of_cons (pred : ascii -> bool) (c : ascii) (s : string) :
  free_of pred (String c s) <-> pred c = false /\ free_of pred s.
Proof.
  unfold free_of. simpl. split.
  - intros H. inversion H. auto.
  - intros [H1 H2]. now constructor.
Qed.

Lemma free_of_append (pred : ascii -> bool) (a b : string) :
  free_of pred a -> free_of pred b -> free_of pred (String.append a b).
Proof.
  induction a as [|x a IH]; simpl; intros Ha Hb; [exact Hb|].
  apply free_of_cons in Ha. apply free_of_cons. split; [apply Ha|].
  apply IH; [apply Ha | exact Hb].
Qed.

Lemma split_from_free (pred : ascii -> bool) (s : string) :
  free_of pred s -> forall b, split_from pred b s = [s].
Proof.
  induction s as [|c s IH]; intros H b; [reflexivity|].
  apply free_of_cons in H. destruct H as [Hc Hs].
  simpl. rewrite Hc, (IH Hs). reflexivity.
Qed.

Lemma split_from_key (pred : ascii -> bool) (sep : ascii) (k rest : string) :
  free_of pred k -> pred sep = true ->
  split_from pred false (String.append k (String sep rest))
  = k :: split_from pred true rest.
Proof.
  intros Hk Hsep. induction k as [|c k IH]; simpl.
  - now rewrite Hsep.
  - apply free_of_cons in Hk. destruct Hk as [Hc Hk].
    rewrite Hc, (IH Hk). reflexivity.
Qed.

Lemma split_from_run (n : nat) (rest : string) :
  split_from (is_any_of "=") true (String.append (equalSigns n) rest)
  = split_from (is_any_of "=") true rest.
Proof. induction n as [|n IH]; [reflexivity | exact IH]. Qed.

Lemma split_from_nonempty (pred : ascii -> bool) (s : string) :
  forall b, (1 <= List.length (split_from pred b s))%nat.
Proof.
  induction s as [|c s IH]; intros b; simpl; [lia|].
  destruct (pred c).
  - destruct b; [apply IH | simpl; lia].
  - destruct (split_from pred false s); simpl; lia.
Qed.

Lemma split_key_value (key value : string) (n : nat) :
  free_of (is_any_of "=") key -> free_of (is_any_of "=") value ->
  split (is_any_of "=")
    (String.append key (String "=" (String.append (equalSigns n) value)))
  = [key; value].
Proof.
  intros Hk Hv. unfold split.
  rewrite (split_from_key (is_any_of "=") "="%char _ _ Hk eq_refl), split_from_run.
  now rewrite (split_from_free _ _ Hv).
Qed.

(** Which tokens are settings.  A token made of a key, one or more
    equal signs and a value (key and value holding no equal sign; either
    may be empty) is read as that key and that value, however many equal
    signs separate them.  A token with no equal sign, and a token with a
    further equal sign after a value that is not empty, are reported as
    unparsable and change nothing. *)
Theorem settings_are_key_and_value (atof : string -> double)
  (control : HttpClientControl) (log : list LogLine) (key value : string) :
  free_of (is_any_of "=") key -> free_of (is_any_of "=") value ->
  (forall n,
     parseKeyValue atof (control, log)
       (String.append key (String "=" (String.append (equalSigns n) value)))
     = if String.eqb key "thinktime" then
         (set_thinkTime (atof value) control, log ++ [SetThinktime (atof value)])
       else if String.eqb key "concurrency" then
         (set_concurrency (atoi value) control,
          log ++ [SetConcurrency (atoi value)])
       else if String.eqb key "open" then
         (set_open (negb (atoi value =? 0)) control,
          log ++ [SetOpen (negb (atoi value =? 0))])
       else (control, log ++ [UnknownKey key]))
  /\ parseKeyValue atof (control, log) key = (control, log ++ [CannotParse key])
  /\ (forall c more,
        let token :=
          String.append key
            (String "=" (String.append (String c value) (String "=" more))) in
        is_any_of "=" c = false ->
        parseKeyValue atof (control, log) token
        = (control, log ++ [CannotParse token])).
Proof.
  intros Hk Hv. split; [|split].
  - intros n. unfold parseKeyValue. rewrite (split_key_value key value n Hk Hv).
    cbn [List.length Nat.eqb negb nth].
    repeat (destruct (String.eqb key _); [reflexivity|]). reflexivity.
  - apply parseKeyValue_malformed. unfold split.
    rewrite (split_from_free _ _ Hk). simpl. lia.
  - intros c more token Hc. apply parseKeyValue_malformed.
    unfold split, token.
    rewrite (split_from_key (is_any_of "=") "="%char _ _ Hk eq_refl).
    change (String.append (String c value) (String "=" more))
      with (String c (String.append value (String "=" more))).
    cbn [split_from]. rewrite Hc.
    rewrite (split_from_key (is_any_of "=") "="%char _ _ Hv eq_refl).
    pose proof (split_from_nonempty (is_any_of "=") more true).
    simpl List.length. lia.
Qed.

Lemma settings_are_key_and_value_witness :
  let control := initialControl "" 1 0 0%float false 5 in
  parseKeyValue (fun _ => 0%float) (control, []) "concurrency==12"
  = (set_concurrency 12 control, [SetConcurrency 12])
  /\ parseKeyValue (fun _ => 0%float) (control, []) "open"
     = (control, [CannotParse "open"]).
Proof.
  intros control.
  destruct (settings_are_key_and_value (fun _ => 0%float) control []
              "concurrency" "12") as (H1 & _); [repeat constructor ..|].
  destruct (settings_are_key_and_value (fun _ => 0%float) control []
              "open" "") as (_ & H2 & _); [repeat constructor ..|].
  split; [exact (H1 1%nat) | exact H2].
Defined.

(** ** A concurrency that cannot be read *)

Lemma atoi_unreadable (value : string) : unreadable value -> atoi value = 0.
Proof.
  destruct value as [|c v]; [reflexivity|].
  intros (Hs & Hm & Hp & Hd). unfold atoi. simpl.
  now rewrite Hs, Hm, Hp, Hd.
Qed.

Lemma append_nil_r (a : string) : String.append a "" = a.
Proof. induction a as [|x a IH]; simpl; [reflexivity | now rewrite IH]. Qed.

Lemma free_of_one_line (s : string) :
  free_of (is_any_of (String " " (String newline EmptyString))) s -> one_line s.
Proof.
  unfold one_line. induction s as [|c s IH]; [reflexivity|].
  intros H. apply free_of_cons in H. destruct H as [Hc Hs].
  simpl. rewrite (IH Hs).
  destruct (Ascii.eqb_spec c newline) as [->|]; [discriminate Hc | reflexivity].
Qed.

(** A concurrency that is not a number stops every thread.  When the
    line [concurrency=value] arrives and the value does not start as a
    number does, [atoi] gives 0 without any complaint: the round sets
    [concurrency] to 0, and signals and detaches every thread of the
    vector, the newest first. *)
Theorem unreadable_concurrency_stops_every_thread (atof : string -> double)
  (control : HttpClientControl) (lastReportTime : double) (totalRequests : Z)
  (n : nat) (sig : list Z) (t_now : double) (value : string) :
  free_of (is_any_of "=") value ->
  free_of (is_any_of (String " " (String newline EmptyString))) value ->
  unreadable value ->
  Z.of_nat n <= INT_MAX ->
  exists control' totalRequests',
    mainRound atof control lastReportTime totalRequests ""
      (mkPool (threadIds 0 n) sig) t_now
      (String.append "concurrency=" (String.append value (String newline "")))
    = Returns (control', t_now, totalRequests', ""%string,
               mkPool [] (sig ++ rev (threadIds 0 n)))
    /\ concurrency control' = 0.
Proof.
  intros Heq Hblank Hun Hn.
  assert (Hline : free_of (is_any_of (String " " (String newline EmptyString)))
                    (String.append "concurrency=" value))
    by (apply free_of_append; [repeat constructor | exact Hblank]).
  unfold mainRound. rewrite report_unfold.
  replace (String.append "concurrency=" (String.append value (String newline "")))
    with (String.append (unlines [String.append "concurrency=" value]) "")
    by (cbn [unlines]; rewrite append_nil_r; apply append_assoc).
  rewrite processInput_whole_lines;
    [|repeat constructor; now apply free_of_one_line | reflexivity].
  cbn [fold_left]. unfold parseLine, split.
  rewrite (split_from_free _ _ Hline). cbn [fold_left].
  change (String.append "concurrency=" value)
    with (String.append "concurrency"
            (String "=" (String.append (equalSigns 0) value))).
  unfold parseKeyValue.
  rewrite (split_key_value "concurrency" value 0) by (repeat constructor || exact Heq).
  cbn [List.length Nat.eqb negb nth].
  change (String.eqb "concurrency" "thinktime") with false.
  change (String.eqb "concurrency" "concurrency") with true.
  cbv iota. rewrite (atoi_unreadable value Hun).
  cbn [concurrency set_concurrency].
  rewrite reconcile_ids by (unfold INT_MAX in *; lia).
  change (Z.to_nat 0) with 0%nat. rewrite Nat.sub_0_r.
  eexists. eexists. split; reflexivity.
Qed.

Lemma unreadable_concurrency_stops_every_thread_witness :
  exists control' totalRequests',
    mainRound (fun _ => 0%float) (initialControl "" 3 0 0%float false 5)
      0%float 0 "" (mkPool (threadIds 0 3) []) 1%float
      (String.append "concurrency=" (String.append "ten" (String newline "")))
    = Returns (control', 1%float, totalRequests', ""%string,
               mkPool [] ([] ++ rev (threadIds 0 3)))
    /\ concurrency control' = 0.
Proof.
  apply (unreadable_concurrency_stops_every_thread (fun _ => 0%float)
           (initialControl "" 3 0 0%float false 5) 0%float 0 3 [] 1%float "ten").
  - repeat constructor.
  - repeat constructor.
  - repeat split.
  - unfold INT_MAX. simpl. lia.
Defined.
